(** * ai-instructions: stack detection, rule resolution and merge

    A shallow embedding of the Go sources of the ai-instructions CLI
    (packages [internal/detect], [rules], [cmd] and the stand-alone
    template generator [main.go]) together with the properties the
    specification states about them.

    Go strings are byte sequences and are modelled by [string] (a list of
    8-bit characters); Go maps by [gmap]; slices by [list]; functions that
    write through a pointer by explicit state passing. *)

From Stdlib Require Import Ascii String List Bool Arith Lia.
From stdpp Require Import base option list gmap strings.

Local Open Scope list_scope.
Local Open Scope stdpp_scope.

(** ** The functions of Go's [strings] package the program calls *)

Module GoStrings.

(** Byte value of a character. *)
Definition byteOf (c : ascii) : nat := nat_of_ascii c.

Definition isEmpty (s : string) : bool :=
  match s with EmptyString => true | String _ _ => false end.

(** [unicode.IsSpace] on the UTF-8 encoding found at the front of a
    string: tab, LF, VT, FF, CR, space (one byte); U+0085 and U+00A0
    (two bytes); U+1680, U+2000..U+200A, U+2028, U+2029, U+202F, U+205F
    and U+3000 (three bytes).  [spaceTail2 c1 c2] and
    [spaceTail3 c1 c2 c3] recognise the multi-byte encodings. *)
Definition spaceTail2 (c1 c2 : ascii) : bool :=
  (byteOf c1 =? 194) && ((byteOf c2 =? 133) || (byteOf c2 =? 160)).

Definition spaceTail3 (c1 c2 c3 : ascii) : bool :=
  ((byteOf c1 =? 225) && (byteOf c2 =? 154) && (byteOf c3 =? 128))
  || ((byteOf c1 =? 226) && (byteOf c2 =? 128)
      && (((128 <=? byteOf c3) && (byteOf c3 <=? 138))
          || (byteOf c3 =? 168) || (byteOf c3 =? 169) || (byteOf c3 =? 175)))
  || ((byteOf c1 =? 226) && (byteOf c2 =? 129) && (byteOf c3 =? 159))
  || ((byteOf c1 =? 227) && (byteOf c2 =? 128) && (byteOf c3 =? 128)).

(** Lead bytes of the multi-byte white-space encodings. *)
Definition spaceLead (c : ascii) : bool :=
  (byteOf c =? 194) || (byteOf c =? 225) || (byteOf c =? 226) || (byteOf c =? 227).

(** [strings.TrimLeftFunc(s, unicode.IsSpace)]: drop white-space runes
    from the front; an invalid or non-space rune stops the scan. *)
Fixpoint trimLeftSpace (s : string) : string :=
  match s with
  | EmptyString => EmptyString
  | String c1 r1 =>
      if Ascii.is_space c1 then trimLeftSpace r1
      else if negb (spaceLead c1) then s
      else match r1 with
           | EmptyString => s
           | String c2 r2 =>
               if spaceTail2 c1 c2 then trimLeftSpace r2
               else match r2 with
                    | EmptyString => s
                    | String c3 r3 =>
                        if spaceTail3 c1 c2 c3 then trimLeftSpace r3 else s
                    end
           end
  end.

(** [strings.TrimRightFunc(s, unicode.IsSpace)]: drop white-space runes
    from the back.  The runes removed form the longest suffix made of
    white-space encodings only, so the cut is at the first position from
    which the rest of the string is white space. *)
Fixpoint trimRightSpace (s : string) : string :=
  match s with
  | EmptyString => EmptyString
  | String c r =>
      if isEmpty (trimLeftSpace s) then EmptyString
      else String c (trimRightSpace r)
  end.

(** [strings.TrimSpace]. *)
Definition TrimSpace (s : string) : string :=
  trimRightSpace (trimLeftSpace s).

(** Membership of a byte in an ASCII cutset. *)
Fixpoint inCutset (c : ascii) (cutset : string) : bool :=
  match cutset with
  | EmptyString => false
  | String x r => if Ascii.eqb c x then true else inCutset c r
  end.

(** [strings.TrimLeft(s, cutset)] for an ASCII cutset (the byte-wise
    path of the library). *)
Fixpoint TrimLeft (s cutset : string) : string :=
  match s with
  | EmptyString => EmptyString
  | String c r => if inCutset c cutset then TrimLeft r cutset else s
  end.

(** [strings.HasPrefix(s, prefix)]. *)
Definition HasPrefix (s pre : string) : bool := String.prefix pre s.

Fixpoint dropBytes (n : nat) (s : string) : string :=
  match n, s with
  | O, _ => s
  | S k, EmptyString => EmptyString
  | S k, String _ r => dropBytes k r
  end.

(** [strings.TrimPrefix(s, prefix)]. *)
Definition TrimPrefix (s pre : string) : string :=
  if HasPrefix s pre then dropBytes (String.length pre) s else s.

(** [strings.TrimSuffix(s, suffix)]. *)
Fixpoint TrimSuffix (s suf : string) : string :=
  if String.eqb s suf then EmptyString
  else match s with
       | EmptyString => EmptyString
       | String c r => String c (TrimSuffix r suf)
       end.

(** The loop of [strings.Split(s, sep)] for a non-empty separator:
    [skip] counts the bytes of a separator occurrence still to be
    passed over, [cur] is the piece being collected. *)
Fixpoint splitLoop (sep : string) (skip : nat) (cur : string) (s : string)
  : list string :=
  match s with
  | EmptyString => [cur]
  | String c r =>
      match skip with
      | S k => splitLoop sep k cur r
      | O =>
          if String.prefix sep s
          then cur :: splitLoop sep (String.length sep - 1) EmptyString r
          else splitLoop sep 0 (cur +:+ String c EmptyString) r
      end
  end.

(** [strings.Split(s, sep)]; the program only splits on the non-empty
    separators "||", " ", "." and "/". *)
Definition Split (s sep : string) : list string := splitLoop sep 0 EmptyString s.

(** [strings.Join(elems, sep)]. *)
Definition Join (elems : list string) (sep : string) : string :=
  String.concat sep elems.

(** Indexing a slice of strings, [parts[i]]; Go panics out of range, the
    callers below guard every access by a length test. *)
Definition at0 (parts : list string) : string := default EmptyString (head parts).
Definition at1 (parts : list string) : string := default EmptyString (parts !! 1).

(** Every character of [s] passes the test [p]. *)
Fixpoint allChars (p : ascii -> bool) (s : string) : bool :=
  match s with
  | EmptyString => true
  | String c r => p c && allChars p r
  end.

(** The first character of [s] passes the test [p]. *)
Definition startsWith (p : ascii -> bool) (s : string) : bool :=
  match s with
  | EmptyString => false
  | String c _ => p c
  end.

(** [p] is empty or begins with the character [r] begins with. *)
Definition stub (p r : string) : Prop :=
  p = "" \/ exists c p' r', p = String c p' /\ r = String c r'.

End GoStrings.

(** ** Package [internal/detect] *)

Module Detect.
Import GoStrings.

(** [type DetectedStack struct]: one version string per technology, the
    empty string meaning "not detected". *)
Record DetectedStack := mkStack {
  PHP : string;
  Laravel : string;
  Nuxt : string;
  Vue : string;
  NuxtUI : string
}.

(** [&DetectedStack{}] *)
Definition emptyStack : DetectedStack := mkStack "" "" "" "" "".

Definition setPHP (v : string) (s : DetectedStack) : DetectedStack :=
  mkStack v (Laravel s) (Nuxt s) (Vue s) (NuxtUI s).
Definition setLaravel (v : string) (s : DetectedStack) : DetectedStack :=
  mkStack (PHP s) v (Nuxt s) (Vue s) (NuxtUI s).
Definition setNuxt (v : string) (s : DetectedStack) : DetectedStack :=
  mkStack (PHP s) (Laravel s) v (Vue s) (NuxtUI s).
Definition setVue (v : string) (s : DetectedStack) : DetectedStack :=
  mkStack (PHP s) (Laravel s) (Nuxt s) v (NuxtUI s).
Definition setNuxtUI (v : string) (s : DetectedStack) : DetectedStack :=
  mkStack (PHP s) (Laravel s) (Nuxt s) (Vue s) v.

(** The five fields, for statements that range over all of them. *)
Inductive field := FPHP | FLaravel | FNuxt | FVue | FNuxtUI.

Definition get (f : field) (s : DetectedStack) : string :=
  match f with
  | FPHP => PHP s | FLaravel => Laravel s | FNuxt => Nuxt s
  | FVue => Vue s | FNuxtUI => NuxtUI s
  end.

(** *** Decoded manifests

    [type composerJSON struct]: [Require] and [Config.Platform]; a Go
    map that is [nil] answers every lookup with "absent", like the empty
    map, but [Config.Platform] is tested against [nil] by the reader and
    keeps the distinction. *)
Record composerJSON := mkComposer {
  cRequire : gmap string string;
  cConfigPlatform : option (gmap string string)
}.

(** [type packageJSON struct] *)
Record packageJSON := mkPackage {
  pDependencies : gmap string string;
  pDevDependencies : gmap string string
}.

(** The anonymous element structs of [lockFile]. *)
Record lockDependency := mkLockDep { ldVersion : string }.
Record lockPackage := mkLockPkg {
  lpVersion : string;
  lpDependencies : gmap string string
}.

(** [type lockFile struct] *)
Record lockFile := mkLock {
  lDependencies : gmap string lockDependency;
  lPackages : gmap string lockPackage
}.

(** Decoded [composer.lock]: package name to pinned version. *)
Record composerLock := mkComposerLock { clPackages : gmap string string }.

(** *** The project tree

    The bytes of a regular file matter to the detector only through
    [json.Unmarshal] into one of the manifest structs, so a file carries
    the outcome of each decoding ([None]: [Unmarshal] returns an error). *)
Record fileData := mkData {
  asComposerJSON : option composerJSON;
  asPackageJSON : option packageJSON;
  asLockFile : option lockFile;
  asComposerLock : option composerLock
}.

(** A regular file (with its read permission) or a directory (with its
    list and search permissions and its entries in the order
    [os.ReadDir] returns them). *)
#[warnings="-register-all"]
Inductive node :=
| File (readable : bool) (data : fileData)
| Dir (canList canSearch : bool) (entries : list (string * node)).

Definition isDir (n : node) : bool :=
  match n with Dir _ _ _ => true | File _ _ => false end.

Inductive error :=
| ENOENT      (* no such file or directory *)
| EACCES      (* permission denied *)
| EISDIR      (* is a directory *)
| ENOTDIR     (* not a directory *)
| EUnmarshal. (* json.Unmarshal failed *)

(** [os.IsNotExist] *)
Definition IsNotExist (e : error) : bool :=
  match e with ENOENT => true | _ => false end.

Fixpoint lookupEntry (name : string) (entries : list (string * node))
  : option node :=
  match entries with
  | [] => None
  | (n, x) :: rest => if String.eqb n name then Some x else lookupEntry name rest
  end.

(** [os.ReadFile(filepath.Join(dir, name))]; [dir = None] is a path that
    does not exist. *)
Definition ReadFile (dir : option node) (name : string) : fileData + error :=
  match dir with
  | None => inr ENOENT
  | Some (File _ _) => inr ENOTDIR
  | Some (Dir _ canSearch entries) =>
      if negb canSearch then inr EACCES
      else match lookupEntry name entries with
           | None => inr ENOENT
           | Some (Dir _ _ _) => inr EISDIR
           | Some (File readable data) =>
               if readable then inl data else inr EACCES
           end
  end.

(** A reader updates the stack it is handed and returns an error or
    [nil]. *)
Definition reader := option node -> DetectedStack -> option error * DetectedStack.

(** [func detectFromComposer(projectRoot string, stack *DetectedStack) error] *)
Definition detectFromComposer : reader := fun projectRoot stack =>
  match ReadFile projectRoot "composer.json" with
  | inr err => if IsNotExist err then (None, stack) else (Some err, stack)
  | inl data =>
      match asComposerJSON data with
      | None => (Some EUnmarshal, stack)
      | Some c =>
          let stack :=
            match cConfigPlatform c with
            | Some platform =>
                if isEmpty (PHP stack) then
                  match platform !! "php" with
                  | Some php => setPHP php stack
                  | None => stack
                  end
                else stack
            | None => stack
            end in
          let stack :=
            if isEmpty (PHP stack) then
              match cRequire c !! "php" with
              | Some php => setPHP php stack
              | None => stack
              end
            else stack in
          let stack :=
            if isEmpty (Laravel stack) then
              match cRequire c !! "laravel/framework" with
              | Some v => setLaravel v stack
              | None => stack
              end
            else stack in
          (None, stack)
      end
  end.

(** The closure [get] of [detectFromPackageJson]. *)
Definition getDep (p : packageJSON) (name : string) : option string :=
  match pDependencies p !! name with
  | Some v => Some v
  | None => pDevDependencies p !! name
  end.

(** [func detectFromPackageJson(projectRoot string, stack *DetectedStack) error] *)
Definition detectFromPackageJson : reader := fun projectRoot stack =>
  match ReadFile projectRoot "package.json" with
  | inr err => if IsNotExist err then (None, stack) else (Some err, stack)
  | inl data =>
      match asPackageJSON data with
      | None => (Some EUnmarshal, stack)
      | Some p =>
          let stack :=
            match getDep p "nuxt" with
            | Some v => if isEmpty (Nuxt stack) then setNuxt v stack else stack
            | None => stack
            end in
          let stack :=
            match getDep p "vue" with
            | Some v => if isEmpty (Vue stack) then setVue v stack else stack
            | None => stack
            end in
          let stack :=
            match getDep p "@nuxt/ui" with
            | Some v => if isEmpty (NuxtUI stack) then setNuxtUI v stack else stack
            | None => stack
            end in
          (None, stack)
      end
  end.

(** The test [ok && x.Version != ""] on a map lookup: the version when
    the key is present with a non-empty version. *)
Definition pinned (version : option string) : option string :=
  match version with
  | Some v => if isEmpty v then None else Some v
  | None => None
  end.

(** [func detectFromPackageLockJson(projectRoot string, stack *DetectedStack) error] *)
Definition detectFromPackageLockJson : reader := fun projectRoot stack =>
  match ReadFile projectRoot "package-lock.json" with
  | inr err => if IsNotExist err then (None, stack) else (Some err, stack)
  | inl data =>
      match asLockFile data with
      | None => (Some EUnmarshal, stack)
      | Some lock =>
          if isEmpty (NuxtUI stack) then
            match pinned (ldVersion <$> lDependencies lock !! "@nuxt/ui") with
            | Some v => (None, setNuxtUI v stack)
            | None =>
                match pinned (lpVersion <$> lPackages lock
                                !! "node_modules/@nuxt/ui") with
                | Some v => (None, setNuxtUI v stack)
                | None => (None, stack)
                end
            end
          else (None, stack)
      end
  end.

(** Modelled from the spec: [detectFromComposerLock], which
    [DetectStack] calls for a [composer.lock] file and whose source is
    not part of the tree at hand.  Section 4.1: a lock-file reader "may
    supplement a manifest reader by resolving a pinned exact version for
    a technology whose manifest only specifies a range; it must not
    override a value already found".  It follows the shape of its sibling
    [detectFromPackageLockJson]: the pinned version of
    [laravel/framework] fills the Laravel field when that is still
    empty. *)
Definition detectFromComposerLock_spec : reader := fun projectRoot stack =>
  match ReadFile projectRoot "composer.lock" with
  | inr err => if IsNotExist err then (None, stack) else (Some err, stack)
  | inl data =>
      match asComposerLock data with
      | None => (Some EUnmarshal, stack)
      | Some lock =>
          if isEmpty (Laravel stack) then
            match pinned (clPackages lock !! "laravel/framework") with
            | Some v => (None, setLaravel v stack)
            | None => (None, stack)
            end
          else (None, stack)
      end
  end.

(** *** [filepath.WalkDir] *)

(** [fs.DirEntry], as far as the walk function looks at it. *)
Record DirEntry := mkEntry { Name : string; IsDir : bool }.

(** The paths the walk hands to its function: the root itself, or an
    entry [name] of a directory [dir] below it; [dir] is what
    [filepath.Dir(path)] names. *)
Inductive walkPath :=
| RootPath
| ChildPath (dir : node) (name : string).

(** Errors a [fs.WalkDirFunc] may return. *)
Inductive walkErr :=
| SkipDir
| SkipAll
| Failure (e : error).

Definition isSkipDir (e : walkErr) : bool :=
  match e with SkipDir => true | _ => false end.

Definition entryOf (path : walkPath) (n : node) : DirEntry :=
  match path with
  | RootPath => mkEntry "." (isDir n)
  | ChildPath _ name => mkEntry name (isDir n)
  end.

Section Walk.
Context {St : Type}.
Variable walkDirFn :
  walkPath -> option DirEntry -> option error -> St -> option walkErr * St.

(** [func walkDir(path string, d fs.DirEntry, walkDirFn fs.WalkDirFunc) error].
    [reach] tells whether every directory above [n] can be searched,
    without which [os.ReadDir(path)] fails. *)
Fixpoint walkDir (reach : bool) (path : walkPath) (n : node) (s : St)
  : option walkErr * St :=
  let d := entryOf path n in
  match walkDirFn path (Some d) None s with
  | (Some err, s) =>
      (if isSkipDir err && IsDir d then None else Some err, s)
  | (None, s) =>
      match n with
      | File _ _ => (None, s)
      | Dir canList canSearch entries =>
          let listed := reach && canList in
          let '(err, s) :=
            if listed then (None, s)
            else walkDirFn path (Some d) (Some EACCES) s in
          match err with
          | Some err =>
              (if isSkipDir err && IsDir d then None else Some err, s)
          | None =>
              if listed then
                (fix loop (dirs : list (string * node)) (s : St)
                   : option walkErr * St :=
                   match dirs with
                   | [] => (None, s)
                   | (name1, d1) :: rest =>
                       match walkDir (reach && canSearch)
                                     (ChildPath n name1) d1 s with
                       | (None, s) => loop rest s
                       | (Some SkipDir, s) => (None, s)
                       | (Some err, s) => (Some err, s)
                       end
                   end) entries s
              else (None, s)
          end
      end
  end.

(** The [for _, d1 := range dirs] loop of [walkDir] as a function of
    its own, for the entries of the directory [parent]. *)
Fixpoint walkEntries (reach : bool) (parent : node)
    (dirs : list (string * node)) (s : St) : option walkErr * St :=
  match dirs with
  | [] => (None, s)
  | (name1, d1) :: rest =>
      match walkDir reach (ChildPath parent name1) d1 s with
      | (None, s) => walkEntries reach parent rest s
      | (Some SkipDir, s) => (None, s)
      | (Some err, s) => (Some err, s)
      end
  end.

(** [func WalkDir(root string, fn fs.WalkDirFunc) error]; [root = None]
    is a root on which [os.Lstat] fails. *)
Definition WalkDir (root : option node) (s : St) : option error * St :=
  let '(err, s) :=
    match root with
    | None => walkDirFn RootPath None (Some ENOENT) s
    | Some n => walkDir true RootPath n s
    end in
  match err with
  | Some (Failure e) => (Some e, s)
  | Some SkipDir | Some SkipAll | None => (None, s)
  end.
End Walk.

(** *** [DetectStack] *)

(** [ignoredDirs := map[string]bool{...}] *)
Definition ignoredDirs : gmap string bool :=
  <["node_modules" := true]> (<["composer" := true]> (<["vendor" := true]> ∅)).

Inductive result :=
| Ok (stack : DetectedStack)
| Err (e : error).

Section DetectStack.
(** The reader of [composer.lock], see [detectFromComposerLock_spec]. *)
Variable detectFromComposerLock : reader.

(** The function literal handed to [filepath.WalkDir]; the errors of
    the readers are discarded ([_ = ...]).  [WalkDir] passes no entry
    ([d = None]) only together with an error, so the third case is never
    reached. *)
Definition walkFn (path : walkPath) (d : option DirEntry)
    (err : option error) (stack : DetectedStack)
  : option walkErr * DetectedStack :=
  match err, path, d with
  | Some _, _, _ => (None, stack)
  | None, RootPath, _ => (None, stack)
  | None, ChildPath _ _, None => (None, stack)
  | None, ChildPath dir _, Some d =>
      if IsDir d then
        let name := Name d in
        if HasPrefix name "." then (Some SkipDir, stack)
        else if default false (ignoredDirs !! name) then (Some SkipDir, stack)
        else (None, stack)
      else
        let name := Name d in
        if String.eqb name "composer.json"
        then (None, snd (detectFromComposer (Some dir) stack))
        else if String.eqb name "composer.lock"
        then (None, snd (detectFromComposerLock (Some dir) stack))
        else if String.eqb name "package.json"
        then (None, snd (detectFromPackageJson (Some dir) stack))
        else if String.eqb name "package-lock.json"
        then (None, snd (detectFromPackageLockJson (Some dir) stack))
        else (None, stack)
  end.

(** [func DetectStack(projectRoot string)], returning the stack or an
    error. *)
Definition DetectStack (projectRoot : option node) : result :=
  let stack := emptyStack in
  match detectFromComposer projectRoot stack with
  | (Some err, _) => Err err
  | (None, stack) =>
  match detectFromPackageJson projectRoot stack with
  | (Some err, _) => Err err
  | (None, stack) =>
  match detectFromPackageLockJson projectRoot stack with
  | (Some err, _) => Err err
  | (None, stack) =>
  match WalkDir walkFn projectRoot stack with
  | (Some err, _) => Err err
  | (None, stack) => Ok stack
  end end end end.
End DetectStack.

(** *** Notions used to state the properties of the detector *)

(** First-writer-wins between an earlier stack [a] and a later stack
    [b]: every field that is set in [a] has the same value in [b]. *)
Definition keeps (a b : DetectedStack) : Prop :=
  forall f, get f a <> "" -> get f b = get f a.

Section Trace.
Variable detectFromComposerLock : reader.

(** The run of [DetectStack] observed step by step: the history of the
    stack, starting with the empty stack and extended after each
    root-level reader and after each call of the walk function. *)
Definition current (h : list DetectedStack) : DetectedStack :=
  default emptyStack (last h).

Definition tracedFn (path : walkPath) (d : option DirEntry)
    (err : option error) (h : list DetectedStack)
  : option walkErr * list DetectedStack :=
  let '(r, stack) := walkFn detectFromComposerLock path d err (current h) in
  (r, h ++ [stack]).

Definition DetectStackTrace (projectRoot : option node)
  : list DetectedStack :=
  let s0 := emptyStack in
  match detectFromComposer projectRoot s0 with
  | (Some _, s1) => [s0; s1]
  | (None, s1) =>
  match detectFromPackageJson projectRoot s1 with
  | (Some _, s2) => [s0; s1; s2]
  | (None, s2) =>
  match detectFromPackageLockJson projectRoot s2 with
  | (Some _, s3) => [s0; s1; s2; s3]
  | (None, s3) => snd (WalkDir tracedFn projectRoot [s0; s1; s2; s3])
  end end end.

(** The three root-level readers in the order [DetectStack] runs them,
    stopping at the first error. *)
Definition rootReaders (projectRoot : option node) (stack : DetectedStack)
  : option error * DetectedStack :=
  match detectFromComposer projectRoot stack with
  | (Some err, stack) => (Some err, stack)
  | (None, stack) =>
  match detectFromPackageJson projectRoot stack with
  | (Some err, stack) => (Some err, stack)
  | (None, stack) => detectFromPackageLockJson projectRoot stack
  end end.
End Trace.

(** Two results of a walk function, or of a walk, that agree on the
    answer and leave related states. *)
Definition inStep {St1 St2 : Type} (Sim : St1 -> St2 -> Prop)
    (r1 : option walkErr * St1) (r2 : option walkErr * St2) : Prop :=
  fst r1 = fst r2 /\ Sim (snd r1) (snd r2).

(** A history in which first-writer-wins holds between every earlier
    and every later stack. *)
Definition inOrder (h : list DetectedStack) : Prop :=
  forall i j a b, i <= j -> h !! i = Some a -> h !! j = Some b -> keeps a b.

(** A directory name the walk excludes, in the words of the
    specification: it starts with a dot or is one of [node_modules],
    [composer], [vendor]. *)
Definition excludedName (name : string) : bool :=
  String.prefix "." name
  || String.eqb name "node_modules"
  || String.eqb name "composer"
  || String.eqb name "vendor".

(** Two project trees that are the same except for what lies inside
    excluded directories below the root: files are equal, directories
    have the same permissions and the same entry names in the same
    order, and an entry that is an excluded directory on both sides may
    hold anything. *)
Fixpoint sameOutsideExcluded (a b : node) {struct a} : Prop :=
  match a, b with
  | File r d, File r' d' => r = r' /\ d = d'
  | Dir l x es, Dir l' x' es' =>
      l = l' /\ x = x' /\
      (fix entries (es : list (string * node)) (es' : list (string * node))
         {struct es} : Prop :=
         match es, es' with
         | [], [] => True
         | (n, c) :: t, (n', c') :: t' =>
             n = n'
             /\ (if excludedName n && isDir c && isDir c' then True
                 else sameOutsideExcluded c c')
             /\ entries t t'
         | _, _ => False
         end) es es'
  | _, _ => False
  end.

(** The relation on the entries of two directories that
    [sameOutsideExcluded] uses, named. *)
Fixpoint sameEntries (es es' : list (string * node)) : Prop :=
  match es, es' with
  | [], [] => True
  | (n, c) :: t, (n', c') :: t' =>
      n = n'
      /\ (if excludedName n && isDir c && isDir c' then True
          else sameOutsideExcluded c c')
      /\ sameEntries t t'
  | _, _ => False
  end.

(** The paths at which the walk stands in two such trees. *)
Definition samePlace (p q : walkPath) : Prop :=
  match p, q with
  | RootPath, RootPath => True
  | ChildPath da n, ChildPath db n' => n = n' /\ sameOutsideExcluded da db
  | _, _ => False
  end.

(** [os.ReadDir] on the project root fails: the root does not exist, is
    not a directory, or may not be listed. *)
Definition rootNotListable (projectRoot : option node) : bool :=
  match projectRoot with
  | Some (Dir canList _ _) => negb canList
  | Some (File _ _) | None => true
  end.

(** The error of a manifest [name] of [dir] that exists but cannot be
    used: the error of [os.ReadFile] when it is not a not-exist error, or
    the decoding error when the content does not decode under [view];
    [None] for a manifest that does not exist, and for one that is read
    and decodes. *)
Definition manifestFault {A : Type} (dir : option node) (name : string)
    (view : fileData -> option A) : option error :=
  match ReadFile dir name with
  | inr err => if IsNotExist err then None else Some err
  | inl data =>
      match view data with
      | Some _ => None
      | None => Some EUnmarshal
      end
  end.

(** The first such error among the manifests of the root, taken in the
    order [composer.json], [package.json], [package-lock.json]. *)
Definition rootFault (projectRoot : option node) : option error :=
  match manifestFault projectRoot "composer.json" asComposerJSON with
  | Some err => Some err
  | None =>
      match manifestFault projectRoot "package.json" asPackageJSON with
      | Some err => Some err
      | None => manifestFault projectRoot "package-lock.json" asLockFile
      end
  end.

(** A [composer.json] that is not valid JSON. *)
Definition malformed : fileData := mkData None None None None.

(** *** Example trees *)

(** A [composer.json] whose [require] section pins PHP to [v]; as a
    JSON object it also decodes, to empty structs, as the other
    manifests. *)
Definition composerRequiringPHP (v : string) : fileData :=
  mkData (Some (mkComposer {["php" := v]} None))
         (Some (mkPackage ∅ ∅)) (Some (mkLock ∅ ∅)) (Some (mkComposerLock ∅)).

(** Root manifest declares PHP 8.2, the manifest of [api/] declares 8.3. *)
Definition rootAndNested : node :=
  Dir true true
    [("api", Dir true true
               [("composer.json", File true (composerRequiringPHP "8.3"))]);
     ("composer.json", File true (composerRequiringPHP "8.2"))].

(** A [composer.json] that requires Laravel [v]. *)
Definition composerRequiringLaravel (v : string) : fileData :=
  mkData (Some (mkComposer {["laravel/framework" := v]} None))
         (Some (mkPackage ∅ ∅)) (Some (mkLock ∅ ∅)) (Some (mkComposerLock ∅)).

(** A project with a manifest of its own and a [vendor] directory that
    holds the manifest of a dependency, and the same project with
    [vendor] emptied. *)
Definition withVendor : node :=
  Dir true true
    [("composer.json", File true (composerRequiringPHP "8.2"));
     ("vendor", Dir true true
        [("acme", Dir true true
            [("composer.json", File true (composerRequiringLaravel "^9.0"))])])].

Definition withoutVendor : node :=
  Dir true true
    [("composer.json", File true (composerRequiringPHP "8.2"));
     ("vendor", Dir true true [])].

End Detect.


(** ** Package [rules]: the embedded rule store *)

Module Rules.

(** [embed.FS] holding the markdown files of the rules directory: a
    finite map from file path to content. *)
Abbreviation FS := (gmap string string).

(** [func Get(name string) (string, error)]: the content of
    [name + ".md"], [None] when [ReadFile] fails. *)
Definition Get (embeddedFS : FS) (name : string) : option string :=
  embeddedFS !! (name +:+ ".md").

End Rules.

(** ** Package [cmd]: rule resolution, merge and render
       (the generator over the embedded rule store) *)

Module Cmd.
Import GoStrings Detect.

(** The line feed and the horizontal-rule separator ["\n\n---\n\n"]. *)
Definition LF : string := String "010"%char EmptyString.
Definition separator : string := LF +:+ LF +:+ "---" +:+ LF +:+ LF.

(** [type agentFile struct] *)
Record agentFile := mkAgent { Label : string; ID : string }.

(** [func buildStackSection(stack *detect.DetectedStack) string] *)
Definition buildStackSection (stack : option DetectedStack) : string :=
  match stack with
  | None => ""
  | Some stack =>
      let lines : list string := [] in
      let lines := if negb (isEmpty (PHP stack))
                   then lines ++ ["- PHP: " +:+ PHP stack] else lines in
      let lines := if negb (isEmpty (Laravel stack))
                   then lines ++ ["- Laravel: " +:+ Laravel stack] else lines in
      let lines := if negb (isEmpty (Nuxt stack))
                   then lines ++ ["- Nuxt: " +:+ Nuxt stack] else lines in
      let lines := if negb (isEmpty (Vue stack))
                   then lines ++ ["- Vue: " +:+ Vue stack] else lines in
      let lines := if negb (isEmpty (NuxtUI stack))
                   then lines ++ ["- Nuxt UI: " +:+ NuxtUI stack] else lines in
      if length lines =? 0 then ""
      else "## Stack" +:+ LF +:+ LF +:+ Join lines LF
  end.

(** A digit or a dot: the test of the loop of [normalizeVersion]. *)
Definition isDigitOrDot (r : ascii) : bool :=
  ((48 <=? byteOf r) && (byteOf r <=? 57)) || Ascii.eqb r "."%char.

(** The loop of [normalizeVersion]: copy characters until the first one
    that is neither a digit nor a dot. *)
Fixpoint digitsAndDots (v : string) : string :=
  match v with
  | EmptyString => EmptyString
  | String r rest =>
      if isDigitOrDot r then String r (digitsAndDots rest) else EmptyString
  end.

(** [func normalizeVersion(v string) string] *)
Definition normalizeVersion (v : string) : string :=
  let v := TrimSpace v in
  if isEmpty v then ""
  else
    let v := at0 (Split v "||") in
    let v := at0 (Split v " ") in
    let v := TrimLeft v "^~><= " in
    digitsAndDots v.

(** [major] and [minor] as [addRulesFor] and [addAgentFor] compute them
    from the normalized version. *)
Definition majorOf (norm : string) : string := at0 (Split norm ".").
Definition minorOf (norm : string) : string :=
  let parts := Split norm "." in
  if 1 <? length parts then at1 parts else "".

(** [func deriveRuleLabel(id string) string] *)
Definition deriveRuleLabel (id : string) : string :=
  let id := TrimSuffix id "/general" in
  let id := TrimSuffix id "/agent" in
  Join (Split id "/") " ".

Section Store.
Variable embeddedFS : Rules.FS.

(** [func ruleExists(id string) bool] *)
Definition ruleExists (id : string) : bool :=
  match Rules.Get embeddedFS id with Some _ => true | None => false end.

(** [func addIfExists(ids *[]string, id string)] *)
Definition addIfExists (ids : list string) (id : string) : list string :=
  if ruleExists id then ids ++ [id] else ids.

(** [func addRulesFor(ids *[]string, name, version string)] *)
Definition addRulesFor (ids : list string) (name version : string)
  : list string :=
  if isEmpty version then ids
  else
    let ids := addIfExists ids (name +:+ "/general") in
    let norm := normalizeVersion version in
    if isEmpty norm then ids
    else
      let major := majorOf norm in
      let minor := minorOf norm in
      let ids :=
        if negb (isEmpty major) && negb (isEmpty minor)
        then addIfExists ids (name +:+ "/" +:+ major +:+ "." +:+ minor +:+ "/general")
        else ids in
      if negb (isEmpty major)
      then addIfExists ids (name +:+ "/" +:+ major +:+ "/general")
      else ids.

(** [func buildGeneralRulesFromDetection(stack *detect.DetectedStack) []string] *)
Definition buildGeneralRulesFromDetection (stack : DetectedStack)
  : list string :=
  let ids : list string := [] in
  let ids := addRulesFor ids "php" (PHP stack) in
  let ids := addRulesFor ids "laravel" (Laravel stack) in
  let ids := addRulesFor ids "nuxt" (Nuxt stack) in
  let ids := addRulesFor ids "vue" (Vue stack) in
  let ids := addRulesFor ids "nuxt_ui" (NuxtUI stack) in
  ids.

(** [func addAgentFor(files *[]agentFile, label, name, version string)] *)
Definition addAgentFor (files : list agentFile) (label name version : string)
  : list agentFile :=
  if isEmpty version then files
  else
    let norm := normalizeVersion version in
    let major := majorOf norm in
    let minor := minorOf norm in
    let idMinor := name +:+ "/" +:+ major +:+ "." +:+ minor +:+ "/agent" in
    let idMajor := name +:+ "/" +:+ major +:+ "/agent" in
    let idBase := name +:+ "/agent" in
    if negb (isEmpty major) && negb (isEmpty minor) && ruleExists idMinor
    then files ++ [mkAgent label idMinor]
    else if negb (isEmpty major) && ruleExists idMajor
    then files ++ [mkAgent label idMajor]
    else if ruleExists idBase
    then files ++ [mkAgent label idBase]
    else files.

(** [func buildAgentRulesFromDetection(stack *detect.DetectedStack) []agentFile] *)
Definition buildAgentRulesFromDetection (stack : DetectedStack)
  : list agentFile :=
  let files : list agentFile := [] in
  let files := addAgentFor files "PHP" "php" (PHP stack) in
  let files := addAgentFor files "Laravel" "laravel" (Laravel stack) in
  let files := addAgentFor files "Nuxt" "nuxt" (Nuxt stack) in
  let files := addAgentFor files "Vue" "vue" (Vue stack) in
  let files := addAgentFor files "Nuxt UI" "nuxt_ui" (NuxtUI stack) in
  files.

(** One turn of the loop of [loadAndMergeRules] on the builder [b]. *)
Definition mergeStep (b : string) (id : string) : string :=
  match Rules.Get embeddedFS id with
  | None =>
      let b := if negb (isEmpty b) then b +:+ separator else b in
      b +:+ "<!-- Missing instructions for " +:+ deriveRuleLabel id
        +:+ " (expected file: rules/" +:+ id +:+ ".md) -->"
  | Some data =>
      let b := if negb (isEmpty b) then b +:+ separator else b in
      b +:+ data
  end.

(** [func loadAndMergeRules(ids []string) (string, error)] *)
Definition loadAndMergeRules (ids : list string) : string * option error :=
  (fold_left mergeStep ids "", None).

(** One turn of the loop of [buildAgentContent], at index [i]. *)
Definition agentStep (b : string) (i : nat) (af : agentFile) : string :=
  let b := if 0 <? i then b +:+ separator else b in
  let b := b +:+ "## " +:+ Label af +:+ LF +:+ LF in
  match Rules.Get embeddedFS (ID af) with
  | None =>
      b +:+ "<!-- Missing agent instructions for " +:+ Label af
        +:+ " (expected file: rules/" +:+ ID af +:+ ".md) -->"
  | Some data => b +:+ data
  end.

Fixpoint agentLoop (b : string) (i : nat) (files : list agentFile) : string :=
  match files with
  | [] => b
  | af :: rest => agentLoop (agentStep b i af) (S i) rest
  end.

(** [func buildAgentContent(files []agentFile) string] *)
Definition buildAgentContent (files : list agentFile) : string :=
  let b := "# Agents" +:+ LF +:+ LF in
  let b := b +:+ "<!-- Generated by ai-instructions. Do not edit manually. -->"
             +:+ LF +:+ LF +:+ "---" +:+ LF +:+ LF in
  agentLoop b 0 files.

(** The general document of auto mode, as [generate] writes it and
    [validate] recomputes it: resolve, merge, and prepend the stack
    section; [None] when no rule resolves (nothing is generated) or the
    merge fails. *)
Definition renderGeneral (stack : DetectedStack) : option string :=
  let generalRuleIDs := buildGeneralRulesFromDetection stack in
  if 0 <? length generalRuleIDs then
    match loadAndMergeRules generalRuleIDs with
    | (_, Some _) => None
    | (content, None) =>
        let stackSection := buildStackSection (Some stack) in
        if negb (isEmpty stackSection)
        then Some (stackSection +:+ separator +:+ content)
        else Some content
    end
  else None.

(** The agents section of auto mode. *)
Definition renderAgents (stack : DetectedStack) : option string :=
  let agentRuleIDs := buildAgentRulesFromDetection stack in
  if 0 <? length agentRuleIDs then Some (buildAgentContent agentRuleIDs)
  else None.
End Store.

(** [type fileStatus int] of [validate.go] *)
Inductive fileStatus :=
| statusUpToDate
| statusMissing
| statusOutdated.

(** [func compareFileStatus(path string, expected string) fileStatus],
    on the outcome of [os.ReadFile(path)]. *)
Definition compareFileStatus (file : string + error) (expected : string)
  : fileStatus :=
  match file with
  | inr err => if IsNotExist err then statusMissing else statusOutdated
  | inl data =>
      if String.eqb (TrimSpace data) (TrimSpace expected)
      then statusUpToDate else statusOutdated
  end.

(** *** Notions used to state the properties of the resolver and the merge *)

(** A range operator of a version constraint: one of [^ ~ > < =]. *)
Definition isRangeOp (c : ascii) : bool := inCutset c "^~><=".

(** [sub] occurs in [s]. *)
Definition contains (s sub : string) : Prop :=
  exists pre post, s = pre +:+ sub +:+ post.


(** The first element of a list that passes a test. *)
Fixpoint firstThat {A : Type} (p : A -> bool) (l : list A) : option A :=
  match l with
  | [] => None
  | x :: rest => if p x then Some x else firstThat p rest
  end.

(** The placeholder comments for a rule whose content is missing. *)
Definition missingNote (id : string) : string :=
  "<!-- Missing instructions for " +:+ deriveRuleLabel id
    +:+ " (expected file: rules/" +:+ id +:+ ".md) -->".

Definition missingAgentNote (af : agentFile) : string :=
  "<!-- Missing agent instructions for " +:+ Label af
    +:+ " (expected file: rules/" +:+ ID af +:+ ".md) -->".

(** What the general merge writes for one identifier: its content, or the
    placeholder when [rules.Get] fails. *)
Definition generalPiece (embeddedFS : Rules.FS) (id : string) : string :=
  match Rules.Get embeddedFS id with
  | Some data => data
  | None => missingNote id
  end.

(** What the agent merge writes for one agent file: a heading with its
    label, then its content or the placeholder. *)
Definition agentPiece (embeddedFS : Rules.FS) (af : agentFile) : string :=
  "## " +:+ Label af +:+ LF +:+ LF
    +:+ match Rules.Get embeddedFS (ID af) with
        | Some data => data
        | None => missingAgentNote af
        end.

(** Writing a piece to the builder [b]: the separator goes first unless
    nothing has been written yet. *)
Definition written (b piece : string) : string :=
  (if negb (isEmpty b) then b +:+ separator else b) +:+ piece.

(** Pieces written one after the other, starting from the empty
    builder. *)
Definition joinWritten (pieces : list string) : string :=
  fold_left written pieces "".

(** The fixed head of the agents document. *)
Definition agentsHeader : string :=
  "# Agents" +:+ LF +:+ LF
    +:+ "<!-- Generated by ai-instructions. Do not edit manually. -->"
    +:+ LF +:+ LF +:+ "---" +:+ LF +:+ LF.

(** *** Example stores *)

(** PHP rules at the base, "5" and "5.3" granularities, general and
    agent. *)
Definition store53 : Rules.FS :=
  <["php/general.md" := "base rules"]>
  (<["php/5/general.md" := "rules for 5"]>
  (<["php/5.3/general.md" := "rules for 5.3"]>
  (<["php/agent.md" := "base agent"]>
  (<["php/5/agent.md" := "agent for 5"]>
  (<["php/5.3/agent.md" := "agent for 5.3"]> ∅))))).

End Cmd.

(** ** Package [path/filepath] on Unix, as far as [cmd] uses it *)

Module GoFilepath.
Import GoStrings.

(** The loop of [filepath.Clean] element by element: [out] holds the
    elements written so far.  An empty element and "." are dropped; ".."
    removes the last element written unless there is none or it is itself
    a "..", in which case it is dropped for a rooted path and written for
    a relative one; any other element is written. *)
Fixpoint cleanElems (rooted : bool) (out : list string) (elems : list string)
  : list string :=
  match elems with
  | [] => out
  | e :: rest =>
      if isEmpty e || String.eqb e "." then cleanElems rooted out rest
      else if String.eqb e ".." then
        match last out with
        | Some top =>
            if String.eqb top ".."
            then cleanElems rooted (out ++ [".."]) rest
            else cleanElems rooted (removelast out) rest
        | None =>
            if rooted then cleanElems rooted out rest
            else cleanElems rooted (out ++ [".."]) rest
        end
      else cleanElems rooted (out ++ [e]) rest
  end.

(** [func Clean(path string) string] *)
Definition Clean (path : string) : string :=
  if isEmpty path then "."
  else
    let rooted := HasPrefix path "/" in
    let body := Join (cleanElems rooted [] (Split path "/")) "/" in
    if rooted then "/" +:+ body
    else if isEmpty body then "." else body.

(** [func Join(elem ...string) string]: the elements from the first
    non-empty one on, joined by "/" and cleaned. *)
Fixpoint Join (elem : list string) : string :=
  match elem with
  | [] => ""
  | e :: rest =>
      if isEmpty e then Join rest else Clean (GoStrings.Join elem "/")
  end.

(** [strings.ContainsAny(path, magicChars)], the test [hasMeta] of
    [filepath.Glob]: one of the characters star, question mark, opening
    bracket, backslash. *)
Fixpoint hasMeta (path : string) : bool :=
  match path with
  | EmptyString => false
  | String c r =>
      (byteOf c =? 42) || (byteOf c =? 63) || (byteOf c =? 91)
      || (byteOf c =? 92) || hasMeta r
  end.

End GoFilepath.

(** ** Package [cmd], the generator over rule files on disk
       ([cmd/generate.go]) *)

Module CmdFiles.
Import GoStrings Detect.

(** The file system as the generator sees it through [package os]. *)
Record OS := mkOS {
  (** [os.ReadFile]; [None] when it returns an error *)
  osReadFile : string -> option string;
  (** [os.Stat] succeeds and [info.IsDir()] *)
  osStatIsDir : string -> bool;
  (** [os.Lstat] succeeds *)
  osLstat : string -> bool;
  (** [filepath.Glob] on a pattern with meta characters; [None] when the
      pattern is malformed *)
  osGlobMeta : string -> option (list string)
}.

(** [type agentFile struct] *)
Record agentFile := mkAgent { Label : string; Path : string }.

(** [filepath.Glob(pattern)]: a pattern without meta characters matches
    itself when it exists. *)
Definition Glob (os : OS) (pattern : string) : option (list string) :=
  if GoFilepath.hasMeta pattern then osGlobMeta os pattern
  else if osLstat os pattern then Some [pattern] else Some [].

(** [func deriveRuleNameFromPath(path string) string] *)
Definition deriveRuleNameFromPath (path : string) : string :=
  let p := GoFilepath.Clean path in
  let prefix := "rules" +:+ "/" in
  let p := TrimPrefix p prefix in
  let p := TrimSuffix p ".md" in
  let parts := Split p "/" in
  if length parts =? 1 then at0 parts else Join parts " ".

Section Files.
Variable os : OS.

(** [func addAllMarkdownInDir(files *[]string, dir string)] *)
Definition addAllMarkdownInDir (files : list string) (dir : string)
  : list string :=
  if negb (osStatIsDir os dir) then files
  else
    match Glob os (GoFilepath.Join [dir; "general.md"]) with
    | None => files
    | Some matches => files ++ matches
    end.

(** [func addRulesFor(files *[]string, name, version string)] *)
Definition addRulesFor (files : list string) (name version : string)
  : list string :=
  if isEmpty version then files
  else
    let baseDir := GoFilepath.Join ["rules"; name] in
    let files := files ++ [GoFilepath.Join [baseDir; "general.md"]] in
    let norm := Cmd.normalizeVersion version in
    if isEmpty norm then files
    else
      let major := Cmd.majorOf norm in
      let minor := Cmd.minorOf norm in
      let files :=
        if negb (isEmpty major) && negb (isEmpty minor)
        then addAllMarkdownInDir files
               (GoFilepath.Join [baseDir; major +:+ "." +:+ minor])
        else files in
      if negb (isEmpty major)
      then addAllMarkdownInDir files (GoFilepath.Join [baseDir; major])
      else files.

(** [func addAgentFor(files *[]agentFile, label, name, version string)] *)
Definition addAgentFor (files : list agentFile) (label name version : string)
  : list agentFile :=
  if isEmpty version then files
  else
    let baseDir := GoFilepath.Join ["rules"; name] in
    let norm := Cmd.normalizeVersion version in
    let major := Cmd.majorOf norm in
    let minor := Cmd.minorOf norm in
    if negb (isEmpty major) && negb (isEmpty minor)
    then files ++ [mkAgent label
                     (GoFilepath.Join [baseDir; major +:+ "." +:+ minor; "agent.md"])]
    else if negb (isEmpty major)
    then files ++ [mkAgent label (GoFilepath.Join [baseDir; major; "agent.md"])]
    else files ++ [mkAgent label (GoFilepath.Join [baseDir; "agent.md"])].

(** One turn of the loop of [loadAndMergeFiles] on the builder [b]. *)
Definition mergeStep (b : string) (f : string) : string :=
  match osReadFile os f with
  | None =>
      let b := if negb (isEmpty b) then b +:+ Cmd.separator else b in
      let ruleName := deriveRuleNameFromPath f in
      b +:+ "<!-- Missing instructions for " +:+ ruleName
        +:+ " (expected file: " +:+ f +:+ ") -->"
  | Some data =>
      let b := if negb (isEmpty b) then b +:+ Cmd.separator else b in
      b +:+ data
  end.


(** One turn of the loop of [buildAgentContent], at index [i]. *)
Definition agentStep (b : string) (i : nat) (af : agentFile) : string :=
  let b := if 0 <? i then b +:+ Cmd.separator else b in
  let b := b +:+ "## " +:+ Label af +:+ Cmd.LF +:+ Cmd.LF in
  match osReadFile os (Path af) with
  | None =>
      b +:+ "<!-- Missing agent instructions for " +:+ Label af
        +:+ " (expected file: " +:+ Path af +:+ ") -->"
  | Some data => b +:+ data
  end.

Fixpoint agentLoop (b : string) (i : nat) (files : list agentFile) : string :=
  match files with
  | [] => b
  | af :: rest => agentLoop (agentStep b i af) (S i) rest
  end.

(** [func buildAgentContent(files []agentFile) string] *)
Definition buildAgentContent (files : list agentFile) : string :=
  let b := "# Agents" +:+ Cmd.LF +:+ Cmd.LF in
  let b := b +:+ "<!-- This file is generated by ai-instructions. Do not edit manually. -->"
             +:+ Cmd.LF +:+ Cmd.LF in
  let b := b +:+ "---" +:+ Cmd.LF +:+ Cmd.LF in
  agentLoop b 0 files.
End Files.

(** *** Notions used to state the properties of this variant *)

Definition missingNote (f : string) : string :=
  "<!-- Missing instructions for " +:+ deriveRuleNameFromPath f
    +:+ " (expected file: " +:+ f +:+ ") -->".

Definition missingAgentNote (af : agentFile) : string :=
  "<!-- Missing agent instructions for " +:+ Label af
    +:+ " (expected file: " +:+ Path af +:+ ") -->".

Definition generalPiece (os : OS) (f : string) : string :=
  match osReadFile os f with
  | Some data => data
  | None => missingNote f
  end.

Definition agentPiece (os : OS) (af : agentFile) : string :=
  "## " +:+ Label af +:+ Cmd.LF +:+ Cmd.LF
    +:+ match osReadFile os (Path af) with
        | Some data => data
        | None => missingAgentNote af
        end.

Definition agentsHeader : string :=
  "# Agents" +:+ Cmd.LF +:+ Cmd.LF
    +:+ "<!-- This file is generated by ai-instructions. Do not edit manually. -->"
    +:+ Cmd.LF +:+ Cmd.LF +:+ "---" +:+ Cmd.LF +:+ Cmd.LF.

(** A rules directory on disk that holds only [rules/php/agent.md] and
    [rules/php/general.md]. *)
Definition baseOnly : OS :=
  mkOS (fun f => if String.eqb f "rules/php/agent.md" then Some "base agent"
                 else if String.eqb f "rules/php/general.md" then Some "base rules"
                 else None)
       (fun d => String.eqb d "rules" || String.eqb d "rules/php")
       (fun f => String.eqb f "rules" || String.eqb f "rules/php"
                 || String.eqb f "rules/php/agent.md"
                 || String.eqb f "rules/php/general.md")
       (fun _ => Some []).

(** A rules directory on disk with PHP rules at the base, "5" and "5.3"
    granularities. *)
Definition disk53 : OS :=
  let files := ["rules/php/general.md"; "rules/php/5/general.md";
                "rules/php/5.3/general.md"; "rules/php/agent.md";
                "rules/php/5/agent.md"; "rules/php/5.3/agent.md"] in
  let dirs := ["rules"; "rules/php"; "rules/php/5"; "rules/php/5.3"] in
  mkOS (fun f => if existsb (String.eqb f) files then Some ("content of " +:+ f)
                 else None)
       (fun d => existsb (String.eqb d) dirs)
       (fun f => existsb (String.eqb f) (files ++ dirs))
       (fun _ => Some []).

End CmdFiles.

(** ** The stand-alone template generator ([main.go]) *)

Module Pilot.
Import GoStrings.

(** [type Section struct] *)
Record Section := mkSection {
  Heading : string;
  Text : string;
  Bullets : list string
}.

(** [type Template struct] *)
Record Template := mkTemplate {
  Title : string;
  Sections : list Section
}.

(** [func trimAll(in []string) []string] *)
Fixpoint trimAll (inp : list string) : list string :=
  match inp with
  | [] => []
  | v :: rest =>
      let v := TrimSpace v in
      if negb (isEmpty v) then v :: trimAll rest else trimAll rest
  end.

(** The loop of [mergeBullets] over [append(a, b...)], with the map
    [seen] and the slice [out]. *)
Fixpoint bulletLoop (seen : gmap string bool) (out : list string)
    (vs : list string) : list string :=
  match vs with
  | [] => out
  | v :: rest =>
      let v := TrimSpace v in
      if isEmpty v || default false (seen !! v) then bulletLoop seen out rest
      else bulletLoop (<[v := true]> seen) (out ++ [v]) rest
  end.

(** [func mergeBullets(a, b []string) []string] *)
Definition mergeBullets (a b : list string) : list string :=
  bulletLoop ∅ [] (a ++ b).

(** The title chosen by [mergeTemplates]: the first title that is not
    blank, else one composed from the set names. *)
Fixpoint firstTitle (templates : list Template) : string :=
  match templates with
  | [] => ""
  | t :: rest =>
      if negb (isEmpty (TrimSpace (Title t))) then Title t else firstTitle rest
  end.

(** The text of a merged section [m] after a section [s] with the same
    heading is merged into it. *)
Definition mergeText (mText sText : string) : string :=
  if negb (isEmpty (TrimSpace sText)) then
    if isEmpty (TrimSpace mText) then sText
    else if negb (String.eqb (TrimSpace mText) (TrimSpace sText))
         then TrimSpace mText +:+ Cmd.LF +:+ Cmd.LF +:+ TrimSpace sText
         else mText
  else mText.

(** The state of the merge loop: the slice [merged] and the map [index]
    from heading to position. *)
Record mergeState := mkState {
  merged : list Section;
  index : gmap string nat
}.

(** The body of the inner loop of [mergeTemplates] for one section;
    [None] is the run-time panic of an index out of range at
    [merged[idx]]. *)
Definition mergeSection (st : mergeState) (s : Section) : option mergeState :=
  let h := TrimSpace (Heading s) in
  if isEmpty h then Some st
  else
    match index st !! h with
    | Some idx =>
        match merged st !! idx with
        | None => None
        | Some m =>
            let m := mkSection (Heading m) (mergeText (Text m) (Text s))
                               (Bullets m) in
            let m := mkSection (Heading m) (Text m)
                               (mergeBullets (Bullets m) (Bullets s)) in
            Some (mkState (<[idx := m]> (merged st)) (index st))
        end
    | None =>
        let s := mkSection (Heading s) (Text s) (trimAll (Bullets s)) in
        Some (mkState (merged st ++ [s])
                      (<[h := length (merged st)]> (index st)))
    end.

Fixpoint mergeSections (st : mergeState) (ss : list Section)
  : option mergeState :=
  match ss with
  | [] => Some st
  | s :: rest =>
      match mergeSection st s with
      | None => None
      | Some st => mergeSections st rest
      end
  end.

(** [func mergeTemplates(templates []Template, sets []string) (string, []Section)] *)
Definition mergeTemplates (templates : list Template) (sets : list string)
  : option (string * list Section) :=
  let title := firstTitle templates in
  let title :=
    if isEmpty title
    then "Copilot instructions (" +:+ Join sets " + " +:+ ")"
    else title in
  match mergeSections (mkState [] ∅) (concat (Sections <$> templates)) with
  | None => None
  | Some st => Some (title, merged st)
  end.

(** *** Notions used to state the properties of the template merge *)

(** The key under which [mergeTemplates] files a section: its heading,
    trimmed. *)
Definition keyOf (s : Section) : string := TrimSpace (Heading s).

(** The strings of a list that are not empty. *)
Definition nonBlank (l : list string) : list string :=
  List.filter (fun v => negb (isEmpty v)) l.

(** The strings of a list after white-space trimming, the empty ones
    dropped. *)
Definition trimmed (l : list string) : list string :=
  nonBlank (List.map TrimSpace l).

(** Every string of a list once, at the place of its first occurrence;
    strings are compared exactly (byte by byte). *)
Fixpoint firstSeen (l : list string) : list string :=
  match l with
  | [] => []
  | x :: rest => x :: List.filter (fun y => negb (String.eqb y x)) (firstSeen rest)
  end.

(** The free text of two sections that share a heading, in the words of
    the specification: the first non-empty text is kept, and a later
    non-empty text is appended after a blank line only if its trimmed
    form differs. *)
Definition sharedText (first later : string) : string :=
  if isEmpty (TrimSpace later) then first
  else if isEmpty (TrimSpace first) then later
  else if String.eqb (TrimSpace first) (TrimSpace later) then first
  else TrimSpace first +:+ Cmd.LF +:+ Cmd.LF +:+ TrimSpace later.

(** The state in which the merge loop starts. *)
Definition emptyState : mergeState := mkState [] ∅.

(** The sections of all templates in the order the loops visit them. *)
Definition allSections (templates : list Template) : list Section :=
  concat (Sections <$> templates).

(** The index points at sections of the right key, and every merged
    section is indexed. *)
Definition consistent (st : mergeState) : Prop :=
  (forall h idx, index st !! h = Some idx ->
     exists m, merged st !! idx = Some m /\ keyOf m = h)
  /\ (forall i m, merged st !! i = Some m -> is_Some (index st !! keyOf m)).

(** [h] is among [keys]. *)
Definition seenIn (keys : list string) (h : string) : bool :=
  existsb (String.eqb h) keys.

(** Two templates for PHP and Laravel that share the heading "Style". *)
Definition phpTemplate : Template :=
  mkTemplate "" [mkSection "Style" "Follow PSR-12." ["  strict types"; "no globals"];
                 mkSection "Testing" "" ["PHPUnit"]].

Definition laravelTemplate : Template :=
  mkTemplate "Laravel" [mkSection " Style " "Use Pint." ["no globals"; ""; "No Globals"]].

End Pilot.


(** ** Further notions for the detector *)

Module DetectNotions.
Import GoStrings Detect.

(** The directories a walk lists: the directory the walk starts from,
    when it can be listed, and below it every directory that can be
    listed and reached through directories that can be listed and
    searched and whose names are not excluded.  [reach] is as in
    [walkDir]. *)
Inductive scanned : bool -> node -> node -> Prop :=
| scanned_here reach l x es :
    reach && l = true -> scanned reach (Dir l x es) (Dir l x es)
| scanned_below reach l x es name c d :
    reach && l = true -> In (name, c) es -> excludedName name = false ->
    scanned (reach && x) c d -> scanned reach (Dir l x es) d.

(** The file names the walk function dispatches on. *)
Definition isMarker (name : string) : bool :=
  String.eqb name "composer.json" || String.eqb name "composer.lock"
  || String.eqb name "package.json" || String.eqb name "package-lock.json".

(** A directory entry the detector has no use for: an excluded directory,
    or a regular file that is not a marker file. *)
Definition inert (e : string * node) : bool :=
  if isDir (snd e) then excludedName (fst e) else negb (isMarker (fst e)).

(** The path of a directory the walk function lets the walk enter: the
    root, or an entry whose name is not excluded. *)
Definition entered (path : walkPath) : Prop :=
  match path with
  | RootPath => True
  | ChildPath _ name => excludedName name = false
  end.

(** A [package.json] with the given dependencies and development
    dependencies. *)
Definition packageWith (deps devDeps : gmap string string) : fileData :=
  mkData (Some (mkComposer ∅ None)) (Some (mkPackage deps devDeps))
         None (Some (mkComposerLock ∅)).

(** A [composer.json] with a platform override and a requirement for
    PHP. *)
Definition composerWithPlatform (platform require : string) : fileData :=
  mkData (Some (mkComposer {["php" := require]} (Some {["php" := platform]})))
         (Some (mkPackage ∅ ∅)) (Some (mkLock ∅ ∅)) (Some (mkComposerLock ∅)).

(** A project pinned to PHP "8.1.0" by the platform override while its
    requirement reads "^8.2". *)
Definition platformProject : node :=
  Dir true true
    [("composer.json", File true (composerWithPlatform "8.1.0" "^8.2"))].

(** A project that lists Vue under both sections of its
    [package.json]. *)
Definition vueProject : node :=
  Dir true true
    [("package.json",
      File true (packageWith {["vue" := "^3.4"]} {["vue" := "^2.7"]}))].

(** A project whose only manifest lies in [services/api/]. *)
Definition nestedOnly : node :=
  Dir true true
    [("README.md", File true (mkData None None None None));
     ("services", Dir true true
        [("api", Dir true true
            [("composer.json", File true (composerRequiringPHP "^8.1"))])])].

(** The project [rootAndNested] after a run of the generator: a
    [.github] directory with the instructions and [AGENTS.md] have
    appeared in the root. *)
Definition generatedGithub : string * node :=
  (".github", Dir true true
     [("copilot-instructions.md", File true (mkData None None None None))]).

Definition generatedAgents : string * node :=
  ("AGENTS.md", File true (mkData None None None None)).

(** A project whose [composer.json] cannot be read. *)
Definition unreadableManifest : node :=
  Dir true true [("composer.json", File false (composerRequiringPHP "8.2"))].

(** [d] is [n] or lies below it. *)
Inductive within : node -> node -> Prop :=
| within_here n : within n n
| within_below l x es name c d :
    In (name, c) es -> within c d -> within (Dir l x es) d.

(** The path of the root, or of an entry of a directory of the tree. *)
Definition inside (root : node) (path : walkPath) : Prop :=
  match path with
  | RootPath => True
  | ChildPath parent _ => within root parent
  end.

(** Some [composer.json] of the tree gives [v] as the PHP version, in its
    platform override or in its requirements. *)
Definition phpSource (root : node) (v : string) : Prop :=
  exists d data c,
    within root d /\ ReadFile (Some d) "composer.json" = inl data
    /\ asComposerJSON data = Some c
    /\ ((exists platform,
           cConfigPlatform c = Some platform /\ platform !! "php" = Some v)
        \/ cRequire c !! "php" = Some v).

(** Some [package.json] of the tree lists the package [name] with the
    version [v]. *)
Definition packageSource (root : node) (name v : string) : Prop :=
  exists d data p,
    within root d /\ ReadFile (Some d) "package.json" = inl data
    /\ asPackageJSON data = Some p /\ getDep p name = Some v.

(** Some [package-lock.json] of the tree pins Nuxt UI to [v]. *)
Definition lockSource (root : node) (v : string) : Prop :=
  exists d data lock,
    within root d /\ ReadFile (Some d) "package-lock.json" = inl data
    /\ asLockFile data = Some lock
    /\ (ldVersion <$> lDependencies lock !! "@nuxt/ui" = Some v
        \/ lpVersion <$> lPackages lock !! "node_modules/@nuxt/ui" = Some v).

(** Every version in the stack, Laravel apart, is found in a manifest of
    the tree. *)
Definition sourced (root : node) (s : DetectedStack) : Prop :=
  (PHP s <> "" -> phpSource root (PHP s))
  /\ (Nuxt s <> "" -> packageSource root "nuxt" (Nuxt s))
  /\ (Vue s <> "" -> packageSource root "vue" (Vue s))
  /\ (NuxtUI s <> "" ->
      packageSource root "@nuxt/ui" (NuxtUI s) \/ lockSource root (NuxtUI s)).

End DetectNotions.


(** ** Package [cmd]: manual mode of the generator over the embedded store *)

Module CmdFlags.
Import GoStrings Detect Cmd.

(** [filepath.ToSlash(path)] on Unix, where the separator is the slash
    already. *)
Definition ToSlash (path : string) : string := path.

Section Store.
Variable embeddedFS : Rules.FS.

(** One turn of the loop of [buildGeneralRulesFromFlags]. *)
Definition generalFlagStep (ids : list string) (r : string) : list string :=
  let r := ToSlash (TrimSpace r) in
  if isEmpty r then ids
  else
    let dirGeneral := r +:+ "/general" in
    if ruleExists embeddedFS dirGeneral then ids ++ [dirGeneral]
    else
      let justGeneral := r +:+ "/general" in
      if ruleExists embeddedFS justGeneral then ids ++ [justGeneral]
      else if ruleExists embeddedFS r then ids ++ [r]
      else ids.

(** [func buildGeneralRulesFromFlags() []string], on the value of the
    [--rule] flags. *)
Definition buildGeneralRulesFromFlags (flagRules : list string) : list string :=
  fold_left generalFlagStep flagRules [].

(** One turn of the loop of [buildAgentRulesFromFlags]. *)
Definition agentFlagStep (files : list agentFile) (r : string)
  : list agentFile :=
  let r := ToSlash (TrimSpace r) in
  if isEmpty r then files
  else
    let id := r +:+ "/agent" in
    let label := deriveRuleLabel id in
    if ruleExists embeddedFS id then files ++ [mkAgent label id] else files.

(** [func buildAgentRulesFromFlags() []agentFile] *)
Definition buildAgentRulesFromFlags (flagRules : list string)
  : list agentFile :=
  fold_left agentFlagStep flagRules [].

(** [func anyRuleFlagsSet() bool] *)
Definition anyRuleFlagsSet (flagRules : list string) : bool :=
  0 <? length flagRules.

(** The rule selection at the head of [generate]: manual mode when a
    [--rule] flag is given, detection otherwise. *)
Definition selectRules (flagRules : list string) (stack : DetectedStack)
  : list string * list agentFile :=
  if anyRuleFlagsSet flagRules
  then (buildGeneralRulesFromFlags flagRules, buildAgentRulesFromFlags flagRules)
  else (buildGeneralRulesFromDetection embeddedFS stack,
        buildAgentRulesFromDetection embeddedFS stack).
End Store.

(** *** Notions used to state the properties of manual mode *)

(** Every slash of [s] replaced by a blank. *)
Fixpoint slashesToBlanks (s : string) : string :=
  match s with
  | EmptyString => EmptyString
  | String c r =>
      String (if Ascii.eqb c "/" then " "%char else c) (slashesToBlanks r)
  end.

(** What a flag contributes to the general list. *)
Definition generalOfFlag (embeddedFS : Rules.FS) (flag : string) : list string :=
  let r := TrimSpace flag in
  if isEmpty r then []
  else if ruleExists embeddedFS (r +:+ "/general") then [r +:+ "/general"]
  else if ruleExists embeddedFS r then [r]
  else [].

(** A list of strings from its first non-empty string on. *)
Fixpoint skipEmpty (l : list string) : list string :=
  match l with
  | [] => []
  | x :: rest => if isEmpty x then skipEmpty rest else l
  end.

(** What a flag contributes to the agent list. *)
Definition agentOfFlag (embeddedFS : Rules.FS) (flag : string) : list agentFile :=
  let r := TrimSpace flag in
  if isEmpty r then []
  else if ruleExists embeddedFS (r +:+ "/agent")
  then [mkAgent (slashesToBlanks r) (r +:+ "/agent")]
  else [].

End CmdFlags.

(** ** Package [rules]: listing the embedded rule store *)

Module RulesList.
Import GoStrings.

(** The loop of [filepath.Ext(path)] on Unix: [i] runs from the last byte
    towards the first; [before] holds the bytes up to [i], the nearest
    first, and [suffix] is [path[i+1:]]. *)
Fixpoint extLoop (before : list ascii) (suffix : string) : string :=
  match before with
  | [] => ""
  | c :: more =>
      if Ascii.eqb c "/" then ""
      else if Ascii.eqb c "." then String c suffix
      else extLoop more (String c suffix)
  end.

(** [func Ext(path string) string] of [path/filepath]. *)
Definition Ext (path : string) : string :=
  extLoop (rev (list_ascii_of_string path)) "".

(** The callback of the walk in [List], on a regular file at [path];
    directories add nothing, and the walk of an embedded file system
    reports no error. *)
Definition listStep (out : list string) (path : string) : list string :=
  if negb (String.eqb (Ext path) ".md") then out
  else
    let path := if HasPrefix path "./" then TrimPrefix path "./" else path in
    let name := TrimSuffix path ".md" in
    out ++ [name].

(** [sort.Strings]: the arrangement of the slice in increasing byte-wise
    order, computed here by insertion. *)
Fixpoint insertSorted (x : string) (l : list string) : list string :=
  match l with
  | [] => [x]
  | y :: rest => if String.leb x y then x :: l else y :: insertSorted x rest
  end.

Definition sortStrings (l : list string) : list string :=
  fold_right insertSorted [] l.

(** [func List() ([]string, error)].  [walked] lists the regular files of
    the embedded file system in the order [fs.WalkDir] visits them. *)
Definition List (walked : list string) : list string :=
  let out := fold_left listStep walked [] in
  sortStrings out.

(** *** Notions used to state the properties of the listing *)

(** Strictly increasing, hence sorted and without duplicates. *)
Fixpoint ascending (l : list string) : bool :=
  match l with
  | [] => true
  | x :: rest =>
      match rest with
      | [] => true
      | y :: _ => String.ltb x y && ascending rest
      end
  end.

(** [walked] visits each file of the store once, and nothing else. *)
Definition walks (embeddedFS : Rules.FS) (walked : list string) : Prop :=
  List.NoDup walked /\ forall path, In path walked <-> is_Some (embeddedFS !! path).

(** The paths of [io/fs] are unrooted: none starts with "./". *)
Definition unrooted (walked : list string) : Prop :=
  forall path, In path walked -> HasPrefix path "./" = false.

(** A visiting order of the example store. *)
Definition walked53 : list string :=
  ["php/5/agent.md"; "php/5/general.md"; "php/5.3/agent.md";
   "php/5.3/general.md"; "php/agent.md"; "php/general.md"].

End RulesList.

(** ** Package [cmd]: the [validate] command *)

Module CmdValidate.
Import GoStrings Detect Cmd RulesList.

(** How a run of [validate] ends: passed, or one of the errors it
    returns.  [ValidationFailed] carries the status reported for
    [.github/copilot-instructions.md] and for [AGENTS.md]. *)
Inductive verdict :=
| Passed
| RulesEmpty
| DetectionFailed (err : error)
| NoGeneralRules
| MissingRule (id : string)
| MergeFailed (err : error)
| ValidationFailed (copilotStatus agentsStatus : fileStatus).

(** [hadError] after one of the two [switch] statements. *)
Definition reportsError (status : fileStatus) : bool :=
  match status with
  | statusMissing => true
  | statusOutdated => true
  | statusUpToDate => false
  end.

Section Store.
Variable embeddedFS : Rules.FS.

(** [RunE] of [validateCmd].  [walked] lists the files of the embedded
    store in the order of the walk of [rules.List], which reports no
    error on an embedded file system; [detected] is the outcome of
    [detect.DetectStack(".")], [copilot] and [agents] are the outcomes of
    [os.ReadFile] on the two generated files. *)
Definition validate (walked : list string) (detected : result)
    (copilot agents : string + error) : verdict :=
  let list := List walked in
  if length list =? 0 then RulesEmpty
  else
    match detected with
    | Err err => DetectionFailed err
    | Ok stack =>
        let generalIDs := buildGeneralRulesFromDetection embeddedFS stack in
        if length generalIDs =? 0 then NoGeneralRules
        else
          match firstThat (fun id => negb (ruleExists embeddedFS id)) generalIDs with
          | Some id => MissingRule id
          | None =>
              match loadAndMergeRules embeddedFS generalIDs with
              | (_, Some err) => MergeFailed err
              | (generalContent, None) =>
                  let stackSection := buildStackSection (Some stack) in
                  let generalContent :=
                    if negb (isEmpty stackSection)
                    then stackSection +:+ separator +:+ generalContent
                    else generalContent in
                  let copilotStatus := compareFileStatus copilot generalContent in
                  let agentsStatus := compareFileStatus agents generalContent in
                  let hadError := false in
                  let hadError :=
                    if reportsError copilotStatus then true else hadError in
                  let hadError :=
                    if reportsError agentsStatus then true else hadError in
                  if hadError then ValidationFailed copilotStatus agentsStatus
                  else Passed
              end
          end
    end.
End Store.

(** *** Notions used to state the properties of [validate] *)

(** White space only: what [TrimSpace] reduces to nothing. *)
Definition blank (w : string) : Prop := TrimSpace w = "".

(** A file holds [doc] up to white space around it. *)
Definition holds (file : string + error) (doc : string) : Prop :=
  exists data, file = inl data /\ TrimSpace data = TrimSpace doc.

End CmdValidate.

(** ** The stand-alone template generator: [main] and [renderMarkdown] *)

Module PilotMain.
Import GoStrings Detect Pilot.

(** The loop that removes repeated sets in [main], at index [i] of
    [sets]; [None] is the run-time panic of an index out of range at
    [templates[i]]. *)
Fixpoint dedupLoop (seen : gmap string bool) (dedupSets : list string)
    (dedupTemplates : list Template) (i : nat) (sets : list string)
    (templates : list Template) : option (list string * list Template) :=
  match sets with
  | [] => Some (dedupSets, dedupTemplates)
  | s :: rest =>
      if default false (seen !! s)
      then dedupLoop seen dedupSets dedupTemplates (S i) rest templates
      else
        match templates !! i with
        | None => None
        | Some t =>
            dedupLoop (<[s := true]> seen) (dedupSets ++ [s])
              (dedupTemplates ++ [t]) (S i) rest templates
        end
  end.

Definition dedup (sets : list string) (templates : list Template)
  : option (list string * list Template) :=
  dedupLoop ∅ [] [] 0 sets templates.

(** The body of the loop of [renderMarkdown] for one section, on the
    builder [b]. *)
Definition renderSection (b : string) (s : Section) : string :=
  let b := b +:+ "## " +:+ Heading s +:+ Cmd.LF +:+ Cmd.LF in
  let b :=
    if negb (isEmpty (TrimSpace (Text s)))
    then b +:+ TrimSpace (Text s) +:+ Cmd.LF +:+ Cmd.LF
    else b in
  let b :=
    fold_left (fun b bullet => b +:+ "- " +:+ bullet +:+ Cmd.LF) (Bullets s) b in
  if 0 <? length (Bullets s) then b +:+ Cmd.LF else b.

(** [func renderMarkdown(title string, sections []Section, sets []string) string] *)
Definition renderMarkdown (title : string) (sections : list Section)
    (sets : list string) : string :=
  let b := "" in
  let b := b +:+ "# " +:+ TrimSpace title +:+ Cmd.LF +:+ Cmd.LF in
  let b := b +:+ "<!-- generated by ai-instructions-pilot: sets: "
             +:+ Join sets ", " +:+ " -->" +:+ Cmd.LF +:+ Cmd.LF in
  fold_left renderSection sections b.

(** How a run of [main] ends once the arguments are read. *)
Inductive outcome :=
| Usage
| ReadError
| OutOfDate
| UpToDate
| MkdirError
| WriteError
| Wrote (md : string)
| Panic.

(** [main] from the removal of repeated sets on.  [existing] is the
    outcome of [os.ReadFile(outputPath)], [mkdirOK] and [writeOK] tell
    whether [os.MkdirAll] and [os.WriteFile] succeed. *)
Definition run (checkMode : bool) (sets : list string)
    (templates : list Template) (existing : string + error)
    (mkdirOK writeOK : bool) : outcome :=
  match dedup sets templates with
  | None => Panic
  | Some (sets, templates) =>
      if length sets =? 0 then Usage
      else
        match mergeTemplates templates sets with
        | None => Panic
        | Some (title, merged) =>
            let md := renderMarkdown title merged sets in
            if checkMode then
              match existing with
              | inr err =>
                  if negb (IsNotExist err) then ReadError
                  else if negb (String.eqb "" md) then OutOfDate else UpToDate
              | inl existing =>
                  if negb (String.eqb existing md) then OutOfDate else UpToDate
              end
            else if negb mkdirOK then MkdirError
            else if negb writeOK then WriteError
            else Wrote md
        end
  end.

(** *** Notions used to state the properties of [main] *)

(** Every name once, with what comes with its first occurrence. *)
Fixpoint firstPairs {A : Type} (l : list (string * A)) : list (string * A) :=
  match l with
  | [] => []
  | p :: rest =>
      p :: List.filter (fun q => negb (String.eqb (fst q) (fst p)))
             (firstPairs rest)
  end.

(** A bullet as [renderMarkdown] expects it: not empty, and without white
    space around it. *)
Definition cleanBullet (v : string) : Prop := v <> "" /\ TrimSpace v = v.

End PilotMain.

(** ** Package [cmd]: the comparison of the earlier [validate] command *)

Module CmdValidateFile.
Import GoStrings.






(** *** Notions used to state the properties of the comparison *)



End CmdValidateFile.

(** ** Package [internal/detect], the earlier [DetectStack]
       (without [composer.lock]) *)

Module DetectEarlier.
Import GoStrings Detect.

(** The function handed to [filepath.WalkDir] by the earlier
    [DetectStack]: as [walkFn], without the case for [composer.lock]. *)
Definition walkFn (path : walkPath) (d : option DirEntry)
    (err : option error) (stack : DetectedStack)
  : option walkErr * DetectedStack :=
  match err, path, d with
  | Some _, _, _ => (None, stack)
  | None, RootPath, _ => (None, stack)
  | None, ChildPath _ _, None => (None, stack)
  | None, ChildPath dir _, Some d =>
      if IsDir d then
        let name := Name d in
        if HasPrefix name "." then (Some SkipDir, stack)
        else if default false (ignoredDirs !! name) then (Some SkipDir, stack)
        else (None, stack)
      else
        let name := Name d in
        if String.eqb name "composer.json"
        then (None, snd (detectFromComposer (Some dir) stack))
        else if String.eqb name "package.json"
        then (None, snd (detectFromPackageJson (Some dir) stack))
        else if String.eqb name "package-lock.json"
        then (None, snd (detectFromPackageLockJson (Some dir) stack))
        else (None, stack)
  end.

(** [func DetectStack(projectRoot string)] of the earlier detector. *)
Definition DetectStack (projectRoot : option node) : result :=
  let stack := emptyStack in
  match detectFromComposer projectRoot stack with
  | (Some err, _) => Err err
  | (None, stack) =>
  match detectFromPackageJson projectRoot stack with
  | (Some err, _) => Err err
  | (None, stack) =>
  match detectFromPackageLockJson projectRoot stack with
  | (Some err, _) => Err err
  | (None, stack) =>
  match WalkDir walkFn projectRoot stack with
  | (Some err, _) => Err err
  | (None, stack) => Ok stack
  end end end end.

(** *** Notions used to compare the two detectors *)

(** The later stack agrees with the earlier one on every field but
    Laravel, and has a Laravel version whenever the earlier one has. *)
Definition sameButLaravel (earlier later : DetectedStack) : Prop :=
  PHP earlier = PHP later /\ Nuxt earlier = Nuxt later
  /\ Vue earlier = Vue later /\ NuxtUI earlier = NuxtUI later
  /\ (Laravel earlier <> "" -> Laravel later <> "").

(** The outcomes of the two detectors correspond: the same error, or
    stacks that are the same but for Laravel. *)
Definition corresponds (earlier later : result) : Prop :=
  match earlier, later with
  | Ok s1, Ok s2 => sameButLaravel s1 s2
  | Err e1, Err e2 => e1 = e2
  | _, _ => False
  end.

(** A [composer.lock] that pins Laravel. *)
Definition lockPinningLaravel (v : string) : fileData :=
  mkData None None None (Some (mkComposerLock {["laravel/framework" := v]})).

(** A project whose [composer.json] gives a range for Laravel and whose
    [api/composer.lock], read first, pins it. *)
Definition lockedProject : node :=
  Dir true true
    [("api", Dir true true
        [("composer.lock", File true (lockPinningLaravel "11.9.2"))]);
     ("app", Dir true true
        [("composer.json", File true (composerRequiringLaravel "^11.0"))])].

End DetectEarlier.

(** ** Package [cmd]: the [detect] command *)

Module CmdDetect.
Import GoStrings Detect.

(** [RunE] of [detectCmd], on the outcome of [detect.DetectStack(".")]:
    the error it returns, or the lines it prints. *)
Definition detectRun (detected : result) : list string + error :=
  match detected with
  | Err err => inr err
  | Ok stack =>
      let out := ["Detected stack:"] in
      let out := if negb (isEmpty (PHP stack))
                 then out ++ ["- PHP: " +:+ PHP stack] else out in
      let out := if negb (isEmpty (Laravel stack))
                 then out ++ ["- Laravel: " +:+ Laravel stack] else out in
      let out := if negb (isEmpty (Nuxt stack))
                 then out ++ ["- Nuxt: " +:+ Nuxt stack] else out in
      let out := if negb (isEmpty (Vue stack))
                 then out ++ ["- Vue: " +:+ Vue stack] else out in
      let out := if negb (isEmpty (NuxtUI stack))
                 then out ++ ["- Nuxt UI: " +:+ NuxtUI stack] else out in
      inl out
  end.

End CmdDetect.

(** ** The generator over rule files on disk: resolution in auto mode *)

Module CmdFilesAuto.
Import GoStrings Detect CmdFiles.

Section Files.
Variable os : OS.

(** [func buildGeneralFilesFromDetection(stack *detect.DetectedStack) []string] *)
Definition buildGeneralFilesFromDetection (stack : DetectedStack)
  : list string :=
  let files : list string := [] in
  let files := addRulesFor os files "php" (PHP stack) in
  let files := addRulesFor os files "laravel" (Laravel stack) in
  let files := addRulesFor os files "nuxt" (Nuxt stack) in
  let files := addRulesFor os files "vue" (Vue stack) in
  let files := addRulesFor os files "nuxt_ui" (NuxtUI stack) in
  files.
End Files.

(** [func buildAgentFilesFromDetection(stack *detect.DetectedStack) []agentFile] *)
Definition buildAgentFilesFromDetection (stack : DetectedStack)
  : list agentFile :=
  let files : list agentFile := [] in
  let files := addAgentFor files "PHP" "php" (PHP stack) in
  let files := addAgentFor files "Laravel" "laravel" (Laravel stack) in
  let files := addAgentFor files "Nuxt" "nuxt" (Nuxt stack) in
  let files := addAgentFor files "Vue" "vue" (Vue stack) in
  let files := addAgentFor files "Nuxt UI" "nuxt_ui" (NuxtUI stack) in
  files.

(** *** Notions used to state the properties of the resolution on disk *)

(** A path element that [filepath.Clean] leaves alone: not empty, not
    "." and not "..". *)
Definition plainElem (e : string) : bool :=
  negb (isEmpty e) && negb (String.eqb e ".") && negb (String.eqb e "..").

(** A relative path made of such elements. *)
Definition plainPath (p : string) : bool := forallb plainElem (Split p "/").

(** A decimal digit. *)
Definition isDigit (c : ascii) : bool := (48 <=? byteOf c) && (byteOf c <=? 57).

(** What [addAllMarkdownInDir] adds for a directory [dir] whose path has
    no meta characters: its [general.md], when [dir] is a directory and
    the file is there. *)
Definition probe (os : OS) (dir : string) : list string :=
  if osStatIsDir os dir && osLstat os (dir +:+ "/general.md")
  then [dir +:+ "/general.md"] else [].

(** The directory of the rules of a technology at a granularity:
    [rules/name/major.minor], [rules/name/major] or [rules/name]. *)
Definition ruleDir (name major minor : string) : string :=
  if negb (isEmpty major) && negb (isEmpty minor)
  then "rules/" +:+ name +:+ "/" +:+ major +:+ "." +:+ minor
  else if negb (isEmpty major) then "rules/" +:+ name +:+ "/" +:+ major
  else "rules/" +:+ name.

(** What [addRulesFor] appends for a technology with a plain name. *)
Definition generalOf (os : OS) (name version : string) : list string :=
  if isEmpty version then []
  else
    let major := Cmd.majorOf (Cmd.normalizeVersion version) in
    let minor := Cmd.minorOf (Cmd.normalizeVersion version) in
    ["rules/" +:+ name +:+ "/general.md"]
      ++ (if negb (isEmpty major) && negb (isEmpty minor)
          then probe os ("rules/" +:+ name +:+ "/" +:+ major +:+ "." +:+ minor)
          else [])
      ++ (if negb (isEmpty major)
          then probe os ("rules/" +:+ name +:+ "/" +:+ major) else []).

(** What [addAgentFor] appends for a technology with a plain name. *)
Definition agentOf (label name version : string) : list agentFile :=
  if isEmpty version then []
  else
    let major := Cmd.majorOf (Cmd.normalizeVersion version) in
    let minor := Cmd.minorOf (Cmd.normalizeVersion version) in
    [mkAgent label (ruleDir name major minor +:+ "/agent.md")].

End CmdFilesAuto.

(** ** Package [cmd]: the [generate] command over the embedded store *)

Module CmdGenerate.
Import GoStrings Detect Cmd CmdFlags.


Section Run.
Variable embeddedFS : Rules.FS.
(** [writeFileWithDirs(path, data)] succeeds; [EACCES] stands for the
    error it returns when it does not. *)
Variable canWrite : string -> bool.


End Run.

(** *** Notions used to state the properties of a run *)




End CmdGenerate.
(** * Properties *)

(** ** Strings *)

Module GoStringsFacts.
Import GoStrings.

Lemma sapp_cons c s t : String c s +:+ t = String c (s +:+ t).
Proof. reflexivity. Qed.

Lemma sapp_nil_l s : "" +:+ s = s.
Proof. reflexivity. Qed.

Lemma sapp_nil_r s : s +:+ "" = s.
Proof. induction s as [| c s IH]; [reflexivity |]. rewrite sapp_cons, IH. reflexivity. Qed.

Lemma sapp_assoc s t u : (s +:+ t) +:+ u = s +:+ (t +:+ u).
Proof.
  induction s as [| c s IH]; [reflexivity |].
  rewrite !sapp_cons, IH. reflexivity.
Qed.

Lemma sapp_inv_head s t u : s +:+ t = s +:+ u -> t = u.
Proof.
  induction s as [| c s IH]; [trivial |].
  rewrite !sapp_cons. intros [= H]. auto.
Qed.

Lemma sapp_length s t : String.length (s +:+ t) = String.length s + String.length t.
Proof.
  induction s as [| c s IH]; [reflexivity |].
  rewrite sapp_cons. simpl. rewrite IH. reflexivity.
Qed.

Lemma isEmpty_true s : isEmpty s = true <-> s = "".
Proof. destruct s; simpl; split; congruence. Qed.

Lemma isEmpty_false s : isEmpty s = false <-> s <> "".
Proof. destruct s; simpl; split; congruence. Qed.

Lemma isEmpty_app s t : isEmpty (s +:+ t) = isEmpty s && isEmpty t.
Proof. destruct s; [reflexivity |]. rewrite sapp_cons. reflexivity. Qed.

Lemma stub_trans p q r : stub p q -> stub q r -> stub p r.
Proof.
  intros [-> | (c & p' & q' & -> & ->)]; [left; reflexivity |].
  intros [H | (c' & q'' & r' & H & ->)]; [discriminate |].
  injection H as <- <-. right. eauto.
Qed.

Lemma stub_cons c p r : stub (String c p) (String c r).
Proof. right. eauto. Qed.

(** *** [TrimSpace] *)

(** A character that neither is ASCII white space nor starts the
    encoding of a white-space rune stops the trimming. *)
Lemma trimLeftSpace_stop c r :
  Ascii.is_space c = false -> spaceLead c = false ->
  trimLeftSpace (String c r) = String c r.
Proof. intros H1 H2. simpl. rewrite H1, H2. reflexivity. Qed.

Lemma trimLeftSpace_ascii_space c r :
  Ascii.is_space c = true -> trimLeftSpace (String c r) = trimLeftSpace r.
Proof. intros H. simpl. rewrite H. reflexivity. Qed.

(** Trimming on the left yields the empty string or a suffix that starts
    with a character of the input that was not trimmed: the result is
    never longer than the input. *)
Lemma trimLeftSpace_length s :
  String.length (trimLeftSpace s) <= String.length s.
Proof.
  remember (String.length s) as n eqn:Hn.
  revert s Hn. induction n as [n IH] using lt_wf_ind. intros s ->.
  destruct s as [| c1 r1]; [reflexivity |].
  cbn [trimLeftSpace].
  destruct (Ascii.is_space c1).
  { specialize (IH (String.length r1) ltac:(simpl; lia) r1 eq_refl). simpl. lia. }
  destruct (negb (spaceLead c1)); [reflexivity |].
  destruct r1 as [| c2 r2]; [reflexivity |].
  destruct (spaceTail2 c1 c2).
  { specialize (IH (String.length r2) ltac:(simpl; lia) r2 eq_refl). simpl. lia. }
  destruct r2 as [| c3 r3]; [reflexivity |].
  destruct (spaceTail3 c1 c2 c3); [| reflexivity].
  specialize (IH (String.length r3) ltac:(simpl; lia) r3 eq_refl). simpl. lia.
Qed.

Lemma trimRightSpace_cons c r :
  trimRightSpace (String c r) = "" \/
  trimRightSpace (String c r) = String c (trimRightSpace r).
Proof.
  cbn [trimRightSpace]. destruct (isEmpty _); [left | right]; reflexivity.
Qed.

Lemma trimRightSpace_stub r : stub (trimRightSpace r) r.
Proof.
  destruct r as [| c r]; [left; reflexivity |].
  destruct (trimRightSpace_cons c r) as [-> | ->];
    [left; reflexivity | apply stub_cons].
Qed.

(** What [trimLeftSpace] returns is not trimmed further. *)
Lemma trimLeftSpace_idem s : trimLeftSpace (trimLeftSpace s) = trimLeftSpace s.
Proof.
  remember (String.length s) as n eqn:Hn.
  revert s Hn. induction n as [n IH] using lt_wf_ind. intros s ->.
  destruct s as [| c1 r1]; [reflexivity |].
  cbn [trimLeftSpace].
  destruct (Ascii.is_space c1) eqn:E1.
  { apply (IH (String.length r1)); [simpl; lia | reflexivity]. }
  destruct (negb (spaceLead c1)) eqn:E2.
  { cbn [trimLeftSpace]. rewrite E1, E2. reflexivity. }
  destruct r1 as [| c2 r2].
  { cbn [trimLeftSpace]. rewrite E1, E2. reflexivity. }
  destruct (spaceTail2 c1 c2) eqn:E3.
  { apply (IH (String.length r2)); [simpl; lia | reflexivity]. }
  destruct r2 as [| c3 r3].
  { cbn [trimLeftSpace]. rewrite E1, E2, E3. reflexivity. }
  destruct (spaceTail3 c1 c2 c3) eqn:E4.
  { apply (IH (String.length r3)); [simpl; lia | reflexivity]. }
  cbn [trimLeftSpace]. rewrite E1, E2, E3, E4. reflexivity.
Qed.

(** White space in front of a string is trimmed with it. *)
Lemma trimLeftSpace_blank x w :
  trimLeftSpace x = "" -> trimLeftSpace (x +:+ w) = trimLeftSpace w.
Proof.
  remember (String.length x) as n eqn:Hn.
  revert x Hn. induction n as [n IH] using lt_wf_ind. intros x -> H.
  destruct x as [| c1 r1]; [reflexivity |].
  rewrite sapp_cons. cbn [trimLeftSpace] in H |- *.
  destruct (Ascii.is_space c1).
  { apply (IH (String.length r1)); [simpl; lia | reflexivity | exact H]. }
  destruct (negb (spaceLead c1)); [discriminate H |].
  destruct r1 as [| c2 r2]; [discriminate H |].
  rewrite sapp_cons.
  destruct (spaceTail2 c1 c2).
  { apply (IH (String.length r2)); [simpl; lia | reflexivity | exact H]. }
  destruct r2 as [| c3 r3]; [discriminate H |].
  rewrite sapp_cons.
  destruct (spaceTail3 c1 c2 c3); [| discriminate H].
  apply (IH (String.length r3)); [simpl; lia | reflexivity | exact H].
Qed.

(** [trimRightSpace] removes a suffix that is white space. *)
Lemma trimRightSpace_suffix r :
  exists w, r = trimRightSpace r +:+ w /\ trimLeftSpace w = "".
Proof.
  induction r as [| c r (w & Hr & Hw)]; [exists ""; split; reflexivity |].
  cbn [trimRightSpace].
  destruct (isEmpty (trimLeftSpace (String c r))) eqn:E.
  - exists (String c r). split; [reflexivity |]. apply isEmpty_true. exact E.
  - exists w. split; [| exact Hw]. rewrite sapp_cons, <- Hr. reflexivity.
Qed.

Lemma trimRightSpace_idem s : trimRightSpace (trimRightSpace s) = trimRightSpace s.
Proof.
  induction s as [| c r IH]; [reflexivity |].
  cbn [trimRightSpace].
  destruct (isEmpty (trimLeftSpace (String c r))) eqn:E; [reflexivity |].
  cbn [trimRightSpace].
  destruct (isEmpty (trimLeftSpace (String c (trimRightSpace r)))) eqn:E';
    [| rewrite IH; reflexivity].
  exfalso. apply isEmpty_true in E'.
  destruct (trimRightSpace_suffix r) as (w & Hr & Hw).
  pose proof (trimLeftSpace_blank (String c (trimRightSpace r)) w E') as H.
  rewrite sapp_cons, <- Hr, Hw in H. rewrite H in E. discriminate E.
Qed.

(** Trimming on the right does not uncover white space on the left. *)
Lemma trimLeftSpace_trimRightSpace u :
  trimLeftSpace u = u -> trimLeftSpace (trimRightSpace u) = trimRightSpace u.
Proof.
  intros Hu.
  destruct u as [| c1 r1]; [reflexivity |].
  destruct (trimRightSpace_cons c1 r1) as [-> | ->]; [reflexivity |].
  cbn [trimLeftSpace] in Hu |- *.
  destruct (Ascii.is_space c1).
  { exfalso. pose proof (trimLeftSpace_length r1) as L.
    rewrite Hu in L. simpl in L. lia. }
  destruct (negb (spaceLead c1)); [reflexivity |].
  destruct r1 as [| c2 r2]; [reflexivity |].
  destruct (trimRightSpace_cons c2 r2) as [-> | ->]; [reflexivity |].
  destruct (spaceTail2 c1 c2).
  { exfalso. pose proof (trimLeftSpace_length r2) as L.
    rewrite Hu in L. simpl in L. lia. }
  destruct r2 as [| c3 r3]; [reflexivity |].
  destruct (trimRightSpace_cons c3 r3) as [-> | ->]; [reflexivity |].
  destruct (spaceTail3 c1 c2 c3); [| reflexivity].
  exfalso. pose proof (trimLeftSpace_length r3) as L.
  rewrite Hu in L. simpl in L. lia.
Qed.

(** [TrimSpace] is idempotent. *)
Lemma TrimSpace_idem s : TrimSpace (TrimSpace s) = TrimSpace s.
Proof.
  unfold TrimSpace.
  rewrite trimLeftSpace_trimRightSpace by apply trimLeftSpace_idem.
  apply trimRightSpace_idem.
Qed.

(** *** [Split] *)

Lemma prefix_other c0 sep c r :
  c <> c0 -> String.prefix (String c0 sep) (String c r) = false.
Proof. intros H. simpl. destruct (ascii_dec c0 c); congruence. Qed.

(** Characters that do not start the separator go to the current piece. *)
Lemma splitLoop_pass c0 sep a cur r :
  allChars (fun c => negb (Ascii.eqb c c0)) a = true ->
  splitLoop (String c0 sep) 0 cur (a +:+ r)
  = splitLoop (String c0 sep) 0 (cur +:+ a) r.
Proof.
  revert cur. induction a as [| c a IH]; intros cur H.
  - rewrite sapp_nil_l, sapp_nil_r. reflexivity.
  - simpl in H. apply andb_prop in H as [Hc Ha].
    apply negb_true_iff, Ascii.eqb_neq in Hc.
    rewrite sapp_cons. cbn [splitLoop]. rewrite prefix_other by exact Hc.
    rewrite IH by exact Ha. rewrite sapp_assoc. reflexivity.
Qed.

(** The first piece is the current piece followed by a stub of what was
    left to scan. *)
Lemma splitLoop_first sep cur r :
  exists p, at0 (splitLoop sep 0 cur r) = cur +:+ p /\ stub p r.
Proof.
  revert cur. induction r as [| c r IH]; intros cur.
  - exists "". split; [simpl; rewrite sapp_nil_r; reflexivity | left; reflexivity].
  - cbn [splitLoop]. destruct (String.prefix sep (String c r)).
    + exists "". split; [simpl; rewrite sapp_nil_r; reflexivity | left; reflexivity].
    + destruct (IH (cur +:+ String c "")) as (p & Hp & _).
      exists (String c p). split; [| apply stub_cons].
      rewrite Hp, sapp_assoc. reflexivity.
Qed.

Lemma splitLoop_nonempty sep skip cur s : splitLoop sep skip cur s <> [].
Proof.
  revert skip cur. induction s as [| c r IH]; intros skip cur; cbn [splitLoop].
  - discriminate.
  - destruct skip; [| apply IH].
    destruct (String.prefix sep (String c r)); [discriminate | apply IH].
Qed.

(** [Split] never returns the empty slice, so [parts[0]] is in range. *)
Lemma Split_nonempty s sep : Split s sep <> [].
Proof. apply splitLoop_nonempty. Qed.

(** *** [TrimLeft] *)

Lemma TrimLeft_cut cutset a s :
  allChars (fun c => inCutset c cutset) a = true ->
  TrimLeft (a +:+ s) cutset = TrimLeft s cutset.
Proof.
  induction a as [| c a IH]; intros H; [reflexivity |].
  simpl in H. apply andb_prop in H as [Hc Ha].
  rewrite sapp_cons. simpl. rewrite Hc. auto.
Qed.

Lemma TrimLeft_stop cutset c s :
  inCutset c cutset = false -> TrimLeft (String c s) cutset = String c s.
Proof. intros H. simpl. rewrite H. reflexivity. Qed.

End GoStringsFacts.

(** ** The detector *)

Module DetectFacts.
Import GoStrings Detect GoStringsFacts.

(** Induction over project trees, with the hypothesis for every entry of
    a directory. *)
Lemma node_induction (P : node -> Prop) :
  (forall r d, P (File r d)) ->
  (forall l x es, Forall (fun e => P (snd e)) es -> P (Dir l x es)) ->
  forall n, P n.
Proof.
  intros HF HD.
  fix IH 1. intros [r d | l x es].
  - apply HF.
  - apply HD. induction es as [| [nm c] es IHes]; constructor.
    + apply IH.
    + apply IHes.
Qed.

(** *** The walk *)

Section WalkFacts.
Context {St : Type}.
Variable fn :
  walkPath -> option DirEntry -> option error -> St -> option walkErr * St.

(** [walkDir] on a directory, with its loop named. *)
Lemma walkDir_dir reach path l x es s :
  walkDir fn reach path (Dir l x es) s =
  let n := Dir l x es in
  let d := entryOf path n in
  match fn path (Some d) None s with
  | (Some err, s) => (if isSkipDir err && IsDir d then None else Some err, s)
  | (None, s) =>
      let listed := reach && l in
      let '(err, s) :=
        if listed then (None, s) else fn path (Some d) (Some EACCES) s in
      match err with
      | Some err => (if isSkipDir err && IsDir d then None else Some err, s)
      | None =>
          if listed then walkEntries fn (reach && x) n es s else (None, s)
      end
  end.
Proof.
  cbn -[entryOf]. destruct (fn path _ None s) as [[e |] s1]; [reflexivity |].
  destruct (reach && l); [| reflexivity].
  generalize (Dir l x es) as parent. intros parent.
  induction es as [| [nm c] es IH] in s1 |- *; [reflexivity |].
  cbn -[entryOf walkDir].
  destruct (walkDir fn (reach && x) _ c s1) as [[[] |] s2]; try reflexivity.
  apply IH.
Qed.

Lemma walkDir_file reach path r data s :
  walkDir fn reach path (File r data) s =
  let d := entryOf path (File r data) in
  match fn path (Some d) None s with
  | (Some err, s) => (if isSkipDir err && IsDir d then None else Some err, s)
  | (None, s) => (None, s)
  end.
Proof. reflexivity. Qed.

(** A preorder that every call of the walk function respects is
    respected by the whole walk. *)
Section Preserved.
Variable R : St -> St -> Prop.
Context `{!Reflexive R, !Transitive R}.
Hypothesis fn_respects : forall p d e s, R s (snd (fn p d e s)).

Lemma walkDir_respects n :
  forall reach path s, R s (snd (walkDir fn reach path n s)).
Proof.
  induction n as [r data | l x es IH] using node_induction;
    intros reach path s.
  - rewrite walkDir_file. cbv zeta.
    pose proof (fn_respects path (Some (entryOf path (File r data))) None s) as H.
    destruct (fn path _ None s) as [[e |] s1]; exact H.
  - rewrite walkDir_dir. cbv zeta.
    pose proof (fn_respects path (Some (entryOf path (Dir l x es))) None s) as H.
    destruct (fn path _ None s) as [[e |] s1]; [exact H |].
    cbn [snd] in H.
    assert (Hent : forall s2, R s2
              (snd (walkEntries fn (reach && x) (Dir l x es) es s2))).
    { generalize (Dir l x es) as parent.
      induction IH as [| [nm c] rest Hc _ IHrest]; intros parent s2.
      - reflexivity.
      - cbn [walkEntries]. cbn [snd] in Hc.
        specialize (Hc (reach && x) (ChildPath parent nm) s2).
        destruct (walkDir fn (reach && x) _ c s2) as [[[] |] s3];
          cbn [snd] in *; try exact Hc.
        etransitivity; [exact Hc | apply IHrest]. }
    destruct (reach && l).
    + etransitivity; [exact H | apply Hent].
    + pose proof (fn_respects path (Some (entryOf path (Dir l x es)))
                    (Some EACCES) s1) as H'.
      destruct (fn path _ (Some EACCES) s1) as [[e |] s2]; cbn [snd] in *;
        etransitivity; eauto.
Qed.

Lemma WalkDir_respects root s : R s (snd (WalkDir fn root s)).
Proof.
  unfold WalkDir. destruct root as [n |].
  - pose proof (walkDir_respects n true RootPath s) as H.
    destruct (walkDir fn true RootPath n s) as [[[] |] s1]; exact H.
  - pose proof (fn_respects RootPath None (Some ENOENT) s) as H.
    destruct (fn RootPath None (Some ENOENT) s) as [[[] |] s1]; exact H.
Qed.
End Preserved.
End WalkFacts.

(** Two walk functions that stay in step (same answers, related states)
    keep the two walks in step. *)
Section Simulation.
Context {St1 St2 : Type}.
Variable fn1 :
  walkPath -> option DirEntry -> option error -> St1 -> option walkErr * St1.
Variable fn2 :
  walkPath -> option DirEntry -> option error -> St2 -> option walkErr * St2.
Variable Sim : St1 -> St2 -> Prop.

Hypothesis fn_sim : forall p d e s1 s2,
  Sim s1 s2 -> inStep Sim (fn1 p d e s1) (fn2 p d e s2).

Lemma walkDir_sim n :
  forall reach path s1 s2, Sim s1 s2 ->
    inStep Sim (walkDir fn1 reach path n s1) (walkDir fn2 reach path n s2).
Proof.
  induction n as [r data | l x es IH] using node_induction;
    intros reach path s1 s2 H.
  - rewrite !walkDir_file. cbv zeta.
    destruct (fn_sim path (Some (entryOf path (File r data))) None s1 s2 H)
      as [Hf Hs].
    destruct (fn1 path _ None s1) as [[e1 |] t1],
             (fn2 path _ None s2) as [[e2 |] t2];
      cbn [fst snd] in *; try discriminate;
      try (injection Hf as <-); split; cbn [fst snd]; auto.
  - rewrite !walkDir_dir. cbv zeta.
    destruct (fn_sim path (Some (entryOf path (Dir l x es))) None s1 s2 H)
      as [Hf Hs].
    destruct (fn1 path _ None s1) as [[e1 |] t1],
             (fn2 path _ None s2) as [[e2 |] t2];
      cbn [fst snd] in *; try discriminate.
    { injection Hf as <-. split; cbn [fst snd]; auto. }
    assert (Hent : forall u1 u2, Sim u1 u2 ->
              inStep Sim (walkEntries fn1 (reach && x) (Dir l x es) es u1)
                         (walkEntries fn2 (reach && x) (Dir l x es) es u2)).
    { generalize (Dir l x es) as parent.
      induction IH as [| [nm c] rest Hc _ IHrest]; intros parent u1 u2 Hu.
      - split; [reflexivity | exact Hu].
      - cbn [walkEntries]. cbn [snd] in Hc.
        destruct (Hc (reach && x) (ChildPath parent nm) u1 u2 Hu) as [Hf' Hs'].
        destruct (walkDir fn1 (reach && x) _ c u1) as [[e1 |] v1],
                 (walkDir fn2 (reach && x) _ c u2) as [[e2 |] v2];
          cbn [fst snd] in *; try discriminate.
        + injection Hf' as <-. destruct e1; split; cbn [fst snd]; auto.
        + apply IHrest. exact Hs'. }
    destruct (reach && l).
    + apply Hent. exact Hs.
    + destruct (fn_sim path (Some (entryOf path (Dir l x es)))
                  (Some EACCES) t1 t2 Hs) as [Hf' Hs'].
      destruct (fn1 path _ (Some EACCES) t1) as [[e1 |] v1],
               (fn2 path _ (Some EACCES) t2) as [[e2 |] v2];
        cbn [fst snd] in *; try discriminate;
        try (injection Hf' as <-); split; cbn [fst snd]; auto.
Qed.

Lemma WalkDir_sim root s1 s2 :
  Sim s1 s2 ->
  fst (WalkDir fn1 root s1) = fst (WalkDir fn2 root s2)
  /\ Sim (snd (WalkDir fn1 root s1)) (snd (WalkDir fn2 root s2)).
Proof.
  intros H. unfold WalkDir. destruct root as [n |].
  - destruct (walkDir_sim n true RootPath s1 s2 H) as [Hf Hs].
    destruct (walkDir fn1 true RootPath n s1) as [[e1 |] t1],
             (walkDir fn2 true RootPath n s2) as [[e2 |] t2];
      cbn [fst snd] in *; try discriminate.
    + injection Hf as <-. destruct e1; split; cbn [fst snd]; auto.
    + split; auto.
  - destruct (fn_sim RootPath None (Some ENOENT) s1 s2 H) as [Hf Hs].
    destruct (fn1 RootPath None (Some ENOENT) s1) as [[e1 |] t1],
             (fn2 RootPath None (Some ENOENT) s2) as [[e2 |] t2];
      cbn [fst snd] in *; try discriminate.
    + injection Hf as <-. destruct e1; split; cbn [fst snd]; auto.
    + split; auto.
Qed.
End Simulation.

Global Instance keeps_refl : Reflexive keeps.
Proof. intros s f _. reflexivity. Qed.

Global Instance keeps_trans : Transitive keeps.
Proof.
  intros a b c Hab Hbc f Hf.
  rewrite <- (Hab f Hf). apply Hbc. rewrite (Hab f Hf). exact Hf.
Qed.

(** A setter applied to an empty field keeps every set field. *)
Ltac keeps_field :=
  let f := fresh "f" in let Hf := fresh "Hf" in
  intros f Hf; destruct f; simpl in *; try reflexivity;
  exfalso; apply Hf; apply isEmpty_true; assumption.

Lemma keeps_setPHP v s : isEmpty (PHP s) = true -> keeps s (setPHP v s).
Proof. intros H. keeps_field. Qed.
Lemma keeps_setLaravel v s : isEmpty (Laravel s) = true -> keeps s (setLaravel v s).
Proof. intros H. keeps_field. Qed.
Lemma keeps_setNuxt v s : isEmpty (Nuxt s) = true -> keeps s (setNuxt v s).
Proof. intros H. keeps_field. Qed.
Lemma keeps_setVue v s : isEmpty (Vue s) = true -> keeps s (setVue v s).
Proof. intros H. keeps_field. Qed.
Lemma keeps_setNuxtUI v s : isEmpty (NuxtUI s) = true -> keeps s (setNuxtUI v s).
Proof. intros H. keeps_field. Qed.

Lemma detectFromComposer_keeps dir s :
  keeps s (snd (detectFromComposer dir s)).
Proof.
  unfold detectFromComposer.
  destruct (ReadFile dir "composer.json") as [data | err].
  2: { destruct (IsNotExist err); reflexivity. }
  destruct (asComposerJSON data) as [c |]; [| reflexivity].
  cbn [snd].
  set (s1 := match cConfigPlatform c with Some _ => _ | None => _ end).
  set (s2 := if isEmpty (PHP s1) then _ else _).
  assert (H1 : keeps s s1).
  { subst s1. destruct (cConfigPlatform c) as [pl |]; [| reflexivity].
    destruct (isEmpty (PHP s)) eqn:E; [| reflexivity].
    destruct (pl !! "php"); [apply keeps_setPHP; exact E | reflexivity]. }
  assert (H2 : keeps s1 s2).
  { subst s2. destruct (isEmpty (PHP s1)) eqn:E; [| reflexivity].
    destruct (cRequire c !! "php"); [apply keeps_setPHP; exact E | reflexivity]. }
  etransitivity; [exact H1 |]. etransitivity; [exact H2 |].
  destruct (isEmpty (Laravel s2)) eqn:E; [| reflexivity].
  destruct (cRequire c !! "laravel/framework");
    [apply keeps_setLaravel; exact E | reflexivity].
Qed.

Lemma detectFromPackageJson_keeps dir s :
  keeps s (snd (detectFromPackageJson dir s)).
Proof.
  unfold detectFromPackageJson.
  destruct (ReadFile dir "package.json") as [data | err].
  2: { destruct (IsNotExist err); reflexivity. }
  destruct (asPackageJSON data) as [p |]; [| reflexivity].
  cbn [snd].
  set (s1 := match getDep p "nuxt" with Some _ => _ | None => _ end).
  set (s2 := match getDep p "vue" with Some _ => _ | None => _ end).
  assert (H1 : keeps s s1).
  { subst s1. destruct (getDep p "nuxt"); [| reflexivity].
    destruct (isEmpty (Nuxt s)) eqn:E; [apply keeps_setNuxt; exact E | reflexivity]. }
  assert (H2 : keeps s1 s2).
  { subst s2. destruct (getDep p "vue"); [| reflexivity].
    destruct (isEmpty (Vue s1)) eqn:E; [apply keeps_setVue; exact E | reflexivity]. }
  etransitivity; [exact H1 |]. etransitivity; [exact H2 |].
  destruct (getDep p "@nuxt/ui"); [| reflexivity].
  destruct (isEmpty (NuxtUI s2)) eqn:E; [apply keeps_setNuxtUI; exact E | reflexivity].
Qed.

(** What [detectFromPackageLockJson] may do to the stack: nothing, or
    fill the empty NuxtUI field with a non-empty version. *)
Lemma detectFromPackageLockJson_cases dir s :
  snd (detectFromPackageLockJson dir s) = s
  \/ (NuxtUI s = "" /\ exists v, v <> "" /\
      snd (detectFromPackageLockJson dir s) = setNuxtUI v s).
Proof.
  unfold detectFromPackageLockJson.
  destruct (ReadFile dir "package-lock.json") as [data | err].
  2: { destruct (IsNotExist err); left; reflexivity. }
  destruct (asLockFile data) as [lock |]; [| left; reflexivity].
  destruct (isEmpty (NuxtUI s)) eqn:E; [| left; reflexivity].
  apply isEmpty_true in E.
  assert (Hp : forall o v, pinned o = Some v -> v <> "").
  { intros [w |] v; simpl; [| discriminate].
    destruct (isEmpty w) eqn:Ew; [discriminate |].
    intros [= <-]. apply isEmpty_false. exact Ew. }
  destruct (pinned (ldVersion <$> lDependencies lock !! "@nuxt/ui")) as [v |] eqn:E1.
  { right. split; [exact E |]. exists v. split; [eapply Hp; exact E1 | reflexivity]. }
  destruct (pinned (lpVersion <$> lPackages lock !! "node_modules/@nuxt/ui"))
    as [v |] eqn:E2.
  { right. split; [exact E |]. exists v. split; [eapply Hp; exact E2 | reflexivity]. }
  left. reflexivity.
Qed.

Lemma detectFromPackageLockJson_keeps dir s :
  keeps s (snd (detectFromPackageLockJson dir s)).
Proof.
  destruct (detectFromPackageLockJson_cases dir s) as [-> | [E [v [_ ->]]]].
  - reflexivity.
  - apply keeps_setNuxtUI. apply isEmpty_true. exact E.
Qed.

Lemma detectFromComposerLock_spec_keeps dir s :
  keeps s (snd (detectFromComposerLock_spec dir s)).
Proof.
  unfold detectFromComposerLock_spec.
  destruct (ReadFile dir "composer.lock") as [data | err].
  2: { destruct (IsNotExist err); reflexivity. }
  destruct (asComposerLock data) as [lock |]; [| reflexivity].
  destruct (isEmpty (Laravel s)) eqn:E; [| reflexivity].
  destruct (pinned _); [apply keeps_setLaravel; exact E | reflexivity].
Qed.

Lemma inOrder_snoc h s :
  inOrder h -> keeps (current h) s -> inOrder (h ++ [s]).
Proof.
  intros Hh Hs i j a b Hij Ha Hb.
  destruct (decide (j < length h)) as [Hj | Hj].
  - rewrite lookup_app_l in Ha by lia. rewrite lookup_app_l in Hb by lia.
    exact (Hh i j a b Hij Ha Hb).
  - assert (j = length h) as ->.
    { apply lookup_lt_Some in Hb. rewrite length_app in Hb. simpl in Hb. lia. }
    rewrite lookup_app_r, Nat.sub_diag in Hb by lia. injection Hb as <-.
    destruct (decide (i = length h)) as [-> | Hi].
    + rewrite lookup_app_r, Nat.sub_diag in Ha by lia. injection Ha as <-.
      reflexivity.
    + rewrite lookup_app_l in Ha by lia.
      etransitivity; [| exact Hs].
      unfold current. destruct (last h) as [z |] eqn:El.
      * simpl. rewrite last_lookup in El.
        apply (Hh i (pred (length h)) a z); [| exact Ha | exact El].
        apply lookup_lt_Some in Ha. lia.
      * apply last_None in El. subst h. simpl in Ha. discriminate.
Qed.

Section FirstWriterWins.
Variable lockReader : reader.
Hypothesis lock_keeps : forall dir s, keeps s (snd (lockReader dir s)).

Lemma walkFn_keeps p d e s : keeps s (snd (walkFn lockReader p d e s)).
Proof.
  unfold walkFn. destruct e; [reflexivity |].
  destruct p as [| dir nm]; [reflexivity |].
  destruct d as [d |]; [| reflexivity].
  destruct (IsDir d).
  - destruct (HasPrefix _ _); [reflexivity |].
    destruct (default false _); reflexivity.
  - repeat (match goal with
            | |- context [if String.eqb ?a ?b then _ else _] =>
                destruct (String.eqb a b)
            end); cbn [snd];
      auto using detectFromComposer_keeps, detectFromPackageJson_keeps,
                 detectFromPackageLockJson_keeps.
    reflexivity.
Qed.

Lemma WalkDir_keeps root s : keeps s (snd (WalkDir (walkFn lockReader) root s)).
Proof. apply WalkDir_respects; [apply _ | apply _ | apply walkFn_keeps]. Qed.

(** The history only grows in order. *)
Lemma tracedFn_inOrder p d e h :
  inOrder h -> inOrder (snd (tracedFn lockReader p d e h)).
Proof.
  intros Hh. unfold tracedFn.
  pose proof (walkFn_keeps p d e (current h)) as Hk.
  destruct (walkFn lockReader p d e (current h)) as [r s]. cbn [snd] in *.
  apply inOrder_snoc; assumption.
Qed.

Lemma WalkDir_inOrder root h :
  inOrder h -> inOrder (snd (WalkDir (tracedFn lockReader) root h)).
Proof.
  refine (@WalkDir_respects _ (tracedFn lockReader)
            (fun h h' => inOrder h -> inOrder h') _ _ _ root h).
  - intros x Hx. exact Hx.
  - intros x y z Hxy Hyz Hx. auto.
  - intros p d e h'. apply tracedFn_inOrder.
Qed.

(** The instrumented walk and the walk of [DetectStack] stay in step. *)
Lemma WalkDir_traced root s h :
  last h = Some s ->
  fst (WalkDir (walkFn lockReader) root s)
    = fst (WalkDir (tracedFn lockReader) root h)
  /\ last (snd (WalkDir (tracedFn lockReader) root h))
     = Some (snd (WalkDir (walkFn lockReader) root s)).
Proof.
  intros H.
  apply (WalkDir_sim (walkFn lockReader) (tracedFn lockReader)
           (fun s h => last h = Some s)); [| exact H].
  intros p d e s1 h1 H1. unfold inStep, tracedFn, current. rewrite H1. simpl.
  destruct (walkFn lockReader p d e s1) as [r s2]. cbn [fst snd].
  split; [reflexivity | apply last_snoc].
Qed.

Lemma DetectStackTrace_inOrder root : inOrder (DetectStackTrace lockReader root).
Proof.
  unfold DetectStackTrace.
  assert (H0 : inOrder [emptyStack]).
  { intros [| i] [| j] a b Hij Ha Hb; simpl in *; try discriminate; try lia.
    injection Ha as <-. injection Hb as <-. reflexivity. }
  pose proof (detectFromComposer_keeps root emptyStack) as K1.
  destruct (detectFromComposer root emptyStack) as [e1 s1]. cbn [snd] in K1.
  assert (H1 : inOrder [emptyStack; s1]) by (apply (inOrder_snoc [_]); auto).
  destruct e1; [exact H1 |].
  pose proof (detectFromPackageJson_keeps root s1) as K2.
  destruct (detectFromPackageJson root s1) as [e2 s2]. cbn [snd] in K2.
  assert (H2 : inOrder [emptyStack; s1; s2]) by (apply (inOrder_snoc [_; _]); auto).
  destruct e2; [exact H2 |].
  pose proof (detectFromPackageLockJson_keeps root s2) as K3.
  destruct (detectFromPackageLockJson root s2) as [e3 s3]. cbn [snd] in K3.
  assert (H3 : inOrder [emptyStack; s1; s2; s3])
    by (apply (inOrder_snoc [_; _; _]); auto).
  destruct e3; [exact H3 |].
  apply WalkDir_inOrder. exact H3.
Qed.

Lemma DetectStackTrace_last root st :
  DetectStack lockReader root = Ok st ->
  last (DetectStackTrace lockReader root) = Some st.
Proof.
  unfold DetectStack, DetectStackTrace.
  destruct (detectFromComposer root emptyStack) as [[e1 |] s1]; [discriminate |].
  destruct (detectFromPackageJson root s1) as [[e2 |] s2]; [discriminate |].
  destruct (detectFromPackageLockJson root s2) as [[e3 |] s3]; [discriminate |].
  destruct (WalkDir_traced root s3 [emptyStack; s1; s2; s3] eq_refl) as [_ Hl].
  destruct (WalkDir (walkFn lockReader) root s3) as [[e |] s4]; [discriminate |].
  intros [= <-]. exact Hl.
Qed.

Lemma DetectStack_root_wins root st :
  DetectStack lockReader root = Ok st ->
  keeps (snd (rootReaders root emptyStack)) st.
Proof.
  unfold DetectStack, rootReaders.
  destruct (detectFromComposer root emptyStack) as [[e1 |] s1]; [discriminate |].
  destruct (detectFromPackageJson root s1) as [[e2 |] s2]; [discriminate |].
  destruct (detectFromPackageLockJson root s2) as [[e3 |] s3]; [discriminate |].
  pose proof (WalkDir_keeps root s3) as K.
  destruct (WalkDir (walkFn lockReader) root s3) as [[e |] s4]; [discriminate |].
  intros [= <-]. exact K.
Qed.
End FirstWriterWins.

(** C1. First-writer-wins: provided the reader of [composer.lock] does
    not overwrite a field that is set (the contract the specification
    gives for lock-file readers), in one run of [DetectStack] on any
    project tree a field of the stack, once set to a non-empty version,
    has that same value in every later stack of the run, whichever reader
    runs later; the stack returned is the last of the run; and whatever
    the root-level readers set is what the result holds, since the root
    is read before the walk. *)
Theorem first_writer_wins (lockReader : reader)
    (lock_keeps : forall dir s, keeps s (snd (lockReader dir s)))
    (projectRoot : option node) :
  let run := DetectStackTrace lockReader projectRoot in
  (forall i j a b f, i <= j -> run !! i = Some a -> run !! j = Some b ->
     get f a <> "" -> get f b = get f a)
  /\ (forall st, DetectStack lockReader projectRoot = Ok st ->
        last run = Some st
        /\ forall f, get f (snd (rootReaders projectRoot emptyStack)) <> "" ->
             get f st = get f (snd (rootReaders projectRoot emptyStack))).
Proof.
  cbv zeta. split.
  - intros i j a b f Hij Ha Hb.
    exact (DetectStackTrace_inOrder lockReader lock_keeps projectRoot
             i j a b Hij Ha Hb f).
  - intros st Hst. split.
    + apply DetectStackTrace_last. exact Hst.
    + exact (DetectStack_root_wins lockReader lock_keeps projectRoot st Hst).
Qed.

(** The scenario of the specification: the root manifest declares PHP
    "8.2", the manifest of a subdirectory declares "8.3", and the stack
    retains "8.2". *)
Lemma first_writer_wins_witness :
  DetectStack detectFromComposerLock_spec (Some rootAndNested)
    = Ok (mkStack "8.2" "" "" "" "")
  /\ (forall i j a b f, i <= j ->
        DetectStackTrace detectFromComposerLock_spec (Some rootAndNested) !! i = Some a ->
        DetectStackTrace detectFromComposerLock_spec (Some rootAndNested) !! j = Some b ->
        get f a <> "" -> get f b = get f a).
Proof.
  split.
  - vm_compute. reflexivity.
  - exact (proj1 (first_writer_wins detectFromComposerLock_spec
                    detectFromComposerLock_spec_keeps (Some rootAndNested))).
Defined.

(** *** Errors of the walk *)

(** Whether a reader returns an error, and which, is decided by its
    manifest alone. *)
Lemma detectFromComposer_fault dir s :
  fst (detectFromComposer dir s) = manifestFault dir "composer.json" asComposerJSON.
Proof.
  unfold detectFromComposer, manifestFault.
  destruct (ReadFile dir "composer.json") as [data | err];
    [| destruct (IsNotExist err); reflexivity].
  destruct (asComposerJSON data); reflexivity.
Qed.

Lemma detectFromPackageJson_fault dir s :
  fst (detectFromPackageJson dir s) = manifestFault dir "package.json" asPackageJSON.
Proof.
  unfold detectFromPackageJson, manifestFault.
  destruct (ReadFile dir "package.json") as [data | err];
    [| destruct (IsNotExist err); reflexivity].
  destruct (asPackageJSON data); reflexivity.
Qed.

Lemma detectFromPackageLockJson_fault dir s :
  fst (detectFromPackageLockJson dir s)
  = manifestFault dir "package-lock.json" asLockFile.
Proof.
  unfold detectFromPackageLockJson, manifestFault.
  destruct (ReadFile dir "package-lock.json") as [data | err];
    [| destruct (IsNotExist err); reflexivity].
  destruct (asLockFile data) as [lock |]; [| reflexivity].
  destruct (isEmpty (NuxtUI s)); [| reflexivity].
  destruct (pinned _); [reflexivity |]. destruct (pinned _); reflexivity.
Qed.

Lemma rootReaders_fault root s : fst (rootReaders root s) = rootFault root.
Proof.
  unfold rootReaders, rootFault.
  rewrite <- (detectFromComposer_fault root s).
  destruct (detectFromComposer root s) as [[e1 |] s1]; [reflexivity |].
  cbn [fst]. rewrite <- (detectFromPackageJson_fault root s1).
  destruct (detectFromPackageJson root s1) as [[e2 |] s2]; [reflexivity |].
  cbn [fst]. apply detectFromPackageLockJson_fault.
Qed.

Section ErrorPolicy.
Variable lockReader : reader.

(** The walk function answers [nil], or [SkipDir] for a directory. *)
Lemma walkFn_answer p d e s :
  fst (walkFn lockReader p d e s) = None
  \/ (fst (walkFn lockReader p d e s) = Some SkipDir
      /\ e = None /\ exists d', d = Some d' /\ IsDir d' = true
      /\ snd (walkFn lockReader p d e s) = s).
Proof.
  unfold walkFn. destruct e; [left; reflexivity |].
  destruct p as [| dir nm]; [left; reflexivity |].
  destruct d as [d |]; [| left; reflexivity].
  destruct (IsDir d) eqn:Ed.
  - destruct (HasPrefix _ _); [right; eauto 10 |].
    destruct (default false _); [right; eauto 10 | left; reflexivity].
  - repeat (match goal with
            | |- context [if String.eqb ?a ?b then _ else _] =>
                destruct (String.eqb a b)
            end); left; reflexivity.
Qed.

Lemma walkFn_on_error p d e s :
  walkFn lockReader p d (Some e) s = (None, s).
Proof. reflexivity. Qed.

Lemma walkDir_no_error n :
  forall reach p s, fst (walkDir (walkFn lockReader) reach p n s) = None.
Proof.
  induction n as [r data | l x es IH] using node_induction; intros reach p s.
  - rewrite walkDir_file. cbv zeta.
    destruct (walkFn_answer p (Some (entryOf p (File r data))) None s)
      as [H | (H & _ & d' & Hd & Hdir & _)].
    + destruct (walkFn lockReader p _ None s) as [[e |] s1];
        [discriminate | reflexivity].
    + injection Hd as <-. destruct p; discriminate.
  - rewrite walkDir_dir. cbv zeta.
    destruct (walkFn_answer p (Some (entryOf p (Dir l x es))) None s)
      as [H | (H & _ & d' & Hd & Hdir & _)].
    + destruct (walkFn lockReader p _ None s) as [[e |] s1]; [discriminate |].
      destruct (reach && l); [| rewrite walkFn_on_error; reflexivity].
      generalize (Dir l x es) as parent. clear H.
      induction IH as [| [nm c] rest Hc _ IHrest] in s1 |- *; intros parent.
      * reflexivity.
      * cbn [walkEntries]. cbn [snd] in Hc.
        specialize (Hc (reach && x) (ChildPath parent nm) s1).
        destruct (walkDir (walkFn lockReader) (reach && x) _ c s1)
          as [[e |] s2]; [discriminate |].
        apply IHrest.
    + destruct (walkFn lockReader p _ None s) as [[e |] s1]; [| discriminate].
      cbn [fst] in H. injection H as ->.
      destruct p; reflexivity.
Qed.

Lemma WalkDir_no_error root s : fst (WalkDir (walkFn lockReader) root s) = None.
Proof.
  unfold WalkDir. destruct root as [n |].
  - pose proof (walkDir_no_error n true RootPath s) as H.
    destruct (walkDir _ true RootPath n s) as [[e |] s1];
      [discriminate | reflexivity].
  - reflexivity.
Qed.

(** [DetectStack] is the root-level readers followed by a walk that
    cannot fail. *)
Lemma DetectStack_by_root_readers root :
  DetectStack lockReader root =
  match rootReaders root emptyStack with
  | (Some e, _) => Err e
  | (None, s) => Ok (snd (WalkDir (walkFn lockReader) root s))
  end.
Proof.
  unfold DetectStack, rootReaders.
  destruct (detectFromComposer root emptyStack) as [[e1 |] s1]; [reflexivity |].
  destruct (detectFromPackageJson root s1) as [[e2 |] s2]; [reflexivity |].
  destruct (detectFromPackageLockJson root s2) as [[e3 |] s3]; [reflexivity |].
  pose proof (WalkDir_no_error root s3) as H.
  destruct (WalkDir (walkFn lockReader) root s3) as [[e |] s4];
    [discriminate | reflexivity].
Qed.

(** A directory below the root that cannot be listed is passed over:
    no error, and the stack is as before. *)
Lemma walkDir_unlistable reach parent name canList x es s :
  reach && canList = false ->
  walkDir (walkFn lockReader) reach (ChildPath parent name) (Dir canList x es) s
  = (None, s).
Proof.
  intros H. rewrite walkDir_dir. cbv zeta. rewrite H.
  cbn [entryOf isDir walkFn IsDir Name].
  destruct (HasPrefix name "."); [reflexivity |].
  destruct (default false _); reflexivity.
Qed.
End ErrorPolicy.

(** C7, counterexample. The specification says that [DetectStack] returns an
    error when the root cannot be listed, be it for a missing permission
    or because the root does not exist.  A root that does not exist,
    and a root that exists but may not be listed, both give the empty
    stack and no error. *)
Lemma unlistable_root_is_no_error :
  rootNotListable None = true
  /\ DetectStack detectFromComposerLock_spec None = Ok emptyStack
  /\ rootNotListable (Some (Dir false true [])) = true
  /\ DetectStack detectFromComposerLock_spec (Some (Dir false true []))
     = Ok emptyStack.
Proof. repeat split. Qed.

(** C7, amended. [DetectStack] returns an error exactly when one of the
    three root-level readers does, with that error, and that is exactly
    when a root manifest exists but cannot be read or decoded: the error
    is that of the first of [composer.json], [package.json] and
    [package-lock.json] at the root for which [os.ReadFile] fails with
    an error other than not-exist or whose content does not decode.  This
    includes a root that may not be searched and a root that is not a
    directory.  The walk itself never fails: a root that does not exist,
    or that can be searched but not listed, gives the stack of the
    root-level readers and no error, and a subdirectory that cannot be
    listed is passed over with the stack unchanged, the scan going on to
    a normal result. *)
Theorem detect_error_policy (lockReader : reader) (projectRoot : option node) :
  (forall e, DetectStack lockReader projectRoot = Err e
             <-> fst (rootReaders projectRoot emptyStack) = Some e)
  /\ (forall e, DetectStack lockReader projectRoot = Err e
                <-> rootFault projectRoot = Some e)
  /\ (forall es, DetectStack lockReader
                   (Some (Dir true true (("composer.json", File true malformed) :: es)))
                 = Err EUnmarshal)
  /\ (forall s, fst (WalkDir (walkFn lockReader) projectRoot s) = None)
  /\ DetectStack lockReader None = Ok emptyStack
  /\ (forall x es,
        DetectStack lockReader (Some (Dir false x es)) =
        match rootReaders (Some (Dir false x es)) emptyStack with
        | (Some e, _) => Err e
        | (None, s) => Ok s
        end)
  /\ (forall l es, DetectStack lockReader (Some (Dir l false es)) = Err EACCES)
  /\ (forall r data, DetectStack lockReader (Some (File r data)) = Err ENOTDIR)
  /\ (forall reach parent name x es s,
        walkDir (walkFn lockReader) reach (ChildPath parent name)
                (Dir false x es) s = (None, s)).
Proof.
  assert (Hroot : forall e, DetectStack lockReader projectRoot = Err e
                            <-> fst (rootReaders projectRoot emptyStack) = Some e).
  { intros e. rewrite DetectStack_by_root_readers.
    destruct (rootReaders projectRoot emptyStack) as [[e' |] s]; cbn [fst];
      split; congruence. }
  split; [exact Hroot |].
  split; [intros e; rewrite <- (rootReaders_fault projectRoot emptyStack);
          apply Hroot |].
  split; [reflexivity |].
  split; [| split; [| split; [| split; [| split]]]].
  - apply WalkDir_no_error.
  - reflexivity.
  - intros x es. rewrite DetectStack_by_root_readers.
    destruct (rootReaders _ emptyStack) as [[e' |] s]; reflexivity.
  - reflexivity.
  - reflexivity.
  - intros. apply walkDir_unlistable. apply andb_false_r.
Qed.

(** *** Excluded directories *)

Lemma ignoredDirs_lookup name :
  default false (ignoredDirs !! name)
  = String.eqb name "node_modules" || String.eqb name "composer"
    || String.eqb name "vendor".
Proof.
  unfold ignoredDirs.
  destruct (String.eqb_spec name "node_modules") as [-> | H1]; [reflexivity |].
  rewrite lookup_insert_ne by congruence.
  destruct (String.eqb_spec name "composer") as [-> | H2]; [reflexivity |].
  rewrite lookup_insert_ne by congruence.
  destruct (String.eqb_spec name "vendor") as [-> | H3]; [reflexivity |].
  rewrite lookup_insert_ne by congruence. reflexivity.
Qed.

Lemma sameOutsideExcluded_dir l x es l' x' es' :
  sameOutsideExcluded (Dir l x es) (Dir l' x' es')
  <-> l = l' /\ x = x' /\ sameEntries es es'.
Proof.
  cbn [sameOutsideExcluded].
  enough (H : forall es es',
             (fix entries (es es' : list (string * node)) {struct es} : Prop :=
                match es, es' with
                | [], [] => True
                | (n, c) :: t, (n', c') :: t' =>
                    n = n'
                    /\ (if excludedName n && isDir c && isDir c' then True
                        else sameOutsideExcluded c c')
                    /\ entries t t'
                | _, _ => False
                end) es es' <-> sameEntries es es') by (rewrite H; reflexivity).
  clear. induction es as [| [n c] t IH]; intros [| [n' c'] t']; cbn; try tauto.
  all: specialize (IH t'); tauto.
Qed.

Lemma sameOutsideExcluded_isDir a b :
  sameOutsideExcluded a b -> isDir a = isDir b.
Proof. destruct a, b; simpl; tauto. Qed.

(** Trees that agree outside excluded directories answer every
    [ReadFile] in the same way. *)
Lemma sameEntries_lookup name es es' :
  sameEntries es es' ->
  match lookupEntry name es, lookupEntry name es' with
  | None, None => True
  | Some c, Some c' => (isDir c = true /\ isDir c' = true) \/ c = c'
  | _, _ => False
  end.
Proof.
  revert es'. induction es as [| [n c] t IH]; intros [| [n' c'] t']; cbn;
    try tauto.
  intros (<- & Hc & Ht). destruct (String.eqb n name).
  - destruct (excludedName n && isDir c && isDir c') eqn:E.
    + left. apply andb_prop in E as [E E3]. apply andb_prop in E as [_ E2]. auto.
    + destruct c, c'; simpl in Hc; try tauto.
      right. destruct Hc as [-> ->]. reflexivity.
  - apply IH. exact Ht.
Qed.

Lemma ReadFile_same a b name :
  sameOutsideExcluded a b -> ReadFile (Some a) name = ReadFile (Some b) name.
Proof.
  destruct a as [r d | l x es], b as [r' d' | l' x' es'];
    [reflexivity | simpl; tauto | simpl; tauto |].
  intros H. apply sameOutsideExcluded_dir in H as (<- & <- & H).
  unfold ReadFile. destruct (negb x); [reflexivity |].
  pose proof (sameEntries_lookup name es es' H) as L.
  destruct (lookupEntry name es) as [c |], (lookupEntry name es') as [c' |];
    try tauto.
  destruct L as [[Hc Hc'] | ->]; [| reflexivity].
  destruct c, c'; simpl in *; try discriminate. reflexivity.
Qed.

Section Exclusion.
Variable lockReader : reader.
(** The reader of [composer.lock] looks at nothing but the
    [composer.lock] of the directory it is given. *)
Hypothesis lock_local : forall d1 d2 s,
  ReadFile d1 "composer.lock" = ReadFile d2 "composer.lock" ->
  lockReader d1 s = lockReader d2 s.

Lemma walkFn_excluded dir name s :
  excludedName name = true ->
  walkFn lockReader (ChildPath dir name) (Some (mkEntry name true)) None s
  = (Some SkipDir, s).
Proof.
  unfold excludedName, walkFn, HasPrefix. cbn [IsDir Name].
  rewrite ignoredDirs_lookup. intros H.
  destruct (String.prefix "." name); [reflexivity |].
  cbn [orb] in H. rewrite <- !orb_assoc in H |- *. rewrite H. reflexivity.
Qed.

(** An excluded directory is skipped without descending. *)
Lemma walkDir_excluded reach parent name l x es s :
  excludedName name = true ->
  walkDir (walkFn lockReader) reach (ChildPath parent name) (Dir l x es) s
  = (None, s).
Proof.
  intros H. rewrite walkDir_dir. cbv zeta. cbn [entryOf isDir].
  rewrite (walkFn_excluded _ _ _ H). reflexivity.
Qed.

Lemma readers_same d1 d2 (H : forall name, ReadFile d1 name = ReadFile d2 name) s :
  detectFromComposer d1 s = detectFromComposer d2 s
  /\ detectFromPackageJson d1 s = detectFromPackageJson d2 s
  /\ detectFromPackageLockJson d1 s = detectFromPackageLockJson d2 s
  /\ lockReader d1 s = lockReader d2 s.
Proof.
  unfold detectFromComposer, detectFromPackageJson, detectFromPackageLockJson.
  rewrite !H. repeat split. apply lock_local. apply H.
Qed.

Lemma walkFn_same da db name d e s :
  sameOutsideExcluded da db ->
  walkFn lockReader (ChildPath da name) d e s
  = walkFn lockReader (ChildPath db name) d e s.
Proof.
  intros H. unfold walkFn.
  destruct (readers_same (Some da) (Some db)
              (fun nm => ReadFile_same da db nm H) s) as (-> & -> & -> & ->).
  reflexivity.
Qed.

Lemma walkFn_samePlace p q d e s :
  samePlace p q -> walkFn lockReader p d e s = walkFn lockReader q d e s.
Proof.
  destruct p as [| da n], q as [| db n']; simpl; try tauto.
  intros [<- H]. apply walkFn_same. exact H.
Qed.

Lemma entryOf_samePlace p q a b :
  samePlace p q -> sameOutsideExcluded a b -> entryOf p a = entryOf q b.
Proof.
  intros Hp Hab. apply sameOutsideExcluded_isDir in Hab.
  destruct p, q; simpl in *; try tauto; [| destruct Hp as [<- _]];
    rewrite Hab; reflexivity.
Qed.

Lemma walkDir_same a :
  forall b reach p q s,
    sameOutsideExcluded a b -> samePlace p q ->
    walkDir (walkFn lockReader) reach p a s
    = walkDir (walkFn lockReader) reach q b s.
Proof.
  induction a as [r data | l x es IH] using node_induction;
    intros b reach p q s Hab Hpq.
  - destruct b as [r' data' |]; [| simpl in Hab; tauto].
    destruct Hab as [<- <-]. rewrite !walkDir_file. cbv zeta.
    rewrite (entryOf_samePlace p q (File r data) (File r data) Hpq)
      by (split; reflexivity).
    rewrite (walkFn_samePlace p q _ _ _ Hpq). reflexivity.
  - destruct b as [| l' x' es']; [simpl in Hab; tauto |].
    pose proof Hab as Hab'.
    apply sameOutsideExcluded_dir in Hab' as (<- & <- & Hes).
    rewrite !walkDir_dir. cbv zeta.
    rewrite (entryOf_samePlace p q _ _ Hpq Hab).
    rewrite (walkFn_samePlace p q _ None _ Hpq).
    destruct (walkFn lockReader q _ None s) as [[e |] s1]; [reflexivity |].
    rewrite (walkFn_samePlace p q _ (Some EACCES) _ Hpq).
    destruct (reach && l); [| reflexivity].
    cbn iota.
    generalize dependent s1. clear Hpq.
    revert Hab. generalize (Dir l x es') as pb. generalize (Dir l x es) as pa.
    revert es' Hes.
    induction IH as [| [nm c] rest Hc _ IHrest];
      intros [| [nm' c'] rest'] Hes pa pb Hab s1; simpl in Hes; try tauto.
    destruct Hes as (<- & Hcc & Hrest).
    cbn [walkEntries]. cbn [snd] in Hc.
    assert (Hstep : walkDir (walkFn lockReader) (reach && x) (ChildPath pa nm) c s1
                    = walkDir (walkFn lockReader) (reach && x) (ChildPath pb nm) c' s1).
    { destruct (excludedName nm && isDir c && isDir c') eqn:E.
      - apply andb_prop in E as [E E3]. apply andb_prop in E as [E1 E2].
        destruct c as [| cl cx ces]; [discriminate |].
        destruct c' as [| cl' cx' ces']; [discriminate |].
        rewrite !walkDir_excluded by exact E1. reflexivity.
      - apply Hc; [exact Hcc | split; [reflexivity | exact Hab]]. }
    rewrite Hstep.
    destruct (walkDir (walkFn lockReader) (reach && x) (ChildPath pb nm) c' s1)
      as [[[] |] s2]; try reflexivity.
    apply IHrest; assumption.
Qed.

Lemma DetectStack_same a b :
  sameOutsideExcluded a b ->
  DetectStack lockReader (Some a) = DetectStack lockReader (Some b).
Proof.
  intros H. unfold DetectStack.
  destruct (readers_same (Some a) (Some b)
              (fun nm => ReadFile_same a b nm H) emptyStack) as (-> & _).
  destruct (detectFromComposer (Some b) emptyStack) as [[e1 |] s1]; [reflexivity |].
  destruct (readers_same (Some a) (Some b)
              (fun nm => ReadFile_same a b nm H) s1) as (_ & -> & _).
  destruct (detectFromPackageJson (Some b) s1) as [[e2 |] s2]; [reflexivity |].
  destruct (readers_same (Some a) (Some b)
              (fun nm => ReadFile_same a b nm H) s2) as (_ & _ & -> & _).
  destruct (detectFromPackageLockJson (Some b) s2) as [[e3 |] s3]; [reflexivity |].
  unfold WalkDir.
  rewrite (walkDir_same a b true RootPath RootPath s3 H I). reflexivity.
Qed.
End Exclusion.

Lemma detectFromComposerLock_spec_local d1 d2 s :
  ReadFile d1 "composer.lock" = ReadFile d2 "composer.lock" ->
  detectFromComposerLock_spec d1 s = detectFromComposerLock_spec d2 s.
Proof. intros H. unfold detectFromComposerLock_spec. rewrite H. reflexivity. Qed.

(** C8. Directory exclusion: provided the reader of [composer.lock]
    looks only at the [composer.lock] of the directory it is given, the
    walk passes over a directory below the root whose name starts with a
    dot or is [node_modules], [composer] or [vendor] without descending
    and with the stack unchanged, whatever the directory holds; and two
    project trees that differ only inside such directories give the same
    result of [DetectStack], so that no manifest inside them contributes
    to the detected stack. *)
Theorem excluded_directories_not_consulted (lockReader : reader)
    (lock_local : forall d1 d2 s,
       ReadFile d1 "composer.lock" = ReadFile d2 "composer.lock" ->
       lockReader d1 s = lockReader d2 s)
    (a b : node) (same : sameOutsideExcluded a b) :
  DetectStack lockReader (Some a) = DetectStack lockReader (Some b)
  /\ (forall name reach parent l x es s,
        excludedName name = true ->
        walkDir (walkFn lockReader) reach (ChildPath parent name) (Dir l x es) s
        = (None, s)).
Proof.
  split.
  - apply DetectStack_same; assumption.
  - intros. apply walkDir_excluded. assumption.
Qed.

(** The manifest under [vendor/] changes nothing: with it and without
    it the detector reports PHP 8.2 alone. *)
Lemma excluded_directories_witness :
  sameOutsideExcluded withVendor withoutVendor
  /\ DetectStack detectFromComposerLock_spec (Some withVendor)
     = DetectStack detectFromComposerLock_spec (Some withoutVendor)
  /\ DetectStack detectFromComposerLock_spec (Some withVendor)
     = Ok (mkStack "8.2" "" "" "" "").
Proof.
  assert (H : sameOutsideExcluded withVendor withoutVendor).
  { simpl. repeat split. }
  split; [exact H |]. split.
  - exact (proj1 (excluded_directories_not_consulted detectFromComposerLock_spec
                    detectFromComposerLock_spec_local withVendor withoutVendor H)).
  - vm_compute. reflexivity.
Defined.

(** C10. Frame property of the lock-file reader: whatever the
    [package-lock.json] of the directory holds (absent, unreadable,
    malformed or decoded), [detectFromPackageLockJson] leaves the PHP,
    Laravel, Nuxt and Vue fields as they were; it changes the NuxtUI
    field only when that field was empty on entry, and a non-empty NuxtUI
    value is never overwritten. *)
Theorem detectFromPackageLockJson_frame (dir : option node) (s : DetectedStack) :
  let s' := snd (detectFromPackageLockJson dir s) in
  PHP s' = PHP s /\ Laravel s' = Laravel s /\ Nuxt s' = Nuxt s /\ Vue s' = Vue s
  /\ (NuxtUI s' <> NuxtUI s -> NuxtUI s = "")
  /\ (NuxtUI s <> "" -> NuxtUI s' = NuxtUI s).
Proof.
  cbv zeta.
  destruct (detectFromPackageLockJson_cases dir s) as [-> | [E [v [_ ->]]]].
  - repeat split; try reflexivity. intros H; contradiction.
  - simpl. repeat split; try reflexivity.
    + intros _. exact E.
    + intros H. contradiction.
Qed.

End DetectFacts.

(** ** The resolver and the merge *)

Module CmdFacts.
Import GoStrings GoStringsFacts Detect Cmd.

(** *** Version normalization *)

Lemma allChars_app p s t : allChars p (s +:+ t) = allChars p s && allChars p t.
Proof.
  induction s as [| c s IH]; [reflexivity |].
  rewrite sapp_cons. simpl. rewrite IH, andb_assoc. reflexivity.
Qed.

Lemma allChars_impl (p q : ascii -> bool) s :
  (forall c, p c = true -> q c = true) -> allChars p s = true -> allChars q s = true.
Proof.
  intros Hpq. induction s as [| c s IH]; [trivial |].
  simpl. intros H. apply andb_prop in H as [Hc Hs].
  rewrite (Hpq c Hc), (IH Hs). reflexivity.
Qed.

(** What the characters of a version proper are not: white space, a lead
    byte of a white-space rune, a bar or a blank. *)
Lemma plain_char c :
  isRangeOp c || isDigitOrDot c = true ->
  Ascii.is_space c = false /\ spaceLead c = false
  /\ negb (Ascii.eqb c "|") = true /\ negb (Ascii.eqb c " ") = true.
Proof.
  destruct c as [[] [] [] [] [] [] [] []]; vm_compute; intros H;
    try discriminate H; repeat split.
Qed.

Lemma rangeOp_in_cutset c : isRangeOp c = true -> inCutset c "^~><= " = true.
Proof.
  destruct c as [[] [] [] [] [] [] [] []]; vm_compute; intros H;
    try discriminate H; reflexivity.
Qed.

Lemma digit_not_in_cutset c : isDigitOrDot c = true -> inCutset c "^~><= " = false.
Proof.
  destruct c as [[] [] [] [] [] [] [] []]; vm_compute; intros H;
    try discriminate H; reflexivity.
Qed.

Lemma trimLeftSpace_pad pad s :
  allChars Ascii.is_space pad = true ->
  trimLeftSpace (pad +:+ s) = trimLeftSpace s.
Proof.
  induction pad as [| c pad IH]; intros H; [reflexivity |].
  simpl in H. apply andb_prop in H as [Hc Hp].
  rewrite sapp_cons, trimLeftSpace_ascii_space by exact Hc. auto.
Qed.

Lemma trimRightSpace_plain a r :
  allChars (fun c => isRangeOp c || isDigitOrDot c) a = true ->
  trimRightSpace (a +:+ r) = a +:+ trimRightSpace r.
Proof.
  induction a as [| c a IH]; intros H; [reflexivity |].
  simpl in H. apply andb_prop in H as [Hc Ha].
  destruct (plain_char c Hc) as (H1 & H2 & _).
  rewrite !sapp_cons. cbn [trimRightSpace].
  rewrite trimLeftSpace_stop by assumption. cbn [isEmpty].
  rewrite IH by exact Ha. reflexivity.
Qed.

Lemma digitsAndDots_core core r :
  allChars isDigitOrDot core = true ->
  digitsAndDots (core +:+ r) = core +:+ digitsAndDots r.
Proof.
  induction core as [| c core IH]; intros H; [reflexivity |].
  simpl in H. apply andb_prop in H as [Hc Hs].
  rewrite !sapp_cons. cbn [digitsAndDots]. rewrite Hc, IH by exact Hs. reflexivity.
Qed.

Lemma digitsAndDots_stub p rest :
  stub p rest -> startsWith isDigitOrDot rest = false -> digitsAndDots p = "".
Proof.
  intros [-> | (c & p' & r' & -> & ->)]; [reflexivity |].
  simpl. intros ->. reflexivity.
Qed.

(** The version proper is what is left of a constraint: white space in
    front, range operators, the digits and dots [core], and a rest that
    starts with some other character (an alternative after "||", a second
    bound after a blank, a suffix such as "x" or "-beta"). *)
Lemma normalizeVersion_core pad ops core rest :
  allChars Ascii.is_space pad = true ->
  allChars isRangeOp ops = true ->
  allChars isDigitOrDot core = true ->
  core <> "" ->
  startsWith isDigitOrDot rest = false ->
  normalizeVersion (pad +:+ ops +:+ core +:+ rest) = core.
Proof.
  intros Hpad Hops Hcore Hne Hrest.
  assert (Hplain : allChars (fun c => isRangeOp c || isDigitOrDot c)
                     (ops +:+ core) = true).
  { rewrite allChars_app. apply andb_true_intro. split.
    - eapply allChars_impl; [| exact Hops]. intros c ->. reflexivity.
    - eapply allChars_impl; [| exact Hcore]. intros c ->. apply orb_true_r. }
  assert (Hhead : exists c a', ops +:+ core = String c a').
  { destruct ops as [| c ops']; [| rewrite sapp_cons; eauto].
    destruct core as [| c core']; [congruence | eauto]. }
  unfold normalizeVersion, TrimSpace.
  rewrite trimLeftSpace_pad by exact Hpad.
  rewrite <- (sapp_assoc ops core rest).
  assert (Hleft : trimLeftSpace ((ops +:+ core) +:+ rest) = (ops +:+ core) +:+ rest).
  { destruct Hhead as (c & a' & E). rewrite E in *. rewrite sapp_cons.
    simpl in Hplain. apply andb_prop in Hplain as [Hc _].
    destruct (plain_char c Hc) as (H1 & H2 & _).
    apply trimLeftSpace_stop; assumption. }
  rewrite Hleft, trimRightSpace_plain by exact Hplain.
  pose proof (trimRightSpace_stub rest) as S0.
  set (rest0 := trimRightSpace rest) in *.
  rewrite isEmpty_app.
  replace (isEmpty (ops +:+ core)) with false
    by (destruct Hhead as (c & a' & ->); reflexivity).
  cbn [andb]. unfold Split.
  (* the alternative after "||" *)
  rewrite (splitLoop_pass "|" "|" (ops +:+ core) "" rest0)
    by (eapply allChars_impl; [| exact Hplain]; intros c Hc;
        apply (plain_char c Hc)).
  destruct (splitLoop_first "||" ("" +:+ (ops +:+ core)) rest0) as (p1 & -> & S1).
  rewrite sapp_nil_l.
  (* the second bound after a blank *)
  rewrite (splitLoop_pass " " "" (ops +:+ core) "" p1)
    by (eapply allChars_impl; [| exact Hplain]; intros c Hc;
        apply (plain_char c Hc)).
  destruct (splitLoop_first " " ("" +:+ (ops +:+ core)) p1) as (p2 & -> & S2).
  rewrite sapp_nil_l.
  assert (S : stub p2 rest) by (eauto using stub_trans).
  (* the range operators *)
  rewrite (sapp_assoc ops core p2).
  rewrite TrimLeft_cut
    by (eapply allChars_impl; [| exact Hops]; apply rangeOp_in_cutset).
  assert (Hcut : TrimLeft (core +:+ p2) "^~><= " = core +:+ p2).
  { destruct core as [| c core']; [congruence |].
    rewrite sapp_cons. apply TrimLeft_stop. apply digit_not_in_cutset.
    simpl in Hcore. apply andb_prop in Hcore as [Hc _]. exact Hc. }
  rewrite Hcut, digitsAndDots_core by exact Hcore.
  rewrite (digitsAndDots_stub p2 rest S Hrest). apply sapp_nil_r.
Qed.

Lemma digitsAndDots_chars v : allChars isDigitOrDot (digitsAndDots v) = true.
Proof.
  induction v as [| c v IH]; [reflexivity |].
  cbn [digitsAndDots]. destruct (isDigitOrDot c) eqn:E; [| reflexivity].
  simpl. rewrite E, IH. reflexivity.
Qed.



(** *** Resolution of the general rules *)

(** C2, counterexample. The specification puts the major rule before the
    major.minor rule.  With PHP "5.3" and rules at the base, "5" and "5.3"
    granularities, [addRulesFor] lists the "5.3" rule before the "5"
    rule. *)
Lemma general_order_counterexample :
  ruleExists store53 "php/general" = true
  /\ ruleExists store53 "php/5/general" = true
  /\ ruleExists store53 "php/5.3/general" = true
  /\ majorOf (normalizeVersion "5.3") = "5"
  /\ minorOf (normalizeVersion "5.3") = "3"
  /\ addRulesFor store53 [] "php" "5.3"
     = ["php/general"; "php/5.3/general"; "php/5/general"]
  /\ addRulesFor store53 [] "php" "5.3"
     <> ["php/general"; "php/5/general"; "php/5.3/general"].
Proof.
  assert (E : addRulesFor store53 [] "php" "5.3"
              = ["php/general"; "php/5.3/general"; "php/5/general"])
    by (vm_compute; reflexivity).
  repeat split; try (vm_compute; reflexivity).
  rewrite E. discriminate.
Qed.

(** C2, amended. General-document cumulative inclusion: for a technology
    whose version normalizes to major "5" and minor "3", when rule content
    exists at the base, "5" and "5.3" granularities, [addRulesFor] appends
    exactly those three identifiers, without duplicates, in the order
    base, then major.minor ("5.3"), then major ("5"). *)
Theorem general_rules_cumulative (embeddedFS : Rules.FS) (ids : list string)
    (name version : string) :
  version <> "" ->
  majorOf (normalizeVersion version) = "5" ->
  minorOf (normalizeVersion version) = "3" ->
  ruleExists embeddedFS (name +:+ "/general") = true ->
  ruleExists embeddedFS (name +:+ "/5/general") = true ->
  ruleExists embeddedFS (name +:+ "/5.3/general") = true ->
  addRulesFor embeddedFS ids name version
  = ids ++ [name +:+ "/general"; name +:+ "/5.3/general"; name +:+ "/5/general"]
  /\ NoDup [name +:+ "/general"; name +:+ "/5.3/general"; name +:+ "/5/general"].
Proof.
  intros Hv Hmaj Hmin Hbase H5 H53. split.
  - unfold addRulesFor.
    apply isEmpty_false in Hv. rewrite Hv.
    assert (Hn : isEmpty (normalizeVersion version) = false).
    { apply isEmpty_false. intros E. rewrite E in Hmaj. discriminate Hmaj. }
    rewrite Hn, Hmaj, Hmin. cbn [isEmpty negb andb].
    change (name +:+ "/" +:+ "5" +:+ "." +:+ "3" +:+ "/general")
      with (name +:+ "/5.3/general").
    change (name +:+ "/" +:+ "5" +:+ "/general") with (name +:+ "/5/general").
    unfold addIfExists. rewrite Hbase, H53, H5.
    rewrite <- !List.app_assoc. reflexivity.
  - repeat constructor; rewrite ?list_elem_of_In; simpl;
      intros H; repeat (destruct H as [H | H]); try contradiction;
      apply sapp_inv_head in H; discriminate H.
Qed.

(** PHP "5.3" over the example store. *)
Lemma general_rules_cumulative_witness :
  addRulesFor store53 [] "php" "5.3"
  = [] ++ ["php" +:+ "/general"; "php" +:+ "/5.3/general"; "php" +:+ "/5/general"]
  /\ NoDup ["php" +:+ "/general"; "php" +:+ "/5.3/general"; "php" +:+ "/5/general"].
Proof.
  apply (general_rules_cumulative store53 [] "php" "5.3").
  - discriminate.
  - reflexivity.
  - reflexivity.
  - reflexivity.
  - reflexivity.
  - reflexivity.
Defined.

(** *** Resolution of the agent rule *)




(** *** The merge *)







Lemma joinWritten_fold pieces : joinWritten pieces = fold_left written pieces "".
Proof. reflexivity. Qed.


(** [Join] written piece by piece: every piece after the first comes with
    the separator in front. *)
Lemma concat_cons sep p q pieces :
  String.concat sep (p :: q :: pieces) = p +:+ sep +:+ String.concat sep (q :: pieces).
Proof. reflexivity. Qed.

Section EmbeddedMerge.
Variable embeddedFS : Rules.FS.

Lemma mergeStep_written b id :
  mergeStep embeddedFS b id = written b (generalPiece embeddedFS id).
Proof.
  unfold mergeStep, written, generalPiece, missingNote.
  destruct (Rules.Get embeddedFS id); rewrite ?sapp_assoc; reflexivity.
Qed.

Lemma merge_fold ids b :
  fold_left (mergeStep embeddedFS) ids b
  = fold_left written (map (generalPiece embeddedFS) ids) b.
Proof.
  revert b. induction ids as [| id ids IH]; intros b; [reflexivity |].
  simpl. rewrite mergeStep_written. apply IH.
Qed.

Lemma agentStep_piece b i af :
  agentStep embeddedFS b i af
  = (if 0 <? i then b +:+ separator else b) +:+ agentPiece embeddedFS af.
Proof.
  unfold agentStep, agentPiece, missingAgentNote.
  destruct (Rules.Get embeddedFS (ID af)); rewrite ?sapp_assoc; reflexivity.
Qed.

Lemma agentLoop_later b i files :
  agentLoop embeddedFS b (S i) files
  = match files with
    | [] => b
    | _ => b +:+ separator
             +:+ String.concat separator (map (agentPiece embeddedFS) files)
    end.
Proof.
  revert b i. induction files as [| af rest IH]; intros b i; [reflexivity |].
  cbn [agentLoop]. rewrite IH, agentStep_piece. cbn [Nat.ltb Nat.leb].
  destruct rest as [| af' rest'];
    [cbn [map String.concat]; rewrite ?sapp_assoc; reflexivity |].
  cbn [map]. rewrite concat_cons, !sapp_assoc. reflexivity.
Qed.

Lemma buildAgentContent_pieces files :
  buildAgentContent embeddedFS files
  = agentsHeader +:+ Join (map (agentPiece embeddedFS) files) separator.
Proof.
  unfold buildAgentContent, Join. cbv zeta.
  change ("# Agents" +:+ LF +:+ LF
          +:+ "<!-- Generated by ai-instructions. Do not edit manually. -->"
          +:+ LF +:+ LF +:+ "---" +:+ LF +:+ LF) with agentsHeader.
  destruct files as [| af rest]; [cbn [agentLoop map String.concat]; rewrite sapp_nil_r; reflexivity |].
  cbn [agentLoop]. rewrite agentLoop_later, agentStep_piece.
  cbn [Nat.ltb Nat.leb].
  destruct rest as [| af' rest'];
    [cbn [map String.concat]; rewrite ?sapp_assoc; reflexivity |].
  cbn [map]. rewrite concat_cons, !sapp_assoc. reflexivity.
Qed.
End EmbeddedMerge.

Section OnDiskMerge.
Variable os : CmdFiles.OS.





End OnDiskMerge.



(** *** Determinism of the rendering *)

Section SameStore.
Variables fs1 fs2 : Rules.FS.
Hypothesis same : forall id, Rules.Get fs1 id = Rules.Get fs2 id.

Lemma addRulesFor_same ids name version :
  addRulesFor fs1 ids name version = addRulesFor fs2 ids name version.
Proof. unfold addRulesFor, addIfExists, ruleExists. rewrite !same. reflexivity. Qed.

Lemma addAgentFor_same files label name version :
  addAgentFor fs1 files label name version
  = addAgentFor fs2 files label name version.
Proof. unfold addAgentFor, ruleExists. rewrite !same. reflexivity. Qed.

Lemma loadAndMergeRules_same ids :
  loadAndMergeRules fs1 ids = loadAndMergeRules fs2 ids.
Proof.
  unfold loadAndMergeRules. f_equal. generalize "" as b.
  induction ids as [| id ids IH]; intros b; [reflexivity |].
  simpl. rewrite IH. unfold mergeStep. rewrite same. reflexivity.
Qed.

Lemma agentLoop_same b i files :
  agentLoop fs1 b i files = agentLoop fs2 b i files.
Proof.
  revert b i. induction files as [| af files IH]; intros b i; [reflexivity |].
  cbn [agentLoop]. rewrite IH. unfold agentStep. rewrite same. reflexivity.
Qed.

Lemma buildAgentContent_same files :
  buildAgentContent fs1 files = buildAgentContent fs2 files.
Proof. unfold buildAgentContent. apply agentLoop_same. Qed.

Lemma renderGeneral_same stack : renderGeneral fs1 stack = renderGeneral fs2 stack.
Proof.
  unfold renderGeneral, buildGeneralRulesFromDetection.
  rewrite !addRulesFor_same, loadAndMergeRules_same. reflexivity.
Qed.

Lemma renderAgents_same stack : renderAgents fs1 stack = renderAgents fs2 stack.
Proof.
  unfold renderAgents, buildAgentRulesFromDetection.
  rewrite !addAgentFor_same, buildAgentContent_same. reflexivity.
Qed.
End SameStore.

(** C6. Render determinism: two runs of resolution, merge and rendering
    on the same stack record and on rule stores that answer every lookup
    alike produce the same general document and the same agents section,
    byte for byte (both are functions of the record and of the content the
    store returns, and of nothing else); hence a document generated by
    one run is found up to date by the comparison of validation mode
    against the document recomputed by another. *)
Theorem render_deterministic (fs1 fs2 : Rules.FS) (s1 s2 : DetectedStack) :
  s1 = s2 ->
  (forall id, Rules.Get fs1 id = Rules.Get fs2 id) ->
  renderGeneral fs1 s1 = renderGeneral fs2 s2
  /\ renderAgents fs1 s1 = renderAgents fs2 s2
  /\ buildStackSection (Some s1) = buildStackSection (Some s2)
  /\ (forall written recomputed,
        renderGeneral fs1 s1 = Some written ->
        renderGeneral fs2 s2 = Some recomputed ->
        compareFileStatus (inl written) recomputed = statusUpToDate).
Proof.
  intros <- Hsame.
  pose proof (renderGeneral_same fs1 fs2 Hsame s1) as HG.
  split; [exact HG |].
  split; [apply renderAgents_same; exact Hsame |].
  split; [reflexivity |].
  intros d1 d2 H1 H2. rewrite HG, H2 in H1. injection H1 as ->.
  unfold compareFileStatus. rewrite String.eqb_refl. reflexivity.
Qed.

(** Two renderings of PHP "5.3" over the example store. *)
Lemma render_deterministic_witness :
  renderGeneral store53 (mkStack "5.3" "" "" "" "")
  = renderGeneral store53 (mkStack "5.3" "" "" "" "")
  /\ renderGeneral store53 (mkStack "5.3" "" "" "" "")
     = Some ("## Stack" +:+ LF +:+ LF +:+ "- PHP: 5.3" +:+ separator
               +:+ "base rules" +:+ separator +:+ "rules for 5.3"
               +:+ separator +:+ "rules for 5").
Proof.
  split.
  - apply (render_deterministic store53 store53
             (mkStack "5.3" "" "" "" "") (mkStack "5.3" "" "" "" ""));
      reflexivity.
  - vm_compute. reflexivity.
Defined.

(** *** The generator over rule files on disk *)

(** The file variant of [addRulesFor] lists the rule files in the same
    order: base, major.minor, major. *)
Remark files_general_order :
  CmdFiles.addRulesFor CmdFiles.disk53 [] "php" "5.3"
  = ["rules/php/general.md"; "rules/php/5.3/general.md"; "rules/php/5/general.md"].
Proof. vm_compute. reflexivity. Qed.

(** The file variant of [addAgentFor] chooses the agent file from the
    shape of the version alone, whether the file exists or not; the merge
    then writes the placeholder for a file that is missing. *)
Remark files_agent_unchecked :
  CmdFiles.addAgentFor [] "PHP" "php" "5.3"
  = [CmdFiles.mkAgent "PHP" "rules/php/5.3/agent.md"]
  /\ CmdFiles.osReadFile CmdFiles.baseOnly "rules/php/5.3/agent.md" = None
  /\ contains (CmdFiles.buildAgentContent CmdFiles.baseOnly
                 (CmdFiles.addAgentFor [] "PHP" "php" "5.3"))
       "<!-- Missing agent instructions for PHP (expected file: rules/php/5.3/agent.md) -->".
Proof.
  split; [vm_compute; reflexivity |]. split; [reflexivity |].
  exists (CmdFiles.agentsHeader +:+ "## PHP" +:+ LF +:+ LF), "".
  vm_compute. reflexivity.
Qed.

End CmdFacts.

(** ** The template merge *)

Module PilotFacts.
Import GoStrings GoStringsFacts Pilot.

(** *** Lists *)

Lemma filter_filter {A} (p q : A -> bool) l :
  List.filter p (List.filter q l) = List.filter (fun y => p y && q y) l.
Proof.
  induction l as [| x l IH]; [reflexivity |].
  simpl. destruct (q x); simpl; destruct (p x); simpl; rewrite ?IH; reflexivity.
Qed.

(** Dropping the later occurrences of a string that is filtered out
    anyway changes nothing. *)
Lemma filter_seen (p : string -> bool) x l :
  p x = false ->
  List.filter p (x :: List.filter (fun y => negb (String.eqb y x)) l)
  = List.filter p l.
Proof.
  intros Hx. simpl. rewrite Hx, filter_filter.
  apply List.filter_ext. intros y.
  destruct (String.eqb_spec y x) as [-> | _]; [rewrite Hx |];
    simpl; rewrite ?andb_true_r; reflexivity.
Qed.

Lemma filter_new (p : string -> bool) x l :
  p x = true ->
  List.filter p (x :: List.filter (fun y => negb (String.eqb y x)) l)
  = x :: List.filter (fun y => p y && negb (String.eqb y x)) l.
Proof. intros Hx. simpl. rewrite Hx, filter_filter. reflexivity. Qed.

Lemma firstSeen_In v l : In v (firstSeen l) <-> In v l.
Proof.
  induction l as [| x l IH]; [reflexivity |].
  simpl. rewrite filter_In, IH.
  destruct (String.eqb_spec v x) as [-> | Hne]; simpl.
  - split; auto.
  - split; [intros [H | [H _]]; auto | intros [H | H]; auto].
Qed.

Lemma firstSeen_NoDup l : List.NoDup (firstSeen l).
Proof.
  induction l as [| x l IH]; simpl; constructor.
  - rewrite filter_In. intros [_ H]. rewrite String.eqb_refl in H. discriminate.
  - apply List.NoDup_filter. exact IH.
Qed.

(** *** Bullets *)

Lemma trimAll_trimmed l : trimAll l = trimmed l.
Proof.
  unfold trimmed, nonBlank. induction l as [| v l IH]; [reflexivity |].
  simpl. destruct (negb (isEmpty (TrimSpace v))); rewrite IH; reflexivity.
Qed.

Lemma trimmed_app a b : trimmed (a ++ b) = trimmed a ++ trimmed b.
Proof. unfold trimmed, nonBlank. rewrite List.map_app, List.filter_app. reflexivity. Qed.

(** Trimming what is trimmed changes nothing. *)
Lemma trimmed_idem l : trimmed (trimmed l) = trimmed l.
Proof.
  unfold trimmed, nonBlank. induction l as [| v l IH]; [reflexivity |].
  simpl. destruct (negb (isEmpty (TrimSpace v))) eqn:E; [| exact IH].
  simpl. rewrite TrimSpace_idem, E, IH. reflexivity.
Qed.

(** The loop of [mergeBullets]: what it appends to [out] are the first
    occurrences of the trimmed, non-empty strings not yet in [seen]. *)
Lemma bulletLoop_spec vs :
  forall seen out,
    bulletLoop seen out vs
    = out ++ List.filter (fun y => negb (default false (seen !! y)))
                         (firstSeen (trimmed vs)).
Proof.
  induction vs as [| v vs IH]; intros seen out.
  - simpl. rewrite app_nil_r. reflexivity.
  - cbn [bulletLoop]. unfold trimmed, nonBlank in *. cbn [List.map List.filter].
    destruct (isEmpty (TrimSpace v)) eqn:E; cbn [negb orb].
    { apply IH. }
    destruct (default false (seen !! TrimSpace v)) eqn:S.
    + rewrite IH. cbn [firstSeen]. rewrite filter_seen; [reflexivity |].
      rewrite S. reflexivity.
    + rewrite IH. cbn [firstSeen]. rewrite filter_new by (rewrite S; reflexivity).
      rewrite <- List.app_assoc. cbn [app]. do 2 f_equal.
      apply List.filter_ext. intros y.
      destruct (String.eqb_spec y (TrimSpace v)) as [-> | Hne].
      * rewrite lookup_insert_eq. simpl. rewrite andb_false_r. reflexivity.
      * rewrite lookup_insert_ne by congruence. simpl. rewrite andb_true_r.
        reflexivity.
Qed.

Lemma mergeBullets_spec a b : mergeBullets a b = firstSeen (trimmed (a ++ b)).
Proof.
  unfold mergeBullets. rewrite bulletLoop_spec. cbn [app].
  induction (firstSeen (trimmed (a ++ b))) as [| x l IH]; [reflexivity |].
  simpl. rewrite lookup_empty. simpl. f_equal. exact IH.
Qed.

Lemma mergeBullets_In a b v :
  In v (mergeBullets a b) <-> v <> "" /\ In v (List.map TrimSpace (a ++ b)).
Proof.
  rewrite mergeBullets_spec, firstSeen_In. unfold trimmed, nonBlank.
  rewrite filter_In, negb_true_iff, isEmpty_false. tauto.
Qed.

(** *** Free text *)

Lemma mergeText_shared mText sText : mergeText mText sText = sharedText mText sText.
Proof.
  unfold mergeText, sharedText.
  destruct (isEmpty (TrimSpace sText)), (isEmpty (TrimSpace mText)),
    (String.eqb (TrimSpace mText) (TrimSpace sText)); reflexivity.
Qed.

(** *** The merge loop *)

Lemma map_insert_same {A B} (f : A -> B) l i x y :
  l !! i = Some x -> f y = f x -> List.map f (<[i := y]> l) = List.map f l.
Proof.
  revert i. induction l as [| z l IH]; intros [| i]; simpl; try discriminate.
  - intros [= ->] ->. reflexivity.
  - intros H E. f_equal. apply IH; assumption.
Qed.

Lemma seenIn_true keys h : seenIn keys h = true <-> In h keys.
Proof.
  unfold seenIn. rewrite existsb_exists. split.
  - intros (x & Hx & E). apply String.eqb_eq in E. subst. exact Hx.
  - intros H. exists h. split; [exact H | apply String.eqb_refl].
Qed.

Lemma seenIn_snoc keys k y :
  negb (seenIn (keys ++ [k]) y) = negb (seenIn keys y) && negb (String.eqb y k).
Proof.
  unfold seenIn. rewrite existsb_app. simpl. rewrite orb_false_r, negb_orb.
  reflexivity.
Qed.

Lemma mergeSection_blank st s : keyOf s = "" -> mergeSection st s = Some st.
Proof. unfold mergeSection, keyOf. intros ->. reflexivity. Qed.

(** A section whose heading is known is merged into the section filed
    under that heading. *)
Lemma mergeSection_existing st s idx m :
  keyOf s <> "" -> index st !! keyOf s = Some idx -> merged st !! idx = Some m ->
  mergeSection st s
  = Some (mkState
            (<[idx := mkSection (Heading m) (sharedText (Text m) (Text s))
                        (firstSeen (trimmed (Bullets m ++ Bullets s)))]> (merged st))
            (index st)).
Proof.
  intros Hk Hi Hm. unfold mergeSection. fold (keyOf s).
  apply isEmpty_false in Hk. rewrite Hk, Hi, Hm. cbn [Heading Text Bullets].
  rewrite mergeText_shared, mergeBullets_spec. reflexivity.
Qed.

(** A section with a new heading is appended, its bullets trimmed. *)
Lemma mergeSection_new st s :
  keyOf s <> "" -> index st !! keyOf s = None ->
  mergeSection st s
  = Some (mkState
            (merged st ++ [mkSection (Heading s) (Text s) (trimmed (Bullets s))])
            (<[keyOf s := length (merged st)]> (index st))).
Proof.
  intros Hk Hi. unfold mergeSection. fold (keyOf s).
  apply isEmpty_false in Hk. rewrite Hk, Hi, trimAll_trimmed. reflexivity.
Qed.

Lemma consistent_empty : consistent emptyState.
Proof.
  split.
  - intros h idx H. simpl in H. rewrite lookup_empty in H. discriminate.
  - intros i m H. simpl in H. rewrite lookup_nil in H. discriminate.
Qed.

(** One section: no panic, the state stays consistent, and the heading
    is appended to the headings exactly when it is neither blank nor
    known. *)
Lemma mergeSection_consistent st s :
  consistent st ->
  exists st', mergeSection st s = Some st' /\ consistent st'
    /\ List.map keyOf (merged st')
       = List.map keyOf (merged st)
         ++ (if isEmpty (keyOf s) || seenIn (List.map keyOf (merged st)) (keyOf s)
             then [] else [keyOf s]).
Proof.
  intros [C1 C2].
  destruct (isEmpty (keyOf s)) eqn:Eb.
  { exists st. apply isEmpty_true in Eb. rewrite mergeSection_blank by exact Eb.
    cbn [orb]. rewrite app_nil_r. repeat split; assumption. }
  apply isEmpty_false in Eb. cbn [orb].
  destruct (index st !! keyOf s) as [idx |] eqn:Ei.
  - destruct (C1 _ _ Ei) as (m & Hm & Hkm).
    rewrite (mergeSection_existing st s idx m Eb Ei Hm).
    eexists. split; [reflexivity |]. unfold consistent. cbn [merged index].
    assert (Hlt : idx < length (merged st)) by (eapply lookup_lt_Some; exact Hm).
    split; [split |].
    + intros h i Hh. destruct (decide (i = idx)) as [-> | Hne].
      * rewrite list_lookup_insert_eq by exact Hlt. eexists. split; [reflexivity |].
        destruct (C1 _ _ Hh) as (m0 & Hm0 & Hk0). rewrite Hm in Hm0.
        injection Hm0 as <-. exact Hk0.
      * rewrite list_lookup_insert_ne by congruence. apply C1. exact Hh.
    + intros i m0. destruct (decide (i = idx)) as [-> | Hne].
      * rewrite list_lookup_insert_eq by exact Hlt. intros [= <-].
        apply (C2 idx m Hm).
      * rewrite list_lookup_insert_ne by congruence. apply C2.
    + rewrite (map_insert_same keyOf _ _ m) by (exact Hm || reflexivity).
      assert (Hs : seenIn (List.map keyOf (merged st)) (keyOf s) = true).
      { apply seenIn_true. rewrite <- Hkm. apply in_map.
        apply list_elem_of_In. eapply list_elem_of_lookup_2. exact Hm. }
      rewrite Hs, app_nil_r. reflexivity.
  - rewrite (mergeSection_new st s Eb Ei).
    eexists. split; [reflexivity |]. unfold consistent. cbn [merged index].
    split; [split |].
    + intros h i Hh. destruct (decide (h = keyOf s)) as [-> | Hne].
      * rewrite lookup_insert_eq in Hh. injection Hh as <-.
        rewrite lookup_app_r, Nat.sub_diag by lia. eexists. split; reflexivity.
      * rewrite lookup_insert_ne in Hh by congruence.
        destruct (C1 _ _ Hh) as (m & Hm & Hk). exists m. split; [| exact Hk].
        rewrite lookup_app_l by (eapply lookup_lt_Some; exact Hm). exact Hm.
    + intros i m Hm.
      destruct (decide (keyOf m = keyOf s)) as [-> | Hne].
      * rewrite lookup_insert_eq. eauto.
      * rewrite lookup_insert_ne by congruence.
        destruct (decide (i < length (merged st))) as [Hi | Hi].
        -- rewrite lookup_app_l in Hm by exact Hi. apply (C2 i m Hm).
        -- rewrite lookup_app_r in Hm by lia.
           destruct (i - length (merged st)) as [| j]; simpl in Hm;
             [| rewrite lookup_nil in Hm; discriminate].
           injection Hm as <-. exfalso. apply Hne. reflexivity.
    + rewrite List.map_app. cbn [List.map].
      assert (Hs : seenIn (List.map keyOf (merged st)) (keyOf s) = false).
      { apply not_true_is_false. rewrite seenIn_true, in_map_iff.
        intros (m & Hk & Hin). apply list_elem_of_In, list_elem_of_lookup in Hin.
        destruct Hin as (i & Hm). destruct (C2 i m Hm) as (j & Hj).
        rewrite Hk, Ei in Hj. discriminate. }
      rewrite Hs. reflexivity.
Qed.

(** The whole loop: no panic, and the headings appended are the first
    occurrences of the non-blank headings not known before. *)
Lemma mergeSections_consistent ss :
  forall st, consistent st ->
    exists st', mergeSections st ss = Some st' /\ consistent st'
      /\ List.map keyOf (merged st')
         = List.map keyOf (merged st)
           ++ List.filter (fun h => negb (seenIn (List.map keyOf (merged st)) h))
                          (firstSeen (nonBlank (List.map keyOf ss))).
Proof.
  induction ss as [| s ss IH]; intros st C.
  - exists st. simpl. rewrite app_nil_r. auto.
  - destruct (mergeSection_consistent st s C) as (st1 & E1 & C1 & K1).
    destruct (IH st1 C1) as (st2 & E2 & C2 & K2).
    exists st2. cbn [mergeSections]. rewrite E1. split; [exact E2 |].
    split; [exact C2 |]. rewrite K2, K1. clear K1 K2.
    unfold nonBlank. cbn [List.map List.filter].
    set (keys := List.map keyOf (merged st)).
    set (FS := firstSeen _).
    destruct (isEmpty (keyOf s)) eqn:Eb; cbn [orb negb].
    { rewrite app_nil_r. reflexivity. }
    cbn [firstSeen]. fold FS.
    destruct (seenIn keys (keyOf s)) eqn:Es.
    + rewrite app_nil_r, filter_seen by (rewrite Es; reflexivity). reflexivity.
    + rewrite filter_new by (rewrite Es; reflexivity).
      rewrite <- List.app_assoc. cbn [app]. do 2 f_equal.
      apply List.filter_ext. intros y. apply seenIn_snoc.
Qed.

Lemma filter_all {A} (l : list A) : List.filter (fun _ => true) l = l.
Proof. induction l as [| x l IH]; [reflexivity |]. simpl. rewrite IH. reflexivity. Qed.

(** C9. Structured-section merge.  For every list of templates
    [mergeTemplates] returns (no index is out of range) and the headings
    of the merged sections are the non-blank trimmed headings of all
    sections in first-seen order, each once.  Whenever a section shares
    its heading with an earlier one, the merged section keeps the earlier
    heading, its text is the first non-empty text with a later non-empty
    text appended after a blank line only if its trimmed form differs,
    and its bullets are those of both lists after white-space trimming,
    without the empty ones, each once in first-seen order, compared as
    exact strings; [mergeBullets] computes exactly that union, without
    duplicates; in particular this is the result for two templates of one
    section each that share a heading. *)
Theorem mergeTemplates_by_heading :
  (forall templates sets,
     exists title sections,
       mergeTemplates templates sets = Some (title, sections)
       /\ List.map keyOf sections
          = firstSeen (nonBlank (List.map keyOf (allSections templates))))
  /\ (forall before st s idx,
        mergeSections emptyState before = Some st ->
        keyOf s <> "" ->
        index st !! keyOf s = Some idx ->
        exists m, merged st !! idx = Some m /\ keyOf m = keyOf s
          /\ mergeSection st s
             = Some (mkState
                       (<[idx := mkSection (Heading m)
                                   (sharedText (Text m) (Text s))
                                   (firstSeen (trimmed (Bullets m ++ Bullets s)))]>
                          (merged st))
                       (index st)))
  /\ (forall a b,
        mergeBullets a b = firstSeen (trimmed (a ++ b))
        /\ List.NoDup (mergeBullets a b)
        /\ forall v, In v (mergeBullets a b)
                     <-> v <> "" /\ In v (List.map TrimSpace (a ++ b)))
  /\ (forall t1 t2 s1 s2 sets,
        keyOf s1 = keyOf s2 -> keyOf s1 <> "" ->
        snd <$> mergeTemplates [mkTemplate t1 [s1]; mkTemplate t2 [s2]] sets
        = Some [mkSection (Heading s1) (sharedText (Text s1) (Text s2))
                  (firstSeen (trimmed (Bullets s1 ++ Bullets s2)))]).
Proof.
  split; [| split; [| split]].
  - intros templates sets. unfold mergeTemplates. fold (allSections templates).
    fold emptyState.
    destruct (mergeSections_consistent (allSections templates) emptyState
                consistent_empty) as (st & E & _ & K).
    rewrite E. eexists _, _. split; [reflexivity |].
    rewrite K. cbn [emptyState merged List.map app]. apply filter_all.
  - intros before st s idx Hrun Hk Hi.
    destruct (mergeSections_consistent before emptyState consistent_empty)
      as (st' & E & [C1 _] & _).
    rewrite Hrun in E. injection E as <-.
    destruct (C1 _ _ Hi) as (m & Hm & Hkm).
    exists m. split; [exact Hm |]. split; [exact Hkm |].
    apply mergeSection_existing; assumption.
  - intros a b. split; [apply mergeBullets_spec |]. split.
    + rewrite mergeBullets_spec. apply firstSeen_NoDup.
    + intros v. apply mergeBullets_In.
  - intros t1 t2 s1 s2 sets Hsame Hk.
    unfold mergeTemplates. cbn [fmap list_fmap Sections concat app].
    fold emptyState. cbn [mergeSections].
    rewrite (mergeSection_new emptyState s1 Hk) by apply lookup_empty.
    cbn [emptyState merged index length].
    erewrite (mergeSection_existing _ s2 0); cycle 1.
    + rewrite <- Hsame. exact Hk.
    + cbn [index]. rewrite <- Hsame. apply lookup_insert_eq.
    + reflexivity.
    + cbn [merged Heading Text Bullets app]. cbn.
      rewrite trimmed_app, trimmed_idem, <- trimmed_app. reflexivity.
Qed.

(** The PHP and the Laravel template share the heading "Style". *)
Lemma mergeTemplates_witness :
  mergeTemplates [phpTemplate; laravelTemplate] ["php"; "laravel"]
  = Some ("Laravel",
          [mkSection "Style" ("Follow PSR-12." +:+ Cmd.LF +:+ Cmd.LF +:+ "Use Pint.")
             ["strict types"; "no globals"; "No Globals"];
           mkSection "Testing" "" ["PHPUnit"]])
  /\ mergeBullets ["  strict types"; "no globals"] ["no globals"; ""; "No Globals"]
     = firstSeen (trimmed (["  strict types"; "no globals"]
                             ++ ["no globals"; ""; "No Globals"])).
Proof.
  split; [vm_compute; reflexivity |].
  apply (proj1 (proj2 (proj2 mergeTemplates_by_heading))).
Defined.

End PilotFacts.

(** ** More on the detector *)

Module DetectMoreFacts.
Import GoStrings GoStringsFacts Detect DetectNotions DetectFacts.

(** *** The readers one by one *)

(** What makes [manifestFault] an error. *)
Lemma manifestFault_cause {A : Type} dir name (view : fileData -> option A) e :
  manifestFault dir name view = Some e
  <-> (ReadFile dir name = inr e /\ e <> ENOENT)
      \/ (exists data, ReadFile dir name = inl data /\ view data = None
                       /\ e = EUnmarshal).
Proof.
  unfold manifestFault. destruct (ReadFile dir name) as [data | err].
  - destruct (view data) as [a |] eqn:Ev; split.
    + discriminate.
    + intros [[H _] | (d & H & Hv & _)]; [discriminate H |].
      injection H as <-. rewrite Ev in Hv. discriminate Hv.
    + intros [= <-]. right. exists data. auto.
    + intros [[H _] | (d & H & Hv & ->)]; [discriminate H | reflexivity].
  - destruct err; cbn [IsNotExist]; split;
      try (intros [= <-]; left; split; [reflexivity | discriminate]);
      try (intros [[H Hne] | (d & H & _)];
           [injection H as <-; try reflexivity; contradiction Hne; reflexivity
           | discriminate H]).
    discriminate.
Qed.

(** A reader that returns an error returns the stack it was given. *)
Lemma reader_error_stack dir s :
  (fst (detectFromComposer dir s) <> None -> snd (detectFromComposer dir s) = s)
  /\ (fst (detectFromPackageJson dir s) <> None ->
      snd (detectFromPackageJson dir s) = s)
  /\ (fst (detectFromPackageLockJson dir s) <> None ->
      snd (detectFromPackageLockJson dir s) = s).
Proof.
  split; [| split].
  - unfold detectFromComposer.
    destruct (ReadFile dir "composer.json") as [data | err];
      [| destruct (IsNotExist err); reflexivity].
    destruct (asComposerJSON data); cbn [fst snd]; [| reflexivity].
    intros H. contradiction H. reflexivity.
  - unfold detectFromPackageJson.
    destruct (ReadFile dir "package.json") as [data | err];
      [| destruct (IsNotExist err); reflexivity].
    destruct (asPackageJSON data); cbn [fst snd]; [| reflexivity].
    intros H. contradiction H. reflexivity.
  - unfold detectFromPackageLockJson.
    destruct (ReadFile dir "package-lock.json") as [data | err];
      [| destruct (IsNotExist err); reflexivity].
    destruct (asLockFile data); [| reflexivity].
    destruct (isEmpty (NuxtUI s)); [| reflexivity].
    destruct (pinned _); [intros H; contradiction H; reflexivity |].
    destruct (pinned _); intros H; contradiction H; reflexivity.
Qed.

(** X1. Each of the three readers returns an error exactly when its
    manifest exists but cannot be read or decoded: the error of
    [os.ReadFile] when that is not a not-exist error, the decoding error
    when the content does not decode, and no error otherwise; and a reader
    that returns an error has not touched the stack. *)
Theorem reader_error_leaves_stack (dir : option node) (s : DetectedStack) :
  (forall e, fst (detectFromComposer dir s) = Some e
     <-> (ReadFile dir "composer.json" = inr e /\ e <> ENOENT)
         \/ (exists data, ReadFile dir "composer.json" = inl data
                          /\ asComposerJSON data = None /\ e = EUnmarshal))
  /\ (forall e, fst (detectFromPackageJson dir s) = Some e
        <-> (ReadFile dir "package.json" = inr e /\ e <> ENOENT)
            \/ (exists data, ReadFile dir "package.json" = inl data
                             /\ asPackageJSON data = None /\ e = EUnmarshal))
  /\ (forall e, fst (detectFromPackageLockJson dir s) = Some e
        <-> (ReadFile dir "package-lock.json" = inr e /\ e <> ENOENT)
            \/ (exists data, ReadFile dir "package-lock.json" = inl data
                             /\ asLockFile data = None /\ e = EUnmarshal))
  /\ (forall e, fst (detectFromComposer dir s) = Some e ->
        snd (detectFromComposer dir s) = s)
  /\ (forall e, fst (detectFromPackageJson dir s) = Some e ->
        snd (detectFromPackageJson dir s) = s)
  /\ (forall e, fst (detectFromPackageLockJson dir s) = Some e ->
        snd (detectFromPackageLockJson dir s) = s).
Proof.
  destruct (reader_error_stack dir s) as (H1 & H2 & H3).
  split; [| split; [| split; [| split; [| split]]]].
  - intros e. rewrite detectFromComposer_fault. apply manifestFault_cause.
  - intros e. rewrite detectFromPackageJson_fault. apply manifestFault_cause.
  - intros e. rewrite detectFromPackageLockJson_fault. apply manifestFault_cause.
  - intros e He. apply H1. rewrite He. discriminate.
  - intros e He. apply H2. rewrite He. discriminate.
  - intros e He. apply H3. rewrite He. discriminate.
Qed.

(** A manifest that cannot be read: the error is reported, the stack is
    as it was. *)
Lemma reader_error_leaves_stack_witness :
  fst (detectFromComposer (Some unreadableManifest) emptyStack) = Some EACCES
  /\ snd (detectFromComposer (Some unreadableManifest) emptyStack) = emptyStack.
Proof.
  pose proof (reader_error_leaves_stack (Some unreadableManifest) emptyStack)
    as (Hiff & _ & _ & Hstack & _).
  assert (He : fst (detectFromComposer (Some unreadableManifest) emptyStack)
               = Some EACCES).
  { apply Hiff. left. split; [reflexivity | discriminate]. }
  split; [exact He | exact (Hstack EACCES He)].
Defined.

(** X2. Within one [composer.json] the platform override wins: on a
    stack without a PHP version, a non-empty [config.platform.php] is the
    version recorded whatever [require.php] says, and [require.php]
    (when present) is recorded when the platform section is absent, has
    no [php] entry or has an empty one. *)
Theorem composer_platform_wins (dir : option node) (s : DetectedStack)
    (data : fileData) (c : composerJSON) :
  ReadFile dir "composer.json" = inl data ->
  asComposerJSON data = Some c ->
  PHP s = "" ->
  let platformPHP :=
    match cConfigPlatform c with
    | Some platform => pinned (platform !! "php")
    | None => None
    end in
  PHP (snd (detectFromComposer dir s))
  = match platformPHP with
    | Some v => v
    | None => default "" (cRequire c !! "php")
    end.
Proof.
  intros Hr Hc Hp. cbv zeta. unfold detectFromComposer. rewrite Hr, Hc.
  cbn [snd]. rewrite Hp. cbn [isEmpty].
  destruct (cConfigPlatform c) as [pl |].
  - destruct (pl !! "php") as [[| a v] |]; cbn [pinned isEmpty setPHP PHP].
    + destruct (cRequire c !! "php"); cbn [setPHP PHP isEmpty];
        destruct (isEmpty _); try destruct (cRequire c !! "laravel/framework");
        reflexivity.
    + destruct (isEmpty _); try destruct (cRequire c !! "laravel/framework");
        reflexivity.
    + rewrite Hp. cbn [isEmpty].
      destruct (cRequire c !! "php"); cbn [setPHP PHP Laravel];
        destruct (isEmpty _); try destruct (cRequire c !! "laravel/framework");
        cbn [setLaravel PHP default]; auto.
  - cbn [pinned]. rewrite Hp. cbn [isEmpty].
    destruct (cRequire c !! "php"); cbn [setPHP PHP Laravel];
      destruct (isEmpty _); try destruct (cRequire c !! "laravel/framework");
      cbn [setLaravel PHP default]; auto.
Qed.

(** Platform "8.1.0" against requirement "^8.2". *)
Lemma composer_platform_wins_witness :
  PHP (snd (detectFromComposer (Some platformProject) emptyStack)) = "8.1.0".
Proof.
  exact (composer_platform_wins (Some platformProject) emptyStack
           (composerWithPlatform "8.1.0" "^8.2")
           (mkComposer {["php" := "^8.2"]} (Some {["php" := "8.1.0"]}))
           eq_refl eq_refl eq_refl).
Defined.

(** X3. Within one [package.json] a package listed under
    [dependencies] hides the same package under [devDependencies]: for
    each of Nuxt, Vue and Nuxt UI, a field that is empty on entry receives
    the version found in the left-biased union of the two sections (the
    empty string when the package is in neither). *)
Theorem package_dependencies_win (dir : option node) (s : DetectedStack)
    (data : fileData) (p : packageJSON) :
  ReadFile dir "package.json" = inl data ->
  asPackageJSON data = Some p ->
  let s' := snd (detectFromPackageJson dir s) in
  let all := pDependencies p ∪ pDevDependencies p in
  (Nuxt s = "" -> Nuxt s' = default "" (all !! "nuxt"))
  /\ (Vue s = "" -> Vue s' = default "" (all !! "vue"))
  /\ (NuxtUI s = "" -> NuxtUI s' = default "" (all !! "@nuxt/ui")).
Proof.
  intros Hr Hp. cbv zeta. unfold detectFromPackageJson. rewrite Hr, Hp.
  cbn [snd]. rewrite !lookup_union. unfold getDep.
  destruct s as [php lar nuxt vue ui]. cbn [Nuxt Vue NuxtUI].
  destruct (pDependencies p !! "nuxt") as [a |],
           (pDevDependencies p !! "nuxt") as [a' |],
           (pDependencies p !! "vue") as [b |],
           (pDevDependencies p !! "vue") as [b' |],
           (pDependencies p !! "@nuxt/ui") as [c |],
           (pDevDependencies p !! "@nuxt/ui") as [c' |];
    (split; [| split]); intros E; destruct nuxt, vue, ui; try discriminate E;
    reflexivity.
Qed.

(** Vue listed under both sections. *)
Lemma package_dependencies_win_witness :
  Vue (snd (detectFromPackageJson (Some vueProject) emptyStack)) = "^3.4".
Proof.
  exact (proj1 (proj2 (package_dependencies_win (Some vueProject) emptyStack
                         (packageWith {["vue" := "^3.4"]} {["vue" := "^2.7"]})
                         (mkPackage {["vue" := "^3.4"]} {["vue" := "^2.7"]})
                         eq_refl eq_refl)) eq_refl).
Defined.

(** X4. Reading the same directory twice is the same as reading it once:
    each of the three readers, run again on the stack it has produced,
    changes nothing and returns what it returned the first time. *)
Theorem readers_idempotent (dir : option node) (s : DetectedStack) :
  detectFromComposer dir (snd (detectFromComposer dir s))
  = detectFromComposer dir s
  /\ detectFromPackageJson dir (snd (detectFromPackageJson dir s))
     = detectFromPackageJson dir s
  /\ detectFromPackageLockJson dir (snd (detectFromPackageLockJson dir s))
     = detectFromPackageLockJson dir s.
Proof.
  split; [| split].
  - unfold detectFromComposer.
    destruct (ReadFile dir "composer.json") as [data | err];
      [| destruct (IsNotExist err); reflexivity].
    destruct (asComposerJSON data) as [c |]; [| reflexivity].
    destruct s as [php lar nuxt vue ui].
    destruct (cConfigPlatform c) as [pl |];
      [destruct (pl !! "php") as [[| ? ?] |] |];
      destruct (cRequire c !! "php") as [[| ? ?] |],
               (cRequire c !! "laravel/framework") as [[| ? ?] |];
      destruct php, lar; reflexivity.
  - unfold detectFromPackageJson.
    destruct (ReadFile dir "package.json") as [data | err];
      [| destruct (IsNotExist err); reflexivity].
    destruct (asPackageJSON data) as [p |]; [| reflexivity].
    destruct s as [php lar nuxt vue ui].
    destruct (getDep p "nuxt") as [[| ? ?] |],
             (getDep p "vue") as [[| ? ?] |],
             (getDep p "@nuxt/ui") as [[| ? ?] |];
      destruct nuxt, vue, ui; reflexivity.
  - unfold detectFromPackageLockJson.
    destruct (ReadFile dir "package-lock.json") as [data | err];
      [| destruct (IsNotExist err); reflexivity].
    destruct (asLockFile data) as [lock |]; [| reflexivity].
    destruct s as [php lar nuxt vue ui]. cbn [NuxtUI].
    destruct ui as [| a ui]; [| reflexivity]. cbn [isEmpty].
    destruct (pinned (ldVersion <$> lDependencies lock !! "@nuxt/ui"))
      as [[| ? ?] |] eqn:E1;
      [| reflexivity |].
    + exfalso. destruct (_ <$> _) as [[| ? ?] |]; discriminate E1.
    + destruct (pinned (lpVersion <$> lPackages lock !! "node_modules/@nuxt/ui"))
        as [[| ? ?] |] eqn:E2; cbn [snd setNuxtUI NuxtUI isEmpty];
        rewrite ?E1, ?E2; reflexivity.
Qed.

(** *** What the walk finds *)

Lemma lookupEntry_In name es n :
  lookupEntry name es = Some n -> In (name, n) es.
Proof.
  induction es as [| [nm c] es IH]; [discriminate |].
  simpl. destruct (String.eqb_spec nm name) as [-> | _].
  - intros [= ->]. left. reflexivity.
  - intros H. right. auto.
Qed.

Section Finds.
Variable lockReader : reader.
Hypothesis lock_keeps : forall dir s, keeps s (snd (lockReader dir s)).

(** A property of the stack that first-writer-wins cannot undo. *)
Variable Q : DetectedStack -> Prop.
Hypothesis Q_stable : forall a b, keeps a b -> Q a -> Q b.

Lemma walkEntries_keeps es :
  forall reach parent s,
    keeps s (snd (walkEntries (walkFn lockReader) reach parent es s)).
Proof.
  induction es as [| [nm c] es IH]; intros reach parent s; [reflexivity |].
  cbn [walkEntries].
  pose proof (walkDir_respects (walkFn lockReader) keeps
                (walkFn_keeps lockReader lock_keeps) c reach
                (ChildPath parent nm) s) as H.
  destruct (walkDir (walkFn lockReader) reach (ChildPath parent nm) c s)
    as [[[] |] s1]; cbn [snd] in *; try exact H.
  etransitivity; [exact H | apply IH].
Qed.

(** What one entry establishes holds at the end of the loop over the
    entries. *)
Lemma walkEntries_establish es :
  forall reach parent s name c,
    In (name, c) es ->
    (forall s0, Q (snd (walkDir (walkFn lockReader) reach
                          (ChildPath parent name) c s0))) ->
    Q (snd (walkEntries (walkFn lockReader) reach parent es s)).
Proof.
  induction es as [| [nm1 c1] es IH]; intros reach parent s name c Hin Hq;
    [destruct Hin |].
  cbn [walkEntries].
  pose proof (walkDir_no_error lockReader c1 reach (ChildPath parent nm1) s) as Hn.
  destruct Hin as [[= -> ->] | Hin].
  - specialize (Hq s).
    destruct (walkDir (walkFn lockReader) reach (ChildPath parent name) c s)
      as [[e |] s1]; [discriminate Hn |]. cbn [snd] in Hq.
    eapply Q_stable; [apply walkEntries_keeps | exact Hq].
  - destruct (walkDir (walkFn lockReader) reach (ChildPath parent nm1) c1 s)
      as [[e |] s1]; [discriminate Hn |].
    eapply IH; eassumption.
Qed.

Lemma walkFn_entered path l x es s :
  entered path ->
  walkFn lockReader path (Some (entryOf path (Dir l x es))) None s = (None, s).
Proof.
  destruct path as [| parent name]; [reflexivity |].
  unfold entered, excludedName. intros H.
  apply orb_false_elim in H as [H H3]. apply orb_false_elim in H as [H H2].
  apply orb_false_elim in H as [H0 H1].
  cbn [entryOf isDir walkFn IsDir Name]. unfold HasPrefix.
  rewrite H0, ignoredDirs_lookup, H1, H2, H3. reflexivity.
Qed.

(** What the entries of a scanned directory establish holds at the end of
    the walk. *)
Lemma walkDir_scanned reach n d :
  scanned reach n d ->
  (forall l x es, d = Dir l x es ->
     forall r s0, Q (snd (walkEntries (walkFn lockReader) r d es s0))) ->
  forall path s, entered path ->
    Q (snd (walkDir (walkFn lockReader) reach path n s)).
Proof.
  intros Hsc Hd. induction Hsc as [reach l x es Hl | reach l x es name c d Hl Hin Hex Hsc IH];
    intros path s Hp; rewrite walkDir_dir; cbv zeta;
    rewrite (walkFn_entered path l x es s Hp), Hl.
  - apply (Hd l x es eq_refl).
  - apply (walkEntries_establish es (reach && x) (Dir l x es) s name c Hin).
    intros s0. apply (IH Hd). exact Hex.
Qed.
End Finds.

(** X5. The walk finds a manifest wherever it is allowed to look: when
    some directory that the walk lists (the root or a directory below it
    reached through listable, searchable directories with names that are
    not excluded) can be searched and holds a readable [composer.json]
    that decodes, a successful [DetectStack] reports a PHP version if the
    manifest requires a non-empty one and a Laravel version if it requires
    a non-empty one - possibly the version of another manifest read
    earlier, but never none.  The reader of [composer.lock] is assumed to
    keep what is set. *)
Theorem composer_manifest_is_found (lockReader : reader)
    (lock_keeps : forall dir s, keeps s (snd (lockReader dir s)))
    (root : node) (l : bool) (es : list (string * node))
    (data : fileData) (c : composerJSON) (st : DetectedStack) :
  scanned true root (Dir l true es) ->
  lookupEntry "composer.json" es = Some (File true data) ->
  asComposerJSON data = Some c ->
  DetectStack lockReader (Some root) = Ok st ->
  (forall v, cRequire c !! "php" = Some v -> v <> "" -> PHP st <> "")
  /\ (forall v, cRequire c !! "laravel/framework" = Some v -> v <> "" ->
        Laravel st <> "").
Proof.
  intros Hsc Hlook Hdec Hrun.
  assert (Hread : ReadFile (Some (Dir l true es)) "composer.json" = inl data)
    by (cbn [ReadFile negb]; rewrite Hlook; reflexivity).
  rewrite DetectStack_by_root_readers in Hrun.
  destruct (rootReaders (Some root) emptyStack) as [[e |] s3]; [discriminate |].
  injection Hrun as <-.
  assert (Hstable : forall f a b, keeps a b -> get f a <> "" -> get f b <> "").
  { intros f a b K H. rewrite (K f H). exact H. }
  assert (Hfind : forall (Q : DetectedStack -> Prop),
            (forall a b, keeps a b -> Q a -> Q b) ->
            (forall s0, Q (snd (detectFromComposer (Some (Dir l true es)) s0))) ->
            Q (snd (WalkDir (walkFn lockReader) (Some root) s3))).
  { intros Q Qs Qr. unfold WalkDir.
    pose proof (walkDir_scanned lockReader lock_keeps Q Qs true root _ Hsc) as H.
    pose proof (walkDir_no_error lockReader root true RootPath s3) as Hn.
    destruct (walkDir (walkFn lockReader) true RootPath root s3) as [[e |] s4] eqn:E;
      [discriminate Hn |].
    cbn [snd]. replace s4 with (snd (walkDir (walkFn lockReader) true RootPath root s3))
      by (rewrite E; reflexivity).
    apply H; [| exact I].
    intros l' x' es' [= <- <- <-] r s0.
    apply (walkEntries_establish lockReader lock_keeps Q Qs es r _ s0
             "composer.json" (File true data) (lookupEntry_In _ _ _ Hlook)).
    intros s1. rewrite walkDir_file. cbv zeta.
    cbn [entryOf isDir walkFn IsDir Name String.eqb Ascii.eqb Bool.eqb snd].
    apply Qr. }
  split; intros v Hv Hne.
  - apply (Hfind (fun s => PHP s <> "")); [apply (Hstable FPHP) |].
    intros s0. unfold detectFromComposer. rewrite Hread, Hdec. cbn [snd].
    rewrite Hv. destruct s0 as [php lar nuxt vue ui].
    destruct v as [| a v]; [congruence |].
    destruct (cConfigPlatform c) as [pl |];
      [destruct (pl !! "php") as [[| ? ?] |] |];
      destruct (cRequire c !! "laravel/framework") as [[| ? ?] |];
      destruct php, lar; cbn; discriminate.
  - apply (Hfind (fun s => Laravel s <> "")); [apply (Hstable FLaravel) |].
    intros s0. unfold detectFromComposer. rewrite Hread, Hdec. cbn [snd].
    rewrite Hv. destruct s0 as [php lar nuxt vue ui].
    destruct v as [| a v]; [congruence |].
    destruct (cConfigPlatform c) as [pl |];
      [destruct (pl !! "php") as [[| ? ?] |] |];
      destruct (cRequire c !! "php") as [[| ? ?] |];
      destruct php, lar; cbn; discriminate.
Qed.

(** The manifest of [services/api/] is the only one of the project. *)
Lemma composer_manifest_is_found_witness :
  DetectStack detectFromComposerLock_spec (Some nestedOnly)
  = Ok (mkStack "^8.1" "" "" "" "")
  /\ PHP (mkStack "^8.1" "" "" "" "") <> "".
Proof.
  assert (E : DetectStack detectFromComposerLock_spec (Some nestedOnly)
              = Ok (mkStack "^8.1" "" "" "" "")) by (vm_compute; reflexivity).
  split; [exact E |].
  refine (proj1 (composer_manifest_is_found detectFromComposerLock_spec
                   detectFromComposerLock_spec_keeps nestedOnly true
                   [("composer.json", File true (composerRequiringPHP "^8.1"))]
                   (composerRequiringPHP "^8.1")
                   (mkComposer {["php" := "^8.1"]} None) _ _ eq_refl eq_refl E)
            "^8.1" eq_refl _).
  - eapply scanned_below; [reflexivity | right; left; reflexivity | reflexivity |].
    eapply scanned_below; [reflexivity | left; reflexivity | reflexivity |].
    apply scanned_here. reflexivity.
  - discriminate.
Defined.

(** *** Entries the detector has no use for *)

Lemma lookupEntry_skip name es1 e es2 :
  fst e <> name ->
  lookupEntry name (es1 ++ e :: es2) = lookupEntry name (es1 ++ es2).
Proof.
  intros Hne. induction es1 as [| [nm c] es1 IH]; simpl.
  - destruct e as [nm c]. simpl in Hne.
    destruct (String.eqb_spec nm name); [contradiction | reflexivity].
  - destruct (String.eqb nm name); [reflexivity | exact IH].
Qed.

Lemma excluded_not_marker name : excludedName name = true -> isMarker name = false.
Proof.
  unfold isMarker. intros H.
  destruct (String.eqb_spec name "composer.json") as [-> | _]; [discriminate H |].
  destruct (String.eqb_spec name "composer.lock") as [-> | _]; [discriminate H |].
  destruct (String.eqb_spec name "package.json") as [-> | _]; [discriminate H |].
  destruct (String.eqb_spec name "package-lock.json") as [-> | _];
    [discriminate H | reflexivity].
Qed.

Lemma inert_not_marker e : inert e = true -> isMarker (fst e) = false.
Proof.
  unfold inert. destruct (isDir (snd e)).
  - apply excluded_not_marker.
  - apply negb_true_iff.
Qed.

Lemma ReadFile_skip l x es1 e es2 name :
  isMarker (fst e) = false -> isMarker name = true ->
  ReadFile (Some (Dir l x (es1 ++ e :: es2))) name
  = ReadFile (Some (Dir l x (es1 ++ es2))) name.
Proof.
  intros He Hn. cbn [ReadFile]. rewrite lookupEntry_skip; [reflexivity |].
  intros E. rewrite E, Hn in He. discriminate.
Qed.

Section Inert.
Variable lockReader : reader.
Hypothesis lock_local : forall d1 d2 s,
  ReadFile d1 "composer.lock" = ReadFile d2 "composer.lock" ->
  lockReader d1 s = lockReader d2 s.

(** Two directories that answer alike for the four marker files are the
    same to the walk function. *)
Lemma walkFn_markers p q name d e s :
  (forall m, isMarker m = true -> ReadFile (Some p) m = ReadFile (Some q) m) ->
  walkFn lockReader (ChildPath p name) d e s
  = walkFn lockReader (ChildPath q name) d e s.
Proof.
  intros H. unfold walkFn, detectFromComposer, detectFromPackageJson,
    detectFromPackageLockJson.
  rewrite (H "composer.json" eq_refl), (H "package.json" eq_refl),
    (H "package-lock.json" eq_refl).
  rewrite (lock_local (Some p) (Some q) s (H "composer.lock" eq_refl)).
  reflexivity.
Qed.

Lemma walkDir_markers p q name c reach s :
  (forall m, isMarker m = true -> ReadFile (Some p) m = ReadFile (Some q) m) ->
  walkDir (walkFn lockReader) reach (ChildPath p name) c s
  = walkDir (walkFn lockReader) reach (ChildPath q name) c s.
Proof.
  intros H.
  assert (E : forall d e t,
            walkFn lockReader (ChildPath p name) d e t
            = walkFn lockReader (ChildPath q name) d e t)
    by (intros d e t; apply walkFn_markers; exact H).
  destruct c as [r data | l x es].
  - rewrite !walkDir_file. cbv zeta. cbn [entryOf]. rewrite E. reflexivity.
  - rewrite !walkDir_dir. cbv zeta. cbn [entryOf]. rewrite !E. reflexivity.
Qed.

(** The walk passes over an entry it has no use for. *)
Lemma walkDir_inert parent e reach s :
  inert e = true ->
  walkDir (walkFn lockReader) reach (ChildPath parent (fst e)) (snd e) s = (None, s).
Proof.
  destruct e as [name [r data | l x es]]; unfold inert; cbn [fst snd isDir].
  - intros H. apply negb_true_iff in H. unfold isMarker in H.
    apply orb_false_elim in H as [H H4]. apply orb_false_elim in H as [H H3].
    apply orb_false_elim in H as [H1 H2].
    rewrite walkDir_file. cbv zeta. cbn [entryOf isDir walkFn IsDir Name].
    rewrite H1, H2, H3, H4. reflexivity.
  - intros H. apply walkDir_excluded. exact H.
Qed.

Lemma walkEntries_inert p q es1 e es2 reach s :
  inert e = true ->
  (forall m, isMarker m = true -> ReadFile (Some p) m = ReadFile (Some q) m) ->
  walkEntries (walkFn lockReader) reach p (es1 ++ e :: es2) s
  = walkEntries (walkFn lockReader) reach q (es1 ++ es2) s.
Proof.
  intros He H. revert s.
  assert (Hrest : forall es s,
            walkEntries (walkFn lockReader) reach p es s
            = walkEntries (walkFn lockReader) reach q es s).
  { induction es as [| [nm c] es IH]; intros s; [reflexivity |].
    cbn [walkEntries]. rewrite (walkDir_markers p q nm c reach s H).
    destruct (walkDir (walkFn lockReader) reach (ChildPath q nm) c s)
      as [[[] |] s1]; try reflexivity. apply IH. }
  induction es1 as [| [nm c] es1 IH]; intros s.
  - destruct e as [name c]. cbn [app walkEntries].
    pose proof (walkDir_inert p (name, c) reach s He) as Hi.
    cbn [fst snd] in Hi. rewrite Hi. apply Hrest.
  - cbn [app walkEntries]. rewrite (walkDir_markers p q nm c reach s H).
    destruct (walkDir (walkFn lockReader) reach (ChildPath q nm) c s)
      as [[[] |] s1]; try reflexivity. apply IH.
Qed.

End Inert.

(** X6. What the generator writes does not feed back into detection: an
    entry of the project root that is an excluded directory (such as
    [.github]) or a regular file that is not one of the four marker files
    (such as [AGENTS.md]) can be added to the root or removed from it, at
    any position of the listing, without changing the result of
    [DetectStack].  The reader of [composer.lock] is assumed to look only
    at the [composer.lock] of the directory it is given. *)
Theorem detection_ignores_inert_entries (lockReader : reader)
    (lock_local : forall d1 d2 s,
       ReadFile d1 "composer.lock" = ReadFile d2 "composer.lock" ->
       lockReader d1 s = lockReader d2 s)
    (canList canSearch : bool) (before after : list (string * node))
    (e : string * node) :
  inert e = true ->
  DetectStack lockReader (Some (Dir canList canSearch (before ++ e :: after)))
  = DetectStack lockReader (Some (Dir canList canSearch (before ++ after))).
Proof.
  intros He.
  rename canList into l, canSearch into x, before into es1, after into es2.
  assert (H : forall m, isMarker m = true ->
                ReadFile (Some (Dir l x (es1 ++ e :: es2))) m
                = ReadFile (Some (Dir l x (es1 ++ es2))) m)
    by (intros m Hm; apply ReadFile_skip;
        [apply inert_not_marker; exact He | exact Hm]).
  unfold DetectStack, detectFromComposer, detectFromPackageJson,
    detectFromPackageLockJson.
  rewrite (H "composer.json" eq_refl), (H "package.json" eq_refl),
    (H "package-lock.json" eq_refl).
  fold (detectFromComposer (Some (Dir l x (es1 ++ es2))) emptyStack).
  destruct (detectFromComposer (Some (Dir l x (es1 ++ es2))) emptyStack)
    as [[e1 |] s1]; [reflexivity |].
  fold (detectFromPackageJson (Some (Dir l x (es1 ++ es2))) s1).
  destruct (detectFromPackageJson (Some (Dir l x (es1 ++ es2))) s1)
    as [[e2 |] s2]; [reflexivity |].
  fold (detectFromPackageLockJson (Some (Dir l x (es1 ++ es2))) s2).
  destruct (detectFromPackageLockJson (Some (Dir l x (es1 ++ es2))) s2)
    as [[e3 |] s3]; [reflexivity |].
  unfold WalkDir. rewrite !walkDir_dir. cbv zeta. cbn [entryOf walkFn].
  destruct (true && l); [| reflexivity].
  rewrite (walkEntries_inert lockReader lock_local _ (Dir l x (es1 ++ es2))
             es1 e es2 _ s3 He H).
  reflexivity.
Qed.

(** The project [rootAndNested] with [.github/] and [AGENTS.md] added. *)
Lemma detection_ignores_inert_entries_witness :
  DetectStack detectFromComposerLock_spec
    (Some (Dir true true
       ([generatedGithub] ++ generatedAgents
          :: [("api", Dir true true
                 [("composer.json", File true (composerRequiringPHP "8.3"))]);
              ("composer.json", File true (composerRequiringPHP "8.2"))])))
  = DetectStack detectFromComposerLock_spec
      (Some (Dir true true
         ([generatedGithub]
            ++ [("api", Dir true true
                   [("composer.json", File true (composerRequiringPHP "8.3"))]);
                ("composer.json", File true (composerRequiringPHP "8.2"))]))).
Proof.
  apply (detection_ignores_inert_entries detectFromComposerLock_spec
           detectFromComposerLock_spec_local).
  reflexivity.
Defined.

(** *** Where the versions come from *)

Lemma within_child root l x es name c :
  within root (Dir l x es) -> In (name, c) es -> within root c.
Proof.
  intros H. remember (Dir l x es) as n eqn:En. revert l x es En.
  induction H as [n | l' x' es' name' c' d Hin' _ IH]; intros l x es -> Hin.
  - apply (within_below l x es name c c Hin). constructor.
  - apply (within_below l' x' es' name' c' c Hin'). apply (IH l x es eq_refl Hin).
Qed.

(** A property of the state that every call of the walk function on a
    path of the tree preserves is preserved by the walk. *)
Section Inside.
Context {St : Type}.
Variable fn :
  walkPath -> option DirEntry -> option error -> St -> option walkErr * St.
Variable root : node.
Variable P : St -> Prop.
Hypothesis fn_inside : forall p d e s, inside root p -> P s -> P (snd (fn p d e s)).

Lemma walkDir_inside n :
  within root n ->
  forall reach path s, inside root path -> P s ->
    P (snd (walkDir fn reach path n s)).
Proof.
  induction n as [r data | l x es IH] using node_induction;
    intros Hn reach path s Hp Hs.
  - rewrite walkDir_file. cbv zeta.
    pose proof (fn_inside path (Some (entryOf path (File r data))) None s Hp Hs) as H.
    destruct (fn path _ None s) as [[e |] s1]; exact H.
  - rewrite walkDir_dir. cbv zeta.
    pose proof (fn_inside path (Some (entryOf path (Dir l x es))) None s Hp Hs) as H.
    destruct (fn path _ None s) as [[e |] s1]; [exact H |].
    cbn [snd] in H.
    assert (Hent : forall rest,
              Forall (fun e => within root (snd e) ->
                        forall reach path s, inside root path -> P s ->
                          P (snd (walkDir fn reach path (snd e) s))) rest ->
              (forall nm c, In (nm, c) rest -> within root c) ->
              forall s2, P s2 ->
                P (snd (walkEntries fn (reach && x) (Dir l x es) rest s2))).
    { induction 1 as [| [nm c] rest Hc _ IHrest]; intros Hin s2 Hs2;
        [exact Hs2 |].
      cbn [walkEntries]. cbn [snd] in Hc.
      specialize (Hc (Hin nm c (or_introl eq_refl)) (reach && x)
                    (ChildPath (Dir l x es) nm) s2 Hn Hs2).
      destruct (walkDir fn (reach && x) _ c s2) as [[[] |] s3];
        cbn [snd] in *; try exact Hc.
      apply IHrest; [| exact Hc].
      intros nm' c' H'. apply (Hin nm' c'). right. exact H'. }
    destruct (reach && l).
    + apply (Hent es IH); [| exact H].
      intros nm c Hin. exact (within_child root l x es nm c Hn Hin).
    + pose proof (fn_inside path (Some (entryOf path (Dir l x es)))
                    (Some EACCES) s1 Hp H) as H'.
      destruct (fn path _ (Some EACCES) s1) as [[e |] s2]; cbn [snd] in *;
        exact H'.
Qed.
End Inside.

Section Sources.
Variable lockReader : reader.
Hypothesis lock_frame :
  forall dir s, exists v, snd (lockReader dir s) = setLaravel v s.
Variable root : node.

Lemma detectFromComposer_sourced d s :
  within root d -> sourced root s ->
  sourced root (snd (detectFromComposer (Some d) s)).
Proof.
  intros Hd Hs. unfold detectFromComposer.
  destruct (ReadFile (Some d) "composer.json") as [data | err] eqn:Er;
    [| destruct (IsNotExist err); exact Hs].
  destruct (asComposerJSON data) as [c |] eqn:Ec; [| exact Hs].
  assert (Hsrc : forall v,
            (exists platform,
               cConfigPlatform c = Some platform /\ platform !! "php" = Some v)
            \/ cRequire c !! "php" = Some v ->
            phpSource root v)
    by (intros v Hv; exists d, data, c; auto).
  destruct s as [php lar nuxt vue ui].
  destruct Hs as (H1 & H2 & H3 & H4). cbn [PHP Nuxt Vue NuxtUI] in *.
  destruct (cConfigPlatform c) as [pl |] eqn:Ep;
    [destruct (pl !! "php") as [[| a v] |] eqn:Epp |];
    destruct (cRequire c !! "php") as [[| a' v'] |] eqn:Erp;
    destruct (cRequire c !! "laravel/framework") as [w |];
    destruct php as [| p0 p1], lar as [| l0 l1];
    cbn; (split; [| split; [| split]]); try assumption;
    intros _; try (apply H1; discriminate);
    apply Hsrc; eauto.
Qed.

Lemma detectFromPackageJson_sourced d s :
  within root d -> sourced root s ->
  sourced root (snd (detectFromPackageJson (Some d) s)).
Proof.
  intros Hd Hs. unfold detectFromPackageJson.
  destruct (ReadFile (Some d) "package.json") as [data | err] eqn:Er;
    [| destruct (IsNotExist err); exact Hs].
  destruct (asPackageJSON data) as [p |] eqn:Ep; [| exact Hs].
  assert (Hsrc : forall name v, getDep p name = Some v -> packageSource root name v)
    by (intros name v Hv; exists d, data, p; auto).
  destruct s as [php lar nuxt vue ui].
  destruct Hs as (H1 & H2 & H3 & H4). cbn [PHP Nuxt Vue NuxtUI] in *.
  destruct (getDep p "nuxt") as [a |] eqn:Ea,
           (getDep p "vue") as [b |] eqn:Eb,
           (getDep p "@nuxt/ui") as [c |] eqn:Ec;
    destruct nuxt as [| n0 n1], vue as [| v0 v1], ui as [| u0 u1];
    cbn; (split; [| split; [| split]]); try assumption;
    intros _;
    first [ apply H2; discriminate | apply H3; discriminate
          | apply H4; discriminate | left; apply Hsrc; assumption
          | apply Hsrc; assumption ].
Qed.

Lemma detectFromPackageLockJson_sourced d s :
  within root d -> sourced root s ->
  sourced root (snd (detectFromPackageLockJson (Some d) s)).
Proof.
  intros Hd Hs. unfold detectFromPackageLockJson.
  destruct (ReadFile (Some d) "package-lock.json") as [data | err] eqn:Er;
    [| destruct (IsNotExist err); exact Hs].
  destruct (asLockFile data) as [lock |] eqn:El; [| exact Hs].
  destruct (isEmpty (NuxtUI s)) eqn:Eu; [| exact Hs].
  assert (Hsrc : forall v,
            ldVersion <$> lDependencies lock !! "@nuxt/ui" = Some v
            \/ lpVersion <$> lPackages lock !! "node_modules/@nuxt/ui" = Some v ->
            lockSource root v)
    by (intros v Hv; exists d, data, lock; auto).
  assert (Hpin : forall o v, pinned o = Some v -> o = Some v).
  { intros [u |] v; cbn; [| discriminate].
    destruct (isEmpty u); [discriminate | intros [= ->]; reflexivity]. }
  destruct Hs as (H1 & H2 & H3 & H4).
  destruct (pinned (ldVersion <$> lDependencies lock !! "@nuxt/ui")) as [v |] eqn:E1.
  { cbn [snd]. destruct s as [php lar nuxt vue ui]. cbn in *.
    repeat split; try assumption. intros _. right. apply Hsrc. left.
    apply Hpin. exact E1. }
  destruct (pinned (lpVersion <$> lPackages lock !! "node_modules/@nuxt/ui"))
    as [v |] eqn:E2.
  { cbn [snd]. destruct s as [php lar nuxt vue ui]. cbn in *.
    repeat split; try assumption. intros _. right. apply Hsrc. right.
    apply Hpin. exact E2. }
  cbn [snd]. repeat split; assumption.
Qed.

Lemma lockReader_sourced dir s :
  sourced root s -> sourced root (snd (lockReader dir s)).
Proof.
  intros Hs. destruct (lock_frame dir s) as (v & ->).
  destruct s as [php lar nuxt vue ui]. exact Hs.
Qed.

Lemma walkFn_sourced p d e s :
  inside root p -> sourced root s -> sourced root (snd (walkFn lockReader p d e s)).
Proof.
  intros Hp Hs. unfold walkFn.
  destruct e as [e |]; [exact Hs |].
  destruct p as [| dir name]; [exact Hs |].
  destruct d as [d |]; [| exact Hs]. cbn [inside] in Hp.
  destruct (IsDir d).
  - destruct (HasPrefix (Name d) "."); [exact Hs |].
    destruct (default false (ignoredDirs !! Name d)); exact Hs.
  - destruct (String.eqb (Name d) "composer.json");
      [cbn [snd]; apply detectFromComposer_sourced; assumption |].
    destruct (String.eqb (Name d) "composer.lock");
      [cbn [snd]; apply lockReader_sourced; assumption |].
    destruct (String.eqb (Name d) "package.json");
      [cbn [snd]; apply detectFromPackageJson_sourced; assumption |].
    destruct (String.eqb (Name d) "package-lock.json");
      [cbn [snd]; apply detectFromPackageLockJson_sourced; assumption |].
    exact Hs.
Qed.

End Sources.

(** X20. No version is made up: in the stack that a successful
    [DetectStack] returns, a non-empty PHP version is the platform
    override or the requirement of some [composer.json] of the project
    tree, a non-empty Nuxt or Vue version is listed for that package in
    some [package.json] of the tree, and a non-empty Nuxt UI version is
    listed in some [package.json] or pinned in some [package-lock.json] of
    the tree.  The reader of [composer.lock] is assumed to change nothing
    but the Laravel field. *)
Theorem detected_versions_have_a_source (lockReader : reader)
    (lock_frame : forall dir s, exists v, snd (lockReader dir s) = setLaravel v s)
    (root : node) (st : DetectedStack) :
  DetectStack lockReader (Some root) = Ok st ->
  (PHP st <> "" -> phpSource root (PHP st))
  /\ (Nuxt st <> "" -> packageSource root "nuxt" (Nuxt st))
  /\ (Vue st <> "" -> packageSource root "vue" (Vue st))
  /\ (NuxtUI st <> "" ->
      packageSource root "@nuxt/ui" (NuxtUI st) \/ lockSource root (NuxtUI st)).
Proof.
  unfold DetectStack. cbv zeta.
  assert (H0 : sourced root emptyStack)
    by (repeat split; intros H; contradiction H; reflexivity).
  pose proof (detectFromComposer_sourced root root emptyStack (within_here root) H0)
    as H1.
  destruct (detectFromComposer (Some root) emptyStack) as [[e1 |] s1];
    [discriminate |]. cbn [snd] in H1.
  pose proof (detectFromPackageJson_sourced root root s1 (within_here root) H1) as H2.
  destruct (detectFromPackageJson (Some root) s1) as [[e2 |] s2];
    [discriminate |]. cbn [snd] in H2.
  pose proof (detectFromPackageLockJson_sourced root root s2 (within_here root) H2)
    as H3.
  destruct (detectFromPackageLockJson (Some root) s2) as [[e3 |] s3];
    [discriminate |]. cbn [snd] in H3.
  pose proof (walkDir_inside (walkFn lockReader) root (sourced root)
                (walkFn_sourced lockReader lock_frame root) root
                (within_here root) true RootPath s3 I H3)
    as H4.
  unfold WalkDir.
  destruct (walkDir (walkFn lockReader) true RootPath root s3) as [[[| | e] |] s4];
    cbn [snd] in H4; try discriminate; intros [= <-]; exact H4.
Qed.

Lemma detectFromComposerLock_spec_frame dir s :
  exists v, snd (detectFromComposerLock_spec dir s) = setLaravel v s.
Proof.
  unfold detectFromComposerLock_spec. destruct s as [php lar nuxt vue ui].
  destruct (ReadFile dir "composer.lock") as [data | err];
    [| exists lar; destruct (IsNotExist err); reflexivity].
  destruct (asComposerLock data) as [lock |]; [| exists lar; reflexivity].
  destruct (isEmpty (Laravel _)); [| exists lar; reflexivity].
  destruct (pinned _) as [v |]; [exists v | exists lar]; reflexivity.
Qed.

(** The PHP version of [nestedOnly] comes from the manifest below the
    root. *)
Lemma detected_versions_have_a_source_witness :
  exists st,
    DetectStack detectFromComposerLock_spec (Some nestedOnly) = Ok st
    /\ PHP st <> "" /\ phpSource nestedOnly (PHP st).
Proof.
  eexists. split; [reflexivity |]. split; [discriminate |].
  apply (detected_versions_have_a_source detectFromComposerLock_spec
           detectFromComposerLock_spec_frame nestedOnly _ eq_refl).
  discriminate.
Defined.

End DetectMoreFacts.

(** ** More on the generator over the embedded store *)

Module CmdMoreFacts.
Import GoStrings GoStringsFacts Detect Cmd CmdFacts CmdFlags.

(** *** Every resolved identifier exists *)

Section Exist.
Variable embeddedFS : Rules.FS.

Let exists_ (id : string) : Prop := ruleExists embeddedFS id = true.
Let existsA (af : agentFile) : Prop := ruleExists embeddedFS (ID af) = true.

Lemma Forall_snoc {A} (P : A -> Prop) l x : Forall P l -> P x -> Forall P (l ++ [x]).
Proof.
  intros Hl Hx. apply Forall_app. split; [exact Hl |].
  constructor; [exact Hx | constructor].
Qed.

Lemma addIfExists_exist ids id :
  Forall exists_ ids -> Forall exists_ (addIfExists embeddedFS ids id).
Proof.
  intros H. unfold addIfExists.
  destruct (ruleExists embeddedFS id) eqn:E; [| exact H].
  apply Forall_snoc; [exact H | exact E].
Qed.

Lemma addRulesFor_exist ids name version :
  Forall exists_ ids -> Forall exists_ (addRulesFor embeddedFS ids name version).
Proof.
  intros H. unfold addRulesFor.
  destruct (isEmpty version); [exact H |].
  destruct (isEmpty (normalizeVersion version)); [apply addIfExists_exist; exact H |].
  destruct (negb (isEmpty (majorOf (normalizeVersion version)))
            && negb (isEmpty (minorOf (normalizeVersion version))));
    destruct (negb (isEmpty (majorOf (normalizeVersion version))));
    repeat apply addIfExists_exist; exact H.
Qed.

Lemma buildGeneralRulesFromDetection_exist stack :
  Forall exists_ (buildGeneralRulesFromDetection embeddedFS stack).
Proof.
  unfold buildGeneralRulesFromDetection. repeat apply addRulesFor_exist. constructor.
Qed.

Lemma addAgentFor_exist files label name version :
  Forall existsA files ->
  Forall existsA (addAgentFor embeddedFS files label name version).
Proof.
  intros H. unfold addAgentFor.
  destruct (isEmpty version); [exact H |]. cbv zeta.
  destruct (negb (isEmpty (majorOf (normalizeVersion version))));
    destruct (negb (isEmpty (minorOf (normalizeVersion version))));
    cbn [andb];
    repeat match goal with
           | |- context [ruleExists embeddedFS ?id] =>
               let E := fresh "E" in
               destruct (ruleExists embeddedFS id) eqn:E
           end;
    try exact H; apply Forall_snoc; try exact H; assumption.
Qed.

Lemma buildAgentRulesFromDetection_exist stack :
  Forall existsA (buildAgentRulesFromDetection embeddedFS stack).
Proof.
  unfold buildAgentRulesFromDetection. repeat apply addAgentFor_exist. constructor.
Qed.

(** The second attempt of [buildGeneralRulesFromFlags] repeats the first:
    a flag gives [r/general] when that exists, else [r] when that
    exists. *)
Lemma generalFlagStep_flag ids r :
  generalFlagStep embeddedFS ids r = ids ++ generalOfFlag embeddedFS r.
Proof.
  unfold generalFlagStep, generalOfFlag, ToSlash. cbv zeta.
  destruct (isEmpty (TrimSpace r)); [rewrite List.app_nil_r; reflexivity |].
  destruct (ruleExists embeddedFS (TrimSpace r +:+ "/general")); [reflexivity |].
  destruct (ruleExists embeddedFS (TrimSpace r)); [reflexivity |].
  rewrite List.app_nil_r; reflexivity.
Qed.

Lemma generalFlags_fold flagRules ids :
  fold_left (generalFlagStep embeddedFS) flagRules ids
  = ids ++ flat_map (generalOfFlag embeddedFS) flagRules.
Proof.
  revert ids. induction flagRules as [| r rest IH]; intros ids.
  - simpl. rewrite List.app_nil_r. reflexivity.
  - simpl. rewrite IH, generalFlagStep_flag, <- List.app_assoc. reflexivity.
Qed.

Lemma generalOfFlag_exist r : Forall exists_ (generalOfFlag embeddedFS r).
Proof.
  unfold generalOfFlag. cbv zeta.
  destruct (isEmpty (TrimSpace r)); [constructor |].
  destruct (ruleExists embeddedFS (TrimSpace r +:+ "/general")) eqn:E1;
    [constructor; [exact E1 | constructor] |].
  destruct (ruleExists embeddedFS (TrimSpace r)) eqn:E2;
    [constructor; [exact E2 | constructor] | constructor].
Qed.

Lemma buildGeneralRulesFromFlags_exist flagRules :
  Forall exists_ (buildGeneralRulesFromFlags embeddedFS flagRules).
Proof.
  unfold buildGeneralRulesFromFlags. rewrite generalFlags_fold. cbn [app].
  induction flagRules as [| r rest IH]; [constructor |].
  cbn [flat_map]. apply Forall_app. split; [apply generalOfFlag_exist | exact IH].
Qed.

Lemma agentFlags_exist flagRules files :
  Forall existsA files ->
  Forall existsA (fold_left (agentFlagStep embeddedFS) flagRules files).
Proof.
  revert files. induction flagRules as [| r rest IH]; intros files H; [exact H |].
  cbn [fold_left]. apply IH. unfold agentFlagStep. cbv zeta.
  destruct (isEmpty (ToSlash (TrimSpace r))); [exact H |].
  destruct (ruleExists embeddedFS (ToSlash (TrimSpace r) +:+ "/agent")) eqn:E;
    [| exact H].
  apply Forall_snoc; [exact H | exact E].
Qed.

Lemma selectRules_exist flagRules stack :
  Forall exists_ (fst (selectRules embeddedFS flagRules stack))
  /\ Forall existsA (snd (selectRules embeddedFS flagRules stack)).
Proof.
  unfold selectRules. destruct (anyRuleFlagsSet flagRules); cbn [fst snd]; split.
  - apply buildGeneralRulesFromFlags_exist.
  - apply agentFlags_exist. constructor.
  - apply buildGeneralRulesFromDetection_exist.
  - apply buildAgentRulesFromDetection_exist.
Qed.

(** The merge of identifiers that exist writes their contents and
    nothing else. *)
Lemma merge_existing ids :
  Forall exists_ ids ->
  exists contents,
    Forall2 (fun id data => Rules.Get embeddedFS id = Some data) ids contents
    /\ map (generalPiece embeddedFS) ids = contents.
Proof.
  induction 1 as [| id ids Hid _ (contents & Hc & Hm)].
  - exists []. split; [constructor | reflexivity].
  - unfold exists_, ruleExists in Hid.
    destruct (Rules.Get embeddedFS id) as [data |] eqn:E; [| discriminate Hid].
    exists (data :: contents). split; [constructor; assumption |].
    cbn [map]. unfold generalPiece at 1. rewrite E, Hm. reflexivity.
Qed.

Lemma agents_existing files :
  Forall existsA files ->
  exists contents,
    Forall2 (fun af data => Rules.Get embeddedFS (ID af) = Some data) files contents
    /\ map (agentPiece embeddedFS) files
       = zip_with (fun af data => "## " +:+ Label af +:+ LF +:+ LF +:+ data)
           files contents.
Proof.
  induction 1 as [| af files Haf _ (contents & Hc & Hm)].
  - exists []. split; [constructor | reflexivity].
  - unfold existsA, ruleExists in Haf.
    destruct (Rules.Get embeddedFS (ID af)) as [data |] eqn:E; [| discriminate Haf].
    exists (data :: contents). split; [constructor; assumption |].
    cbn [map zip_with]. unfold agentPiece at 1. rewrite E, Hm. reflexivity.
Qed.
End Exist.

(** X7. Every identifier that [generate] selects exists in the embedded
    store, in auto mode and in manual mode, for the general rules and for
    the agent rules alike. *)
Theorem selected_rules_exist (embeddedFS : Rules.FS) (flagRules : list string)
    (stack : DetectedStack) :
  Forall (fun id => ruleExists embeddedFS id = true)
    (buildGeneralRulesFromDetection embeddedFS stack)
  /\ Forall (fun af => ruleExists embeddedFS (ID af) = true)
       (buildAgentRulesFromDetection embeddedFS stack)
  /\ Forall (fun id => ruleExists embeddedFS id = true)
       (buildGeneralRulesFromFlags embeddedFS flagRules)
  /\ Forall (fun af => ruleExists embeddedFS (ID af) = true)
       (buildAgentRulesFromFlags embeddedFS flagRules).
Proof.
  split; [apply buildGeneralRulesFromDetection_exist |].
  split; [apply buildAgentRulesFromDetection_exist |].
  split; [apply buildGeneralRulesFromFlags_exist |].
  apply agentFlags_exist. constructor.
Qed.

(** Once something is written, every further piece comes after the
    separator. *)
Lemma written_from pieces :
  forall b, b <> "" ->
    fold_left written pieces b = String.concat separator (b :: pieces).
Proof.
  induction pieces as [| p rest IH]; intros b Hb; [reflexivity |].
  assert (Hw : written b p = b +:+ separator +:+ p).
  { unfold written. rewrite (proj2 (isEmpty_false b) Hb). cbn [negb].
    apply sapp_assoc. }
  cbn [fold_left]. rewrite Hw, IH.
  2: { apply isEmpty_false. rewrite isEmpty_app, (proj2 (isEmpty_false b) Hb).
       reflexivity. }
  rewrite (concat_cons separator b p rest).
  destruct rest as [| q rest]; [reflexivity |].
  rewrite !concat_cons, !sapp_assoc. reflexivity.
Qed.

(** The general merge joins the pieces by the separator, from the first
    piece that is not empty on: while the builder is empty no separator
    is written. *)
Lemma joinWritten_join pieces :
  joinWritten pieces = Join (skipEmpty pieces) separator.
Proof.
  unfold joinWritten, Join. induction pieces as [| p rest IH]; [reflexivity |].
  assert (Hw : written "" p = p).
  { unfold written. cbn [isEmpty negb]. apply sapp_nil_l. }
  cbn [fold_left skipEmpty]. rewrite Hw. destruct p as [| c p]; [exact IH |].
  cbn [isEmpty]. apply written_from. discriminate.
Qed.

(** A rule file that is empty and comes first leaves no separator
    behind. *)
Example joinWritten_leading_empty :
  joinWritten [""; "a"; "b"] = "a" +:+ separator +:+ "b"
  /\ joinWritten ["a"; ""; "b"] = "a" +:+ separator +:+ separator +:+ "b".
Proof. split; reflexivity. Qed.

(** X8. The documents of [generate] hold rule content only: whichever
    mode selects the rules, the general merge returns no error and the
    contents of the selected rules written one after the other, each
    after the separator unless nothing has been written yet, which makes
    it the contents from the first non-empty one on, joined by the
    separator; and the agents document is its fixed head followed by one
    headed section per selected agent file with the content of that
    file, the sections joined by the separator.  The placeholder for a
    missing rule is written in neither. *)
Theorem generated_documents_hold_rule_content (embeddedFS : Rules.FS)
    (flagRules : list string) (stack : DetectedStack) :
  let ids := fst (selectRules embeddedFS flagRules stack) in
  let files := snd (selectRules embeddedFS flagRules stack) in
  (exists contents,
     Forall2 (fun id data => Rules.Get embeddedFS id = Some data) ids contents
     /\ loadAndMergeRules embeddedFS ids = (joinWritten contents, None)
     /\ joinWritten contents = Join (skipEmpty contents) separator)
  /\ (exists contents,
        Forall2 (fun af data => Rules.Get embeddedFS (ID af) = Some data)
          files contents
        /\ buildAgentContent embeddedFS files
           = agentsHeader
               +:+ Join (zip_with
                           (fun af data => "## " +:+ Label af +:+ LF +:+ LF +:+ data)
                           files contents) separator).
Proof.
  intros ids files. subst ids files.
  destruct (selectRules_exist embeddedFS flagRules stack) as [Hi Hf].
  split.
  - destruct (merge_existing embeddedFS _ Hi) as (contents & Hc & Hm).
    exists contents. split; [exact Hc |]. split; [| apply joinWritten_join].
    unfold loadAndMergeRules. rewrite merge_fold, Hm.
    reflexivity.
  - destruct (agents_existing embeddedFS _ Hf) as (contents & Hc & Hm).
    exists contents. split; [exact Hc |].
    rewrite buildAgentContent_pieces, Hm. reflexivity.
Qed.

(** *** The stack section *)

Lemma addRulesFor_blank fs ids name : addRulesFor fs ids name "" = ids.
Proof. reflexivity. Qed.

Lemma buildStackSection_filled stack :
  (PHP stack <> "" \/ Laravel stack <> "" \/ Nuxt stack <> "" \/ Vue stack <> ""
   \/ NuxtUI stack <> "") ->
  isEmpty (buildStackSection (Some stack)) = false.
Proof.
  intros H. unfold buildStackSection.
  destruct (isEmpty (PHP stack)) eqn:E1, (isEmpty (Laravel stack)) eqn:E2,
    (isEmpty (Nuxt stack)) eqn:E3, (isEmpty (Vue stack)) eqn:E4,
    (isEmpty (NuxtUI stack)) eqn:E5; try reflexivity.
  apply isEmpty_true in E1, E2, E3, E4, E5. tauto.
Qed.

Lemma buildGeneralRulesFromDetection_filled fs stack :
  buildGeneralRulesFromDetection fs stack <> [] ->
  PHP stack <> "" \/ Laravel stack <> "" \/ Nuxt stack <> "" \/ Vue stack <> ""
  \/ NuxtUI stack <> "".
Proof.
  intros H.
  destruct (isEmpty (PHP stack)) eqn:E1; [| left; apply isEmpty_false; exact E1].
  destruct (isEmpty (Laravel stack)) eqn:E2;
    [| right; left; apply isEmpty_false; exact E2].
  destruct (isEmpty (Nuxt stack)) eqn:E3;
    [| right; right; left; apply isEmpty_false; exact E3].
  destruct (isEmpty (Vue stack)) eqn:E4;
    [| right; right; right; left; apply isEmpty_false; exact E4].
  destruct (isEmpty (NuxtUI stack)) eqn:E5;
    [| right; right; right; right; apply isEmpty_false; exact E5].
  exfalso. apply H. unfold buildGeneralRulesFromDetection, addRulesFor.
  rewrite E1, E2, E3, E4, E5. reflexivity.
Qed.

(** X9. In auto mode a general document always begins with the stack
    section: when rules resolve, some field of the stack is non-empty, so
    the section is non-empty and the document is the section, the
    separator and the merged rules; the branch that writes the merged
    rules alone is never taken. *)
Theorem stack_section_heads_document (embeddedFS : Rules.FS)
    (stack : DetectedStack) (doc : string) :
  renderGeneral embeddedFS stack = Some doc ->
  buildStackSection (Some stack) <> ""
  /\ HasPrefix (buildStackSection (Some stack)) "## Stack" = true
  /\ doc = buildStackSection (Some stack) +:+ separator
             +:+ fst (loadAndMergeRules embeddedFS
                        (buildGeneralRulesFromDetection embeddedFS stack)).
Proof.
  unfold renderGeneral. cbv zeta.
  destruct (buildGeneralRulesFromDetection embeddedFS stack) as [| id ids] eqn:E;
    [discriminate |].
  assert (Hne : buildGeneralRulesFromDetection embeddedFS stack <> [])
    by (rewrite E; discriminate).
  pose proof (buildStackSection_filled stack
                (buildGeneralRulesFromDetection_filled _ _ Hne)) as Hs.
  cbn [length Nat.ltb Nat.leb loadAndMergeRules]. rewrite Hs. cbn [negb fst].
  intros [= <-]. split; [apply isEmpty_false; exact Hs |]. split; [| reflexivity].
  revert Hs. unfold buildStackSection.
  destruct (length _ =? 0); [discriminate | reflexivity].
Qed.

Lemma stack_section_heads_document_witness :
  exists doc,
    renderGeneral store53 (mkStack "5.3" "" "" "" "") = Some doc
    /\ HasPrefix doc "## Stack" = true.
Proof.
  eexists. split; [reflexivity |].
  destruct (stack_section_heads_document store53 (mkStack "5.3" "" "" "" "") _
              eq_refl) as (_ & _ & ->).
  reflexivity.
Defined.

(** *** Version normalization, again *)

(** X10. [normalizeVersion] is idempotent: a normalized version
    normalizes to itself. *)
Theorem normalizeVersion_idempotent (v : string) :
  normalizeVersion (normalizeVersion v) = normalizeVersion v.
Proof.
  assert (Hc : allChars isDigitOrDot (normalizeVersion v) = true).
  { unfold normalizeVersion.
    destruct (isEmpty (TrimSpace v)); [reflexivity | apply digitsAndDots_chars]. }
  destruct (normalizeVersion v) as [| c w] eqn:E; [reflexivity |].
  pose proof (normalizeVersion_core "" "" (String c w) "" eq_refl eq_refl Hc) as H.
  rewrite !sapp_nil_l, sapp_nil_r in H. apply H; [discriminate | reflexivity].
Qed.

(** *** Labels *)

Lemma TrimSuffix_app r suf : TrimSuffix (r +:+ suf) suf = r.
Proof.
  induction r as [| c r IH].
  - rewrite sapp_nil_l. destruct suf as [| c suf]; [reflexivity |].
    cbn [TrimSuffix]. rewrite String.eqb_refl. reflexivity.
  - rewrite sapp_cons. cbn [TrimSuffix].
    destruct (String.eqb_spec (String c (r +:+ suf)) suf) as [E | _].
    + exfalso. apply (f_equal String.length) in E.
      cbn [String.length] in E. rewrite sapp_length in E. lia.
    + rewrite IH. reflexivity.
Qed.

Lemma TrimSuffix_agent_general r :
  TrimSuffix (r +:+ "/agent") "/general" = r +:+ "/agent".
Proof.
  induction r as [| c r IH]; [reflexivity |].
  rewrite sapp_cons. cbn [TrimSuffix].
  destruct (String.eqb_spec (String c (r +:+ "/agent")) "/general") as [E | _].
  - exfalso. injection E as _ E.
    destruct r as [| x [| y r]]; rewrite ?sapp_cons, ?sapp_nil_l in E;
      try discriminate E.
    apply (f_equal String.length) in E.
    cbn [String.length] in E. rewrite sapp_length in E. cbn [String.length] in E.
    lia.
  - rewrite IH. reflexivity.
Qed.

Lemma splitLoop_slash cur r :
  String.concat " " (splitLoop "/" 0 cur r) = cur +:+ slashesToBlanks r.
Proof.
  revert cur. induction r as [| c r IH]; intros cur.
  - cbn [splitLoop String.concat slashesToBlanks]. rewrite sapp_nil_r. reflexivity.
  - cbn [splitLoop String.prefix String.length Nat.sub slashesToBlanks].
    destruct (ascii_dec "/" c) as [<- | Hne].
    + replace (String.prefix "" r) with true by (destruct r; reflexivity).
      destruct (splitLoop "/" 0 "" r) as [| p ps] eqn:E;
        [exfalso; exact (splitLoop_nonempty _ _ _ _ E) |].
      rewrite concat_cons, <- E, IH, sapp_nil_l. reflexivity.
    + rewrite IH, sapp_assoc, sapp_cons, sapp_nil_l.
      destruct (Ascii.eqb_spec c "/") as [-> | _]; [contradiction | reflexivity].
Qed.

Lemma deriveRuleLabel_agent r :
  deriveRuleLabel (r +:+ "/agent") = slashesToBlanks r.
Proof.
  unfold deriveRuleLabel, Join, Split. cbv zeta.
  rewrite TrimSuffix_agent_general, TrimSuffix_app, splitLoop_slash.
  apply sapp_nil_l.
Qed.

Lemma agentFlagStep_flag fs files r :
  agentFlagStep fs files r = files ++ agentOfFlag fs r.
Proof.
  unfold agentFlagStep, agentOfFlag, ToSlash. cbv zeta.
  destruct (isEmpty (TrimSpace r)); [rewrite List.app_nil_r; reflexivity |].
  rewrite deriveRuleLabel_agent.
  destruct (ruleExists fs (TrimSpace r +:+ "/agent")); [reflexivity |].
  rewrite List.app_nil_r; reflexivity.
Qed.

Lemma agentFlags_fold fs flagRules files :
  fold_left (agentFlagStep fs) flagRules files
  = files ++ flat_map (agentOfFlag fs) flagRules.
Proof.
  revert files. induction flagRules as [| r rest IH]; intros files.
  - simpl. rewrite List.app_nil_r. reflexivity.
  - simpl. rewrite IH, agentFlagStep_flag, <- List.app_assoc. reflexivity.
Qed.

(** X11. Manual mode, flag by flag: each [--rule] flag, trimmed of white
    space, contributes at most one general rule (the rule [r/general]
    when it exists, else the rule [r] when it exists) and at most one
    agent file (the rule [r/agent] when it exists, labelled with [r] whose
    slashes are replaced by blanks), in the order of the flags; a blank
    flag contributes nothing.  The second probe of [r/general] in
    [buildGeneralRulesFromFlags] never adds anything. *)
Theorem manual_mode_flag_by_flag (embeddedFS : Rules.FS)
    (flagRules : list string) :
  buildGeneralRulesFromFlags embeddedFS flagRules
  = flat_map (generalOfFlag embeddedFS) flagRules
  /\ buildAgentRulesFromFlags embeddedFS flagRules
     = flat_map (agentOfFlag embeddedFS) flagRules.
Proof.
  unfold buildGeneralRulesFromFlags, buildAgentRulesFromFlags.
  rewrite generalFlags_fold, agentFlags_fold. split; reflexivity.
Qed.

End CmdMoreFacts.

(** ** The listing of the embedded rule store *)

Module RulesListFacts.
Import GoStrings GoStringsFacts Cmd CmdMoreFacts RulesList.

(** *** [filepath.Ext] *)

Lemma list_ascii_of_string_app s t :
  list_ascii_of_string (s +:+ t) = list_ascii_of_string s ++ list_ascii_of_string t.
Proof.
  induction s as [| c s IH]; [reflexivity |].
  rewrite sapp_cons. cbn [list_ascii_of_string]. rewrite IH. reflexivity.
Qed.

Lemma string_of_list_ascii_snoc l c t :
  string_of_list_ascii (l ++ [c]) +:+ t = string_of_list_ascii l +:+ String c t.
Proof.
  induction l as [| x l IH]; [reflexivity |].
  cbn [app string_of_list_ascii]. rewrite !sapp_cons, IH. reflexivity.
Qed.

(** The extension of [id.md] is [.md], whatever [id] holds. *)
Lemma Ext_md id : Ext (id +:+ ".md") = ".md".
Proof.
  unfold Ext. rewrite list_ascii_of_string_app, rev_app_distr. reflexivity.
Qed.

(** A non-empty extension is a suffix of the path. *)
Lemma extLoop_suffix before suffix :
  extLoop before suffix <> "" ->
  exists pre,
    string_of_list_ascii (rev before) +:+ suffix = pre +:+ extLoop before suffix.
Proof.
  revert suffix. induction before as [| c more IH]; intros suffix H;
    [contradiction H; reflexivity |].
  cbn [extLoop rev] in *. rewrite string_of_list_ascii_snoc.
  destruct (Ascii.eqb c "/"); [contradiction H; reflexivity |].
  destruct (Ascii.eqb c ".").
  - exists (string_of_list_ascii (rev more)). reflexivity.
  - apply IH. exact H.
Qed.

Lemma Ext_suffix path : Ext path <> "" -> exists pre, path = pre +:+ Ext path.
Proof.
  intros H. destruct (extLoop_suffix _ "" H) as (pre & E).
  exists pre. rewrite rev_involutive, string_of_list_ascii_of_string, sapp_nil_r in E.
  exact E.
Qed.

(** *** The walk *)

Lemma sapp_inv_tail s t u : s +:+ u = t +:+ u -> s = t.
Proof.
  intros E. rewrite <- (TrimSuffix_app s u), <- (TrimSuffix_app t u), E.
  reflexivity.
Qed.

(** What a file contributes to the listing. *)
Lemma listStep_name out path :
  HasPrefix path "./" = false ->
  (Ext path <> ".md" /\ listStep out path = out) \/
  exists name, path = name +:+ ".md" /\ listStep out path = out ++ [name].
Proof.
  intros Hp. unfold listStep. rewrite Hp.
  destruct (String.eqb_spec (Ext path) ".md") as [E | Hne];
    [right | left; split; [exact Hne | reflexivity]].
  destruct (Ext_suffix path) as (name & Hn); [rewrite E; discriminate |].
  rewrite E in Hn. exists name. split; [exact Hn |].
  cbn [negb]. rewrite Hn, TrimSuffix_app. reflexivity.
Qed.

Lemma walk_names walked out name :
  unrooted walked ->
  In name (fold_left listStep walked out)
  <-> In name out \/ In (name +:+ ".md") walked.
Proof.
  revert out. induction walked as [| path rest IH]; intros out Hu.
  - cbn [fold_left]. split; [left; assumption | intros [H | []]; exact H].
  - assert (Hr : unrooted rest) by (intros p Hp; apply Hu; right; exact Hp).
    assert (Hp : HasPrefix path "./" = false) by (apply Hu; left; reflexivity).
    cbn [fold_left]. rewrite (IH _ Hr). cbn [In].
    destruct (listStep_name out path Hp) as [[Hext ->] | (n & -> & ->)].
    + split; [tauto |]. intros [H | [H | H]]; [tauto | | tauto].
      exfalso. apply Hext. rewrite H. apply Ext_md.
    + rewrite in_app_iff. cbn [In]. split.
      * intros [[H | [-> | []]] | H]; tauto.
      * intros [H | [H | H]]; [tauto | | tauto].
        apply sapp_inv_tail in H. tauto.
Qed.

Lemma NoDup_snoc {A} (l : list A) x :
  List.NoDup l -> ~ In x l -> List.NoDup (l ++ [x]).
Proof.
  induction 1 as [| y l Hy Hl IH]; intros Hx; cbn [app].
  - constructor; [intros [] | constructor].
  - constructor.
    + rewrite in_app_iff. cbn [In]. intros [H | [-> | []]]; [exact (Hy H) |].
      apply Hx. left. reflexivity.
    + apply IH. intros H. apply Hx. right. exact H.
Qed.

(** The names of distinct files are distinct. *)
Lemma walk_NoDup walked out :
  unrooted walked -> List.NoDup walked -> List.NoDup out ->
  (forall name, In name out -> ~ In (name +:+ ".md") walked) ->
  List.NoDup (fold_left listStep walked out).
Proof.
  revert out. induction walked as [| path rest IH]; intros out Hu Hw Ho Hd;
    [exact Ho |].
  assert (Hr : unrooted rest) by (intros p Hp; apply Hu; right; exact Hp).
  assert (Hp : HasPrefix path "./" = false) by (apply Hu; left; reflexivity).
  apply List.NoDup_cons_iff in Hw as [Hfresh Hw]. cbn [fold_left].
  destruct (listStep_name out path Hp) as [[_ ->] | (n & -> & ->)].
  - apply IH; auto. intros name Hn Hin. apply (Hd name Hn). right. exact Hin.
  - apply IH; auto.
    + apply NoDup_snoc; [exact Ho |].
      intros Hx. apply (Hd n Hx). left. reflexivity.
    + intros name Hn Hin. apply in_app_iff in Hn as [Hn | [<- | []]].
      * apply (Hd name Hn). right. exact Hin.
      * contradiction.
Qed.

(** *** [sort.Strings] *)

Lemma leb_ltb x y : String.leb x y = true -> x <> y -> String.ltb x y = true.
Proof.
  unfold String.leb, String.ltb. intros H Hne.
  destruct (String.compare x y) eqn:E; [| reflexivity | discriminate H].
  exfalso. apply Hne, String.compare_eq_iff. exact E.
Qed.

Lemma not_leb_ltb x y : String.leb x y = false -> String.ltb y x = true.
Proof.
  unfold String.leb, String.ltb. intros H.
  rewrite String.compare_antisym.
  destruct (String.compare x y); [discriminate H | discriminate H | reflexivity].
Qed.

Lemma insertSorted_In x l y : In y (insertSorted x l) <-> y = x \/ In y l.
Proof.
  induction l as [| z l IH]; [cbn; intuition |].
  cbn [insertSorted]. destruct (String.leb x z); cbn [In]; [intuition |].
  rewrite IH. intuition.
Qed.

Lemma sortStrings_In l y : In y (sortStrings l) <-> In y l.
Proof.
  induction l as [| x l IH]; [reflexivity |].
  cbn [sortStrings fold_right]. rewrite insertSorted_In. fold (sortStrings l).
  rewrite IH. cbn [In]. intuition.
Qed.

Lemma ascending_cons x l :
  ascending (x :: l) = true <->
  match l with [] => True | y :: _ => String.ltb x y = true end
  /\ ascending l = true.
Proof.
  destruct l as [| y l]; [cbn; tauto |].
  cbn [ascending]. rewrite andb_true_iff. tauto.
Qed.

Lemma insertSorted_ascending x l :
  ~ In x l -> ascending l = true -> ascending (insertSorted x l) = true.
Proof.
  induction l as [| y l IH]; intros Hx Hl; [reflexivity |].
  cbn [insertSorted]. destruct (String.leb x y) eqn:E.
  - apply ascending_cons. split; [| exact Hl].
    apply leb_ltb; [exact E |]. intros ->. apply Hx. left. reflexivity.
  - apply ascending_cons in Hl as [Hy Hl].
    apply ascending_cons. split.
    + destruct l as [| z l]; cbn [insertSorted].
      * apply not_leb_ltb. exact E.
      * destruct (String.leb x z); [apply not_leb_ltb; exact E | exact Hy].
    + apply IH; [| exact Hl]. intros H. apply Hx. right. exact H.
Qed.

Lemma sortStrings_ascending l : List.NoDup l -> ascending (sortStrings l) = true.
Proof.
  induction 1 as [| x l Hx _ IH]; [reflexivity |].
  cbn [sortStrings fold_right]. fold (sortStrings l).
  apply insertSorted_ascending; [| exact IH].
  rewrite sortStrings_In. exact Hx.
Qed.

Lemma List_In embeddedFS walked name :
  walks embeddedFS walked -> unrooted walked ->
  In name (List walked) <-> is_Some (Rules.Get embeddedFS name).
Proof.
  intros [_ Hw] Hu. unfold List. cbv zeta.
  rewrite sortStrings_In, (walk_names _ _ _ Hu), Hw.
  unfold Rules.Get. cbn [In]. tauto.
Qed.

Lemma List_ascending embeddedFS walked :
  walks embeddedFS walked -> unrooted walked -> ascending (List walked) = true.
Proof.
  intros [Hnd _] Hu. unfold List. cbv zeta.
  apply sortStrings_ascending, walk_NoDup.
  - exact Hu.
  - exact Hnd.
  - constructor.
  - intros name [].
Qed.

(** X12. The listing agrees with the lookup: when the walk visits each
    file of the embedded store once and the paths are unrooted, as those
    of [io/fs] are, a name is in the result of [List] exactly when [Get]
    finds content for it, and the result is strictly increasing, hence
    sorted and free of duplicates. *)
Theorem List_agrees_with_Get (embeddedFS : Rules.FS) (walked : list string) :
  walks embeddedFS walked ->
  unrooted walked ->
  (forall name,
     In name (List walked) <-> is_Some (Rules.Get embeddedFS name))
  /\ ascending (List walked) = true.
Proof.
  intros Hw Hu. split.
  - intros name. apply List_In; assumption.
  - apply (List_ascending embeddedFS); assumption.
Qed.

Lemma walks53 : walks store53 walked53.
Proof.
  split.
  - unfold walked53. repeat constructor; cbn [In]; intuition discriminate.
  - intros path. unfold store53, walked53.
    rewrite !lookup_insert_is_Some, lookup_empty. cbn [In].
    split.
    + intros H.
      repeat (destruct H as [<- | H];
              [repeat (first [left; reflexivity | right; split; [discriminate |]]) |]).
      destruct H.
    + intros H.
      repeat (destruct H as [<- | [_ H]];
              [repeat (first [left; reflexivity | right]) |]).
      destruct H as [x Hx]. discriminate Hx.
Qed.

Lemma unrooted53 : unrooted walked53.
Proof.
  intros path H. cbn [walked53 In] in H.
  decompose [or] H; subst; try reflexivity; contradiction.
Qed.

Lemma List_agrees_with_Get_witness :
  List walked53
  = ["php/5.3/agent"; "php/5.3/general"; "php/5/agent"; "php/5/general";
     "php/agent"; "php/general"]
  /\ (is_Some (Rules.Get store53 "php/5/agent") <-> In "php/5/agent" (List walked53))
  /\ ascending (List walked53) = true.
Proof.
  destruct (List_agrees_with_Get store53 walked53 walks53 unrooted53)
    as [Hin Hasc].
  split; [reflexivity |]. split; [symmetry; apply Hin | exact Hasc].
Defined.

End RulesListFacts.

(** ** The [validate] command *)

Module CmdValidateFacts.
Import GoStrings GoStringsFacts Detect Cmd CmdFacts CmdMoreFacts RulesList
  RulesListFacts CmdValidate.

(** *** White space around a text *)

Lemma space_or_lead_byte c :
  Ascii.is_space c || spaceLead c = true ->
  In (byteOf c) [9; 10; 11; 12; 13; 32; 194; 225; 226; 227].
Proof.
  destruct c as [[] [] [] [] [] [] [] []]; vm_compute; intros H;
    try discriminate H; tauto.
Qed.

Lemma spaceTail2_second c1 c2 :
  spaceTail2 c1 c2 = true -> byteOf c2 = 133 \/ byteOf c2 = 160.
Proof.
  unfold spaceTail2. intros H. apply andb_prop in H as [_ H].
  apply orb_prop in H as [H | H]; apply Nat.eqb_eq in H; auto.
Qed.

Lemma spaceTail3_second c1 c2 c3 :
  spaceTail3 c1 c2 c3 = true ->
  byteOf c2 = 154 \/ byteOf c2 = 128 \/ byteOf c2 = 129.
Proof.
  unfold spaceTail3. intros H.
  repeat match type of H with
         | (_ || _) = true => apply orb_prop in H as [H | H]
         end;
    repeat match type of H with
           | (_ && _) = true =>
               let H' := fresh "H" in apply andb_prop in H as [H H']
           end;
    repeat match goal with
           | H : (_ =? _) = true |- _ => apply Nat.eqb_eq in H
           end; auto.
Qed.

Lemma spaceTail3_third c1 c2 c3 :
  spaceTail3 c1 c2 c3 = true -> 128 <= byteOf c3 <= 175.
Proof.
  unfold spaceTail3. intros H.
  repeat match type of H with
         | (_ || _) = true => apply orb_prop in H as [H | H]
         end;
    repeat match goal with
           | H : (_ && _) = true |- _ =>
               let H' := fresh "H" in apply andb_prop in H as [H H']
           | H : (_ || _) = true |- _ => apply orb_prop in H as [H | H]
           end;
    repeat match goal with
           | H : (_ =? _) = true |- _ => apply Nat.eqb_eq in H
           | H : (_ <=? _) = true |- _ => apply Nat.leb_le in H
           end; lia.
Qed.

Ltac not_in_list H :=
  cbn [In] in H; decompose [or] H; try lia; try contradiction.

(** A blank string is empty or begins with white space or with the lead
    byte of a white-space rune. *)
Lemma blank_head c w :
  trimLeftSpace (String c w) = "" -> Ascii.is_space c || spaceLead c = true.
Proof.
  cbn [trimLeftSpace]. destruct (Ascii.is_space c); [reflexivity |].
  destruct (spaceLead c); [reflexivity |]. cbn [negb]. discriminate.
Qed.

(** A blank string after a text does not change where the trimming on
    the left stops. *)
Lemma trimLeftSpace_app_blank x w :
  trimLeftSpace w = "" -> trimLeftSpace x <> "" ->
  trimLeftSpace (x +:+ w) = trimLeftSpace x +:+ w.
Proof.
  intros Hw.
  remember (String.length x) as n eqn:Hn.
  revert x Hn. induction n as [n IH] using lt_wf_ind. intros x -> H.
  destruct x as [| c1 r1]; [contradiction H; reflexivity |].
  rewrite sapp_cons. cbn [trimLeftSpace] in H |- *.
  destruct (Ascii.is_space c1).
  { apply (IH (String.length r1)); [simpl; lia | reflexivity | exact H]. }
  destruct (negb (spaceLead c1)); [rewrite sapp_cons; reflexivity |].
  destruct r1 as [| c2 r2].
  { rewrite sapp_nil_l. destruct w as [| c2 w]; [reflexivity |].
    pose proof (space_or_lead_byte c2 (blank_head c2 w Hw)) as Hb.
    destruct (spaceTail2 c1 c2) eqn:E2.
    { apply spaceTail2_second in E2. not_in_list Hb. }
    destruct w as [| c3 w]; [reflexivity |].
    destruct (spaceTail3 c1 c2 c3) eqn:E3; [| reflexivity].
    apply spaceTail3_second in E3. not_in_list Hb. }
  rewrite sapp_cons.
  destruct (spaceTail2 c1 c2).
  { apply (IH (String.length r2)); [simpl; lia | reflexivity | exact H]. }
  destruct r2 as [| c3 r3].
  { rewrite sapp_nil_l. destruct w as [| c3 w]; [reflexivity |].
    pose proof (space_or_lead_byte c3 (blank_head c3 w Hw)) as Hb.
    destruct (spaceTail3 c1 c2 c3) eqn:E3; [| reflexivity].
    apply spaceTail3_third in E3. not_in_list Hb. }
  rewrite sapp_cons.
  destruct (spaceTail3 c1 c2 c3); [| rewrite !sapp_cons; reflexivity].
  apply (IH (String.length r3)); [simpl; lia | reflexivity | exact H].
Qed.

(** A text that does not end in white space is what is left of it when a
    blank string is put after it and trimmed. *)
Lemma trimRightSpace_app_blank a w :
  trimRightSpace a = a -> trimLeftSpace w = "" -> trimRightSpace (a +:+ w) = a.
Proof.
  intros Ha Hw. induction a as [| c a IH].
  - rewrite sapp_nil_l. destruct w as [| c w]; [reflexivity |].
    cbn [trimRightSpace]. rewrite Hw. reflexivity.
  - cbn [trimRightSpace] in Ha.
    destruct (isEmpty (trimLeftSpace (String c a))) eqn:E; [discriminate Ha |].
    injection Ha as Ha. rewrite sapp_cons. cbn [trimRightSpace].
    rewrite <- sapp_cons, trimLeftSpace_app_blank;
      [| exact Hw | apply isEmpty_false; exact E].
    rewrite isEmpty_app, E. cbn [andb]. rewrite (IH Ha). reflexivity.
Qed.

Lemma trimRightSpace_blank t w :
  trimLeftSpace w = "" -> trimRightSpace (t +:+ w) = trimRightSpace t.
Proof.
  intros Hw. destruct (trimRightSpace_suffix t) as (w0 & Ht & Hw0).
  assert (E : t +:+ w = trimRightSpace t +:+ (w0 +:+ w))
    by (rewrite <- sapp_assoc, <- Ht; reflexivity).
  rewrite E. apply trimRightSpace_app_blank; [apply trimRightSpace_idem |].
  rewrite (trimLeftSpace_blank w0 w Hw0). exact Hw.
Qed.

Lemma blank_left w : blank w <-> trimLeftSpace w = "".
Proof.
  unfold blank, TrimSpace. split.
  - intros H. destruct (trimLeftSpace w) as [| c u] eqn:E; [reflexivity |].
    cbn [trimRightSpace] in H. rewrite <- E, trimLeftSpace_idem, E in H.
    cbn [isEmpty] in H. discriminate H.
  - intros ->. reflexivity.
Qed.

(** [TrimSpace] does not see white space around a text. *)
Lemma TrimSpace_padded w1 s w2 :
  blank w1 -> blank w2 -> TrimSpace (w1 +:+ s +:+ w2) = TrimSpace s.
Proof.
  intros H1 H2. apply blank_left in H1, H2. unfold TrimSpace.
  rewrite (trimLeftSpace_blank w1 _ H1).
  destruct (trimLeftSpace s) as [| c u] eqn:E.
  - rewrite (trimLeftSpace_blank s w2 E), H2. reflexivity.
  - rewrite trimLeftSpace_app_blank; [| exact H2 | rewrite E; discriminate].
    rewrite E. apply trimRightSpace_blank. exact H2.
Qed.

(** X13. [compareFileStatus] does not see white space around the file or
    around the expected text: blank strings (white space only) put before
    and after either of them leave the status as it is. *)
Theorem compareFileStatus_ignores_padding (data expected w1 w2 w3 w4 : string) :
  blank w1 -> blank w2 -> blank w3 -> blank w4 ->
  compareFileStatus (inl (w1 +:+ data +:+ w2)) (w3 +:+ expected +:+ w4)
  = compareFileStatus (inl data) expected.
Proof.
  intros H1 H2 H3 H4. unfold compareFileStatus.
  rewrite !TrimSpace_padded by assumption. reflexivity.
Qed.

(** A final line feed in the file, two blank lines before the expected
    text. *)
Lemma compareFileStatus_ignores_padding_witness :
  compareFileStatus (inl ("" +:+ "# Rules" +:+ LF)) ((LF +:+ LF) +:+ "# Rules" +:+ "")
  = statusUpToDate.
Proof.
  rewrite (compareFileStatus_ignores_padding "# Rules" "# Rules" "" LF (LF +:+ LF) "");
    reflexivity.
Defined.

(** *** The verdict *)

Lemma compareFileStatus_holds file doc :
  compareFileStatus file doc = statusUpToDate <-> holds file doc.
Proof.
  unfold compareFileStatus, holds. destruct file as [data | err].
  - destruct (String.eqb_spec (TrimSpace data) (TrimSpace doc)) as [E | Hne].
    + split; [intros _; exists data; auto | reflexivity].
    + split; [discriminate |]. intros (d & [= <-] & E). contradiction.
  - split; [destruct (IsNotExist err); discriminate |].
    intros (d & H & _). discriminate H.
Qed.

Lemma reportsError_false status :
  reportsError status = false <-> status = statusUpToDate.
Proof. destruct status; cbn; split; congruence. Qed.

Lemma firstThat_missing fs ids :
  Forall (fun id => ruleExists fs id = true) ids ->
  firstThat (fun id => negb (ruleExists fs id)) ids = None.
Proof.
  induction 1 as [| id ids Hid _ IH]; [reflexivity |].
  cbn [firstThat]. rewrite Hid. exact IH.
Qed.

Lemma List_nonempty fs walked id :
  walks fs walked -> unrooted walked -> ruleExists fs id = true ->
  (length (List walked) =? 0) = false.
Proof.
  intros Hw Hu Hid.
  assert (Hin : In id (List walked)).
  { apply (List_In fs); [exact Hw | exact Hu |].
    unfold ruleExists in Hid. destruct (Rules.Get fs id); [eauto | discriminate]. }
  destruct (List walked); [destruct Hin | reflexivity].
Qed.

(** The verdict once the rule list and the detection are through. *)
Lemma validate_compared fs walked stack copilot agents :
  (length (List walked) =? 0) = false ->
  validate fs walked (Ok stack) copilot agents
  = match renderGeneral fs stack with
    | None => NoGeneralRules
    | Some doc =>
        if reportsError (compareFileStatus copilot doc)
           || reportsError (compareFileStatus agents doc)
        then ValidationFailed (compareFileStatus copilot doc)
               (compareFileStatus agents doc)
        else Passed
    end.
Proof.
  intros Hl. unfold validate, renderGeneral. cbv zeta. rewrite Hl.
  pose proof (buildGeneralRulesFromDetection_exist fs stack) as Hex.
  destruct (buildGeneralRulesFromDetection fs stack) as [| id ids] eqn:E;
    [reflexivity |].
  cbn [length Nat.eqb Nat.ltb Nat.leb].
  rewrite (firstThat_missing fs _ Hex). cbn [loadAndMergeRules].
  destruct (negb (isEmpty (buildStackSection (Some stack))));
    destruct (reportsError (compareFileStatus copilot _));
    destruct (reportsError (compareFileStatus agents _)); reflexivity.
Qed.

Lemma validate_passes fs walked stack doc copilot agents :
  walks fs walked -> unrooted walked ->
  renderGeneral fs stack = Some doc ->
  holds copilot doc -> holds agents doc ->
  validate fs walked (Ok stack) copilot agents = Passed.
Proof.
  intros Hw Hu Hdoc Hc Ha.
  assert (Hl : (length (List walked) =? 0) = false).
  { pose proof (buildGeneralRulesFromDetection_exist fs stack) as Hex.
    unfold renderGeneral in Hdoc. cbv zeta in Hdoc.
    destruct (buildGeneralRulesFromDetection fs stack) as [| id ids];
      [discriminate Hdoc |].
    apply Forall_cons_iff in Hex as [Hid _].
    exact (List_nonempty _ _ _ Hw Hu Hid). }
  rewrite (validate_compared _ _ _ _ _ Hl), Hdoc.
  apply compareFileStatus_holds in Hc, Ha. rewrite Hc, Ha. reflexivity.
Qed.

(** X14. [validate] passes exactly when the detection succeeds, rules
    resolve from it, and each of the two generated files holds, up to
    white space around it, the document that [generate] writes in auto
    mode for the detected stack.  The walk of the embedded store is
    assumed to visit each of its files once, under unrooted paths. *)
Theorem validate_passes_iff (embeddedFS : Rules.FS) (walked : list string)
    (detected : result) (copilot agents : string + error) :
  walks embeddedFS walked ->
  unrooted walked ->
  validate embeddedFS walked detected copilot agents = Passed
  <-> exists stack doc,
        detected = Ok stack
        /\ renderGeneral embeddedFS stack = Some doc
        /\ holds copilot doc /\ holds agents doc.
Proof.
  intros Hw Hu. split.
  - destruct detected as [stack | err].
    2: { unfold validate. cbv zeta. destruct (length (List walked) =? 0); discriminate. }
    destruct (length (List walked) =? 0) eqn:Hl.
    { unfold validate. cbv zeta. rewrite Hl. discriminate. }
    rewrite (validate_compared _ _ _ _ _ Hl).
    destruct (renderGeneral embeddedFS stack) as [doc |] eqn:Hdoc; [| discriminate].
    destruct (reportsError (compareFileStatus copilot doc)) eqn:E1;
      [discriminate |].
    destruct (reportsError (compareFileStatus agents doc)) eqn:E2;
      [discriminate |].
    intros _. exists stack, doc.
    apply reportsError_false in E1, E2.
    apply compareFileStatus_holds in E1, E2.
    split; [reflexivity |]. split; [exact Hdoc |]. split; assumption.
  - intros (stack & doc & -> & Hdoc & Hc & Ha).
    exact (validate_passes _ _ _ _ _ _ Hw Hu Hdoc Hc Ha).
Qed.

(** [generate] on PHP "5.3", then [validate] with a line feed at the end
    of one file. *)
Lemma validate_passes_iff_witness :
  exists doc,
    renderGeneral store53 (mkStack "5.3" "" "" "" "") = Some doc
    /\ validate store53 walked53 (Ok (mkStack "5.3" "" "" "" ""))
         (inl doc) (inl (doc +:+ LF)) = Passed.
Proof.
  eexists. split; [reflexivity |].
  apply (validate_passes_iff store53 walked53 _ _ _ walks53 unrooted53).
  eexists. eexists. split; [reflexivity |]. split; [reflexivity |].
  split; eexists; (split; [reflexivity |]); vm_compute; reflexivity.
Defined.

(** X15. [validate] never reports a missing embedded rule: the
    identifiers resolved from the detection all exist, so the loop that
    probes them finds nothing, whatever the store, the project and the
    files are. *)
Theorem validate_never_reports_missing_rule (embeddedFS : Rules.FS)
    (walked : list string) (detected : result) (copilot agents : string + error)
    (id : string) :
  validate embeddedFS walked detected copilot agents <> MissingRule id.
Proof.
  unfold validate. cbv zeta.
  destruct (length (List walked) =? 0); [discriminate |].
  destruct detected as [stack | err]; [| discriminate].
  destruct (length (buildGeneralRulesFromDetection embeddedFS stack) =? 0);
    [discriminate |].
  rewrite (firstThat_missing embeddedFS _
             (buildGeneralRulesFromDetection_exist embeddedFS stack)).
  cbn [loadAndMergeRules].
  destruct (reportsError (compareFileStatus copilot _));
    destruct (reportsError (compareFileStatus agents _)); discriminate.
Qed.

End CmdValidateFacts.

(** ** The stand-alone template generator, from the arguments to the
       document *)

Module PilotMainFacts.
Import GoStrings GoStringsFacts Detect Pilot PilotFacts PilotMain.

(** *** Repeated sets *)

Lemma filter_seen_pair {A} (p : string * A -> bool) (x : string * A) l :
  p x = false ->
  (forall y, fst y = fst x -> p y = false) ->
  List.filter p (x :: List.filter (fun y => negb (String.eqb (fst y) (fst x))) l)
  = List.filter p l.
Proof.
  intros Hx Hsame. simpl. rewrite Hx, filter_filter.
  apply List.filter_ext. intros y.
  destruct (String.eqb_spec (fst y) (fst x)) as [E | _];
    [rewrite (Hsame y E) |]; simpl; rewrite ?andb_true_r; reflexivity.
Qed.

Lemma firstPairs_keys {A} (l : list (string * A)) :
  List.map fst (firstPairs l) = firstSeen (List.map fst l).
Proof.
  induction l as [| p l IH]; [reflexivity |].
  cbn [firstPairs List.map firstSeen]. f_equal. rewrite <- IH.
  generalize (firstPairs l). intros q. induction q as [| y q IHq]; [reflexivity |].
  cbn [List.filter List.map].
  destruct (negb (String.eqb (fst y) (fst p))); cbn [List.map]; rewrite IHq;
    reflexivity.
Qed.

Lemma combine_keys {A} (sets : list string) (ts : list A) :
  length sets = length ts -> List.map fst (combine sets ts) = sets.
Proof.
  revert ts. induction sets as [| s sets IH]; intros [| t ts] H;
    try discriminate H; [reflexivity |].
  cbn [combine List.map fst]. f_equal. apply IH. injection H as H. exact H.
Qed.

(** The loop keeps, for every set not seen before, its first occurrence
    and the template at the same index. *)
Lemma dedupLoop_spec sets :
  forall seen ds dt pre ts,
    length sets = length ts ->
    let kept :=
      List.filter (fun p : string * Template => negb (default false (seen !! fst p)))
        (firstPairs (combine sets ts)) in
    dedupLoop seen ds dt (length pre) sets (pre ++ ts)
    = Some (ds ++ List.map fst kept, dt ++ List.map snd kept).
Proof.
  induction sets as [| s sets IH]; intros seen ds dt pre [| t ts] Hlen;
    try discriminate Hlen.
  - cbn. rewrite !List.app_nil_r. reflexivity.
  - injection Hlen as Hlen. cbv zeta. cbn [dedupLoop combine firstPairs].
    assert (Hnext : pre ++ t :: ts = (pre ++ [t]) ++ ts)
      by (rewrite <- List.app_assoc; reflexivity).
    assert (Hi : S (length pre) = length (pre ++ [t]))
      by (rewrite length_app; cbn [length]; lia).
    destruct (default false (seen !! s)) eqn:Es.
    + rewrite Hnext, Hi, (IH seen ds dt (pre ++ [t]) ts Hlen). cbv zeta.
      rewrite filter_seen_pair; [reflexivity | cbn [fst]; rewrite Es; reflexivity |].
      intros y Hy. cbn [fst] in Hy. rewrite Hy, Es. reflexivity.
    + rewrite lookup_app_r, Nat.sub_diag by lia. cbn [lookup list_lookup].
      rewrite Hnext, Hi, (IH _ _ _ (pre ++ [t]) ts Hlen). cbv zeta.
      cbn [List.filter fst]. rewrite Es. cbn [negb List.map fst snd].
      rewrite filter_filter, <- !List.app_assoc. cbn [app].
      rewrite (List.filter_ext
                 (fun p : string * Template =>
                    negb (default false (<[s := true]> seen !! fst p)))
                 (fun y : string * Template =>
                    negb (default false (seen !! fst y))
                    && negb (String.eqb (fst y) s))); [reflexivity |].
      intros y. destruct (String.eqb_spec (fst y) s) as [-> | Hne].
      * rewrite lookup_insert_eq. cbn. rewrite andb_false_r. reflexivity.
      * rewrite lookup_insert_ne by congruence. cbn. rewrite andb_true_r.
        reflexivity.
Qed.

Lemma dedup_spec sets templates :
  length sets = length templates ->
  dedup sets templates
  = Some (List.map fst (firstPairs (combine sets templates)),
          List.map snd (firstPairs (combine sets templates))).
Proof.
  intros Hlen. unfold dedup.
  pose proof (dedupLoop_spec sets ∅ [] [] [] templates Hlen) as H.
  cbv zeta in H. cbn [length app] in H. rewrite H. do 2 f_equal.
  - f_equal. rewrite <- (filter_all (firstPairs _)) at 2.
    apply List.filter_ext. intros y. rewrite lookup_empty. reflexivity.
  - f_equal. rewrite <- (filter_all (firstPairs _)) at 2.
    apply List.filter_ext. intros y. rewrite lookup_empty. reflexivity.
Qed.

Lemma combine_map_fst_snd {A B} (l : list (A * B)) :
  combine (List.map fst l) (List.map snd l) = l.
Proof.
  induction l as [| [a b] l IH]; [reflexivity |].
  cbn [List.map combine fst snd]. rewrite IH. reflexivity.
Qed.

(** X16. Repeated sets: when [main] has collected one template per set,
    the loop that removes repeated sets does not go out of range and
    keeps every set once, at the place of its first occurrence, together
    with the template loaded at that occurrence. *)
Theorem dedup_keeps_first_occurrences (sets : list string)
    (templates : list Template) :
  length sets = length templates ->
  exists dedupSets dedupTemplates,
    dedup sets templates = Some (dedupSets, dedupTemplates)
    /\ dedupSets = firstSeen sets
    /\ List.NoDup dedupSets
    /\ length dedupTemplates = length dedupSets
    /\ combine dedupSets dedupTemplates = firstPairs (combine sets templates).
Proof.
  intros Hlen. rewrite (dedup_spec _ _ Hlen). eexists _, _.
  split; [reflexivity |].
  assert (Hk : List.map fst (firstPairs (combine sets templates)) = firstSeen sets)
    by (rewrite firstPairs_keys, combine_keys by exact Hlen; reflexivity).
  split; [exact Hk |]. split; [rewrite Hk; apply firstSeen_NoDup |].
  split; [rewrite !length_map; reflexivity | apply combine_map_fst_snd].
Qed.

(** The arguments [php laravel php]: the second [php] is dropped. *)
Lemma dedup_keeps_first_occurrences_witness :
  exists dedupTemplates,
    dedup ["php"; "laravel"; "php"] [phpTemplate; laravelTemplate; phpTemplate]
    = Some (["php"; "laravel"], dedupTemplates)
    /\ length dedupTemplates = 2.
Proof.
  destruct (dedup_keeps_first_occurrences ["php"; "laravel"; "php"]
              [phpTemplate; laravelTemplate; phpTemplate] eq_refl)
    as (ds & dt & E & -> & _ & Hl & _).
  exists dt. split; [exact E | exact Hl].
Defined.

(** *** The title *)

Lemma TrimSpace_nonblank_nonempty s : TrimSpace s <> "" -> s <> "".
Proof. intros H ->. apply H. reflexivity. Qed.

Lemma firstTitle_blank templates :
  Forall (fun t => TrimSpace (Title t) = "") templates -> firstTitle templates = "".
Proof.
  induction 1 as [| t rest Ht _ IH]; [reflexivity |].
  cbn [firstTitle]. rewrite Ht. exact IH.
Qed.

Lemma firstTitle_first before t after :
  Forall (fun t => TrimSpace (Title t) = "") before ->
  TrimSpace (Title t) <> "" ->
  firstTitle (before ++ t :: after) = Title t.
Proof.
  intros Hb Ht. induction Hb as [| b rest Hbl _ IH].
  - cbn [app firstTitle]. apply isEmpty_false in Ht. rewrite Ht. reflexivity.
  - cbn [app firstTitle]. rewrite Hbl. exact IH.
Qed.

Lemma firstTitle_nonblank templates :
  firstTitle templates = "" \/ TrimSpace (firstTitle templates) <> "".
Proof.
  induction templates as [| t rest IH]; [left; reflexivity |].
  cbn [firstTitle]. destruct (isEmpty (TrimSpace (Title t))) eqn:E; [exact IH |].
  right. apply isEmpty_false. exact E.
Qed.

Lemma composed_nonblank sets :
  TrimSpace ("Copilot instructions (" +:+ Join sets " + " +:+ ")") <> "".
Proof.
  change ("Copilot instructions (" +:+ Join sets " + " +:+ ")")
    with (String "C" ("opilot instructions (" +:+ Join sets " + " +:+ ")")).
  unfold TrimSpace. rewrite trimLeftSpace_stop by reflexivity.
  cbn [trimRightSpace]. rewrite trimLeftSpace_stop by reflexivity.
  discriminate.
Qed.

Lemma mergeTemplates_total templates sets :
  exists sections,
    mergeTemplates templates sets
    = Some (if isEmpty (firstTitle templates)
            then "Copilot instructions (" +:+ Join sets " + " +:+ ")"
            else firstTitle templates,
            sections)
    /\ mergeSections emptyState (allSections templates)
       = Some (mkState sections
                 (index (default emptyState
                           (mergeSections emptyState (allSections templates))))).
Proof.
  unfold mergeTemplates. fold (allSections templates). fold emptyState.
  destruct (mergeSections_consistent (allSections templates) emptyState
              consistent_empty) as (st & E & _).
  rewrite E. exists (merged st). split; [reflexivity |].
  destruct st; reflexivity.
Qed.

(** X17. The title of the merged document is never blank: it is the
    title of the first template whose title is not blank, as that template
    has it, and the title composed from the set names when every title is
    blank. *)
Theorem merged_title_is_never_blank (templates : list Template)
    (sets : list string) :
  (exists title sections,
     mergeTemplates templates sets = Some (title, sections)
     /\ TrimSpace title <> "")
  /\ (forall before t after,
        templates = before ++ t :: after ->
        Forall (fun t => TrimSpace (Title t) = "") before ->
        TrimSpace (Title t) <> "" ->
        fst <$> mergeTemplates templates sets = Some (Title t))
  /\ (Forall (fun t => TrimSpace (Title t) = "") templates ->
      fst <$> mergeTemplates templates sets
      = Some ("Copilot instructions (" +:+ Join sets " + " +:+ ")")).
Proof.
  destruct (mergeTemplates_total templates sets) as (sections & E & _).
  split; [| split].
  - eexists _, sections. split; [exact E |].
    destruct (firstTitle_nonblank templates) as [-> | H].
    + cbn [isEmpty]. apply composed_nonblank.
    + rewrite (proj2 (isEmpty_false _) (TrimSpace_nonblank_nonempty _ H)).
      exact H.
  - intros before t after -> Hb Ht. rewrite E.
    rewrite (firstTitle_first before t after Hb Ht).
    rewrite (proj2 (isEmpty_false _) (TrimSpace_nonblank_nonempty _ Ht)).
    reflexivity.
  - intros Hall. rewrite E, (firstTitle_blank _ Hall). reflexivity.
Qed.

(** The PHP template has no title, the Laravel template has one. *)
Lemma merged_title_is_never_blank_witness :
  fst <$> mergeTemplates [phpTemplate; laravelTemplate] ["php"; "laravel"]
  = Some "Laravel"
  /\ fst <$> mergeTemplates [phpTemplate] ["php"]
     = Some "Copilot instructions (php)".
Proof.
  split.
  - apply (proj1 (proj2 (merged_title_is_never_blank
                           [phpTemplate; laravelTemplate] ["php"; "laravel"]))
             [phpTemplate] laravelTemplate []).
    + reflexivity.
    + repeat constructor.
    + discriminate.
  - apply (proj2 (proj2 (merged_title_is_never_blank [phpTemplate] ["php"]))).
    repeat constructor.
Defined.

(** *** What the merge hands to the rendering *)

Lemma trimmed_clean l : Forall cleanBullet (trimmed l).
Proof.
  apply List.Forall_forall. intros v Hv. unfold trimmed, nonBlank in Hv.
  apply filter_In in Hv as [Hin Hne]. apply in_map_iff in Hin as (u & <- & _).
  split; [apply isEmpty_false, negb_true_iff; exact Hne | apply TrimSpace_idem].
Qed.

Lemma mergeBullets_clean a b : Forall cleanBullet (mergeBullets a b).
Proof.
  apply List.Forall_forall. intros v Hv.
  rewrite mergeBullets_spec in Hv. apply (proj1 (firstSeen_In _ _)) in Hv.
  pose proof (trimmed_clean (a ++ b)) as H.
  rewrite List.Forall_forall in H. apply H. exact Hv.
Qed.

Lemma mergeSection_clean st s st' :
  mergeSection st s = Some st' ->
  Forall (fun m => keyOf m <> "" /\ Forall cleanBullet (Bullets m)) (merged st) ->
  Forall (fun m => keyOf m <> "" /\ Forall cleanBullet (Bullets m)) (merged st').
Proof.
  unfold mergeSection. cbv zeta. fold (keyOf s).
  destruct (isEmpty (keyOf s)) eqn:Ek; [intros [= <-] H; exact H |].
  destruct (index st !! keyOf s) as [idx |].
  - destruct (merged st !! idx) as [m |] eqn:Em; [| discriminate].
    intros [= <-] H. cbn [merged Heading Text Bullets].
    apply Forall_insert; [exact H |].
    split; [| apply mergeBullets_clean].
    rewrite Forall_lookup in H. exact (proj1 (H idx m Em)).
  - intros [= <-] H. cbn [merged]. apply Forall_app. split; [exact H |].
    constructor; [| constructor]. split.
    + unfold keyOf. cbn [Heading]. apply isEmpty_false. exact Ek.
    + cbn [Bullets]. rewrite trimAll_trimmed. apply trimmed_clean.
Qed.

Lemma mergeSections_clean ss st st' :
  mergeSections st ss = Some st' ->
  Forall (fun m => keyOf m <> "" /\ Forall cleanBullet (Bullets m)) (merged st) ->
  Forall (fun m => keyOf m <> "" /\ Forall cleanBullet (Bullets m)) (merged st').
Proof.
  revert st. induction ss as [| s ss IH]; intros st; [intros [= <-] H; exact H |].
  cbn [mergeSections]. destruct (mergeSection st s) as [st1 |] eqn:E;
    [| discriminate].
  intros Hrun H. apply (IH st1 Hrun). exact (mergeSection_clean _ _ _ E H).
Qed.

(** X18. What [mergeTemplates] hands to [renderMarkdown] is clean: every
    merged section has a heading that is not blank, and each of its
    bullets is non-empty and has no white space around it, whether the
    section was met once or merged from several. *)
Theorem merged_sections_are_clean (templates : list Template)
    (sets : list string) :
  exists title sections,
    mergeTemplates templates sets = Some (title, sections)
    /\ Forall (fun m => keyOf m <> "" /\ Forall cleanBullet (Bullets m)) sections.
Proof.
  destruct (mergeTemplates_total templates sets) as (sections & E & Hrun).
  eexists _, sections. split; [exact E |].
  apply (mergeSections_clean _ _ _ Hrun). constructor.
Qed.

(** *** The run *)

Lemma renderSection_extends b s : exists t, renderSection b s = b +:+ t.
Proof.
  unfold renderSection. cbv zeta.
  assert (Hfold : forall bs b0, exists t,
            fold_left (fun b bullet => b +:+ "- " +:+ bullet +:+ Cmd.LF) bs b0
            = b0 +:+ t).
  { induction bs as [| v bs IH]; intros b0;
      [exists ""; cbn; rewrite sapp_nil_r; reflexivity |].
    cbn [fold_left]. destruct (IH (b0 +:+ "- " +:+ v +:+ Cmd.LF)) as (t & ->).
    eexists. rewrite sapp_assoc. reflexivity. }
  set (b1 := b +:+ "## " +:+ Heading s +:+ Cmd.LF +:+ Cmd.LF).
  set (b2 := if negb (isEmpty (TrimSpace (Text s)))
             then b1 +:+ TrimSpace (Text s) +:+ Cmd.LF +:+ Cmd.LF else b1).
  assert (H2 : exists t, b2 = b +:+ t).
  { subst b2 b1. destruct (negb (isEmpty (TrimSpace (Text s))));
      eexists; rewrite ?sapp_assoc; reflexivity. }
  destruct H2 as (t2 & ->). destruct (Hfold (Bullets s) (b +:+ t2)) as (t3 & ->).
  destruct (0 <? length (Bullets s)); eexists; rewrite ?sapp_assoc; reflexivity.
Qed.

Lemma renderSections_extends sections b :
  exists t, fold_left renderSection sections b = b +:+ t.
Proof.
  revert b. induction sections as [| s sections IH]; intros b;
    [exists ""; cbn; rewrite sapp_nil_r; reflexivity |].
  cbn [fold_left]. destruct (renderSection_extends b s) as (t & ->).
  destruct (IH (b +:+ t)) as (t' & ->). eexists. rewrite sapp_assoc. reflexivity.
Qed.

Lemma renderMarkdown_head title sections sets :
  exists t, renderMarkdown title sections sets = String "#" (String " " t).
Proof.
  unfold renderMarkdown. cbv zeta.
  destruct (renderSections_extends sections
              (("" +:+ "# " +:+ TrimSpace title +:+ Cmd.LF +:+ Cmd.LF)
                 +:+ "<!-- generated by ai-instructions-pilot: sets: "
                 +:+ Join sets ", " +:+ " -->" +:+ Cmd.LF +:+ Cmd.LF))
    as (t & ->).
  eexists. rewrite sapp_nil_l, !sapp_assoc. reflexivity.
Qed.

(** X19. A run of [main] on one template per set, with at least one set:
    no index goes out of range; without [--validate] and with the
    directory and the file writable, the document written begins with
    "# "; with [--validate], the file just written is up to date, and a
    file that does not exist is out of date. *)
Theorem run_writes_then_validates (sets : list string)
    (templates : list Template) (existing : string + error) :
  length sets = length templates ->
  sets <> [] ->
  exists md,
    run false sets templates existing true true = Wrote md
    /\ HasPrefix md "# " = true
    /\ run true sets templates (inl md) true true = UpToDate
    /\ run true sets templates (inr ENOENT) true true = OutOfDate.
Proof.
  intros Hlen Hne. unfold run. rewrite (dedup_spec _ _ Hlen).
  set (ds := List.map fst (firstPairs (combine sets templates))).
  set (dt := List.map snd (firstPairs (combine sets templates))).
  assert (Hds : ds = firstSeen sets)
    by (unfold ds; rewrite firstPairs_keys, combine_keys by exact Hlen;
        reflexivity).
  assert (Hl : (length ds =? 0) = false).
  { rewrite Hds. destruct sets as [| s sets]; [contradiction Hne; reflexivity |].
    reflexivity. }
  rewrite Hl.
  destruct (mergeTemplates_total dt ds) as (sections & -> & _).
  set (title := if isEmpty (firstTitle dt) then _ else _).
  destruct (renderMarkdown_head title sections ds) as (t & Hmd).
  exists (renderMarkdown title sections ds). cbn [negb IsNotExist].
  split; [reflexivity |]. split; [rewrite Hmd; destruct t; reflexivity |].
  split; [rewrite String.eqb_refl; reflexivity |].
  rewrite Hmd. reflexivity.
Qed.

Lemma run_writes_then_validates_witness :
  exists md,
    run false ["php"; "laravel"; "php"] [phpTemplate; laravelTemplate; phpTemplate]
      (inr ENOENT) true true = Wrote md
    /\ run true ["php"; "laravel"; "php"] [phpTemplate; laravelTemplate; phpTemplate]
         (inl md) true true = UpToDate.
Proof.
  destruct (run_writes_then_validates ["php"; "laravel"; "php"]
              [phpTemplate; laravelTemplate; phpTemplate] (inr ENOENT) eq_refl)
    as (md & Hw & _ & Hv & _); [discriminate |].
  exists md. split; [exact Hw | exact Hv].
Defined.

End PilotMainFacts.

(** ** The comparison of the earlier [validate] command *)

Module CmdValidateFileFacts.
Import GoStrings GoStringsFacts Cmd CmdValidate CmdValidateFacts CmdValidateFile.

Lemma prefix_nil s : String.prefix "" s = true.
Proof. destruct s; reflexivity. Qed.






End CmdValidateFileFacts.

(** ** The two detectors *)

Module DetectEarlierFacts.
Import GoStrings GoStringsFacts Detect DetectFacts DetectEarlier.

Section Compare.
Variable lockReader : reader.
Hypothesis lock_contract :
  forall dir s, exists v,
    snd (lockReader dir s) = setLaravel v s /\ (Laravel s <> "" -> v = Laravel s).

Lemma sameButLaravel_refl s : sameButLaravel s s.
Proof. repeat split; auto. Qed.

Lemma detectFromComposer_sameButLaravel dir s1 s2 :
  sameButLaravel s1 s2 ->
  sameButLaravel (snd (detectFromComposer dir s1)) (snd (detectFromComposer dir s2)).
Proof.
  intros H. unfold detectFromComposer.
  destruct (ReadFile dir "composer.json") as [data | err];
    [| destruct (IsNotExist err); exact H].
  destruct (asComposerJSON data) as [c |]; [| exact H].
  destruct s1 as [php1 lar1 nuxt1 vue1 ui1], s2 as [php2 lar2 nuxt2 vue2 ui2].
  destruct H as (H1 & H2 & H3 & H4 & Hl).
  cbn [PHP Laravel Nuxt Vue NuxtUI] in H1, H2, H3, H4, Hl.
  subst php2 nuxt2 vue2 ui2.
  destruct (cConfigPlatform c) as [pl |];
    [destruct (pl !! "php") as [[| a v] |] |];
    destruct (cRequire c !! "php") as [[| a' v'] |];
    destruct (cRequire c !! "laravel/framework") as [[| b w] |];
    destruct php1 as [| p0 p1], lar1 as [| l0 l1], lar2 as [| m0 m1];
    cbn; repeat split; auto; try discriminate;
    try (intros _; apply Hl; discriminate).
Qed.

Lemma detectFromPackageJson_sameButLaravel dir s1 s2 :
  sameButLaravel s1 s2 ->
  sameButLaravel (snd (detectFromPackageJson dir s1))
    (snd (detectFromPackageJson dir s2)).
Proof.
  intros H. unfold detectFromPackageJson.
  destruct (ReadFile dir "package.json") as [data | err];
    [| destruct (IsNotExist err); exact H].
  destruct (asPackageJSON data) as [p |]; [| exact H].
  destruct s1 as [php1 lar1 nuxt1 vue1 ui1], s2 as [php2 lar2 nuxt2 vue2 ui2].
  destruct H as (H1 & H2 & H3 & H4 & Hl).
  cbn [PHP Laravel Nuxt Vue NuxtUI] in H1, H2, H3, H4, Hl.
  subst php2 nuxt2 vue2 ui2.
  destruct (getDep p "nuxt"), (getDep p "vue"), (getDep p "@nuxt/ui");
    destruct nuxt1, vue1, ui1; cbn; repeat split; auto.
Qed.

Lemma detectFromPackageLockJson_sameButLaravel dir s1 s2 :
  sameButLaravel s1 s2 ->
  sameButLaravel (snd (detectFromPackageLockJson dir s1))
    (snd (detectFromPackageLockJson dir s2)).
Proof.
  intros H. unfold detectFromPackageLockJson.
  destruct (ReadFile dir "package-lock.json") as [data | err];
    [| destruct (IsNotExist err); exact H].
  destruct (asLockFile data) as [lock |]; [| exact H].
  destruct s1 as [php1 lar1 nuxt1 vue1 ui1], s2 as [php2 lar2 nuxt2 vue2 ui2].
  destruct H as (H1 & H2 & H3 & H4 & Hl).
  cbn [PHP Laravel Nuxt Vue NuxtUI] in H1, H2, H3, H4, Hl.
  subst php2 nuxt2 vue2 ui2. cbn [NuxtUI].
  destruct (isEmpty ui1); [| repeat split; auto].
  destruct (pinned (ldVersion <$> lDependencies lock !! "@nuxt/ui"));
    [repeat split; auto |].
  destruct (pinned (lpVersion <$> lPackages lock !! "node_modules/@nuxt/ui"));
    repeat split; auto.
Qed.

Lemma lockReader_sameButLaravel dir s1 s2 :
  sameButLaravel s1 s2 -> sameButLaravel s1 (snd (lockReader dir s2)).
Proof.
  intros (H1 & H2 & H3 & H4 & Hl).
  destruct (lock_contract dir s2) as (v & -> & Hv).
  destruct s2 as [php2 lar2 nuxt2 vue2 ui2]. cbn in *.
  repeat split; auto. intros Hne. rewrite (Hv (Hl Hne)). exact (Hl Hne).
Qed.

(** The two walk functions stay in step. *)
Lemma walkFn_inStep p d e s1 s2 :
  sameButLaravel s1 s2 ->
  inStep sameButLaravel (DetectEarlier.walkFn p d e s1)
    (Detect.walkFn lockReader p d e s2).
Proof.
  intros H. unfold DetectEarlier.walkFn, Detect.walkFn, inStep.
  destruct e as [e |]; [split; [reflexivity | exact H] |].
  destruct p as [| dir name]; [split; [reflexivity | exact H] |].
  destruct d as [d |]; [| split; [reflexivity | exact H]].
  destruct (IsDir d).
  - destruct (HasPrefix (Name d) "."); [split; [reflexivity | exact H] |].
    destruct (default false (ignoredDirs !! Name d));
      split; try reflexivity; exact H.
  - destruct (String.eqb_spec (Name d) "composer.json") as [E | _].
    { split; [reflexivity |]. cbn [snd].
      apply detectFromComposer_sameButLaravel. exact H. }
    destruct (String.eqb_spec (Name d) "composer.lock") as [E | _].
    { rewrite E. cbn [String.eqb Ascii.eqb Bool.eqb andb]. split; [reflexivity |].
      cbn [snd]. apply lockReader_sameButLaravel. exact H. }
    destruct (String.eqb (Name d) "package.json").
    { split; [reflexivity |]. cbn [snd].
      apply detectFromPackageJson_sameButLaravel. exact H. }
    destruct (String.eqb (Name d) "package-lock.json").
    { split; [reflexivity |]. cbn [snd].
      apply detectFromPackageLockJson_sameButLaravel. exact H. }
    split; [reflexivity | exact H].
Qed.
End Compare.

(** X22. The two detectors: provided the reader of [composer.lock]
    changes nothing but the Laravel field and keeps a Laravel version that
    is set, the later [DetectStack] and the earlier one, which does not
    look at [composer.lock], end alike on every project: with the same
    error, or with stacks that have the same PHP, Nuxt, Vue and Nuxt UI
    versions, the later one having a Laravel version whenever the earlier
    one has. *)
Theorem detectors_differ_in_Laravel_only (lockReader : reader)
    (lock_contract : forall dir s, exists v,
       snd (lockReader dir s) = setLaravel v s
       /\ (Laravel s <> "" -> v = Laravel s))
    (projectRoot : option node) :
  corresponds (DetectEarlier.DetectStack projectRoot)
    (Detect.DetectStack lockReader projectRoot).
Proof.
  unfold DetectEarlier.DetectStack, Detect.DetectStack. cbv zeta.
  destruct (detectFromComposer projectRoot emptyStack) as [[e1 |] s1];
    [reflexivity |].
  destruct (detectFromPackageJson projectRoot s1) as [[e2 |] s2];
    [reflexivity |].
  destruct (detectFromPackageLockJson projectRoot s2) as [[e3 |] s3];
    [reflexivity |].
  destruct (WalkDir_sim DetectEarlier.walkFn (Detect.walkFn lockReader)
              sameButLaravel (walkFn_inStep lockReader lock_contract)
              projectRoot s3 s3 (sameButLaravel_refl s3)) as [Hf Hs].
  destruct (WalkDir DetectEarlier.walkFn projectRoot s3) as [[e |] t1],
           (WalkDir (Detect.walkFn lockReader) projectRoot s3) as [[e' |] t2];
    cbn [fst snd] in *; try discriminate.
  - injection Hf as <-. reflexivity.
  - exact Hs.
Qed.

Lemma detectFromComposerLock_spec_contract dir s :
  exists v,
    snd (detectFromComposerLock_spec dir s) = setLaravel v s
    /\ (Laravel s <> "" -> v = Laravel s).
Proof.
  unfold detectFromComposerLock_spec. destruct s as [php lar nuxt vue ui].
  destruct (ReadFile dir "composer.lock") as [data | err];
    [| exists lar; destruct (IsNotExist err); split; reflexivity].
  destruct (asComposerLock data) as [lock |]; [| exists lar; split; reflexivity].
  cbn [Laravel]. destruct lar as [| l0 l1]; cbn [isEmpty].
  - destruct (pinned _) as [v |]; [exists v | exists ""]; split;
      try reflexivity; intros H; contradiction H; reflexivity.
  - exists (String l0 l1). split; reflexivity.
Qed.

(** On [lockedProject] the earlier detector reports the range of the
    manifest, the later one the version pinned by the lock file. *)
Lemma detectors_differ_in_Laravel_only_witness :
  DetectEarlier.DetectStack (Some lockedProject)
  = Ok (mkStack "" "^11.0" "" "" "")
  /\ Detect.DetectStack detectFromComposerLock_spec (Some lockedProject)
     = Ok (mkStack "" "11.9.2" "" "" "")
  /\ corresponds (DetectEarlier.DetectStack (Some lockedProject))
       (Detect.DetectStack detectFromComposerLock_spec (Some lockedProject)).
Proof.
  split; [reflexivity |]. split; [reflexivity |].
  apply (detectors_differ_in_Laravel_only detectFromComposerLock_spec
           detectFromComposerLock_spec_contract).
Defined.

End DetectEarlierFacts.

(** ** The [detect] command *)

Module CmdDetectFacts.
Import GoStrings GoStringsFacts Detect Cmd CmdDetect.

(** X23. The [detect] command and the stack section of the generated
    document say the same: after its first line, [detect] prints exactly
    the lines that [buildStackSection] joins under the heading
    "## Stack", and it prints none exactly when the section is empty,
    which is when no field of the stack is set. *)
Theorem detect_prints_the_stack_section (stack : DetectedStack) :
  exists lines,
    detectRun (Ok stack) = inl ("Detected stack:" :: lines)
    /\ buildStackSection (Some stack)
       = match lines with
         | [] => ""
         | _ => "## Stack" +:+ LF +:+ LF +:+ Join lines LF
         end
    /\ (lines = [] <-> stack = emptyStack).
Proof.
  destruct stack as [php lar nuxt vue ui].
  unfold detectRun, buildStackSection. cbn [PHP Laravel Nuxt Vue NuxtUI].
  destruct php as [| p0 p1], lar as [| l0 l1], nuxt as [| n0 n1],
    vue as [| v0 v1], ui as [| u0 u1];
    cbn [isEmpty negb app length Nat.eqb];
    eexists; (split; [reflexivity |]); (split; [reflexivity |]);
    split; intros H; try reflexivity; discriminate H.
Qed.

End CmdDetectFacts.

(** ** The generator over rule files on disk *)

Module CmdFilesFacts.
Import GoStrings GoStringsFacts Detect Cmd CmdFacts CmdFlags CmdMoreFacts
  CmdValidateFileFacts.
Import GoFilepath CmdFiles CmdFilesAuto.

(** *** [Split] and [Join] on the slash *)

Lemma prefix_same c r : String.prefix (String c "") (String c r) = true.
Proof.
  cbn [String.prefix]. destruct (ascii_dec c c) as [_ | N];
    [apply prefix_nil | contradiction N; reflexivity].
Qed.

(** Splitting at a separator that was put in splits there. *)
Lemma splitLoop_sep_app c0 cur a b :
  splitLoop (String c0 "") 0 cur (a +:+ String c0 b)
  = splitLoop (String c0 "") 0 cur a ++ splitLoop (String c0 "") 0 "" b.
Proof.
  revert cur. induction a as [| c a IH]; intros cur.
  - rewrite sapp_nil_l. cbn [splitLoop String.length Nat.sub].
    rewrite prefix_same. reflexivity.
  - rewrite sapp_cons. cbn [splitLoop String.length Nat.sub].
    destruct (String.prefix (String c0 "") (String c (a +:+ String c0 b))) eqn:E1;
      destruct (String.prefix (String c0 "") (String c a)) eqn:E2.
    + cbn [app]. f_equal. apply IH.
    + exfalso. cbn [String.prefix] in E1, E2.
      destruct (ascii_dec c0 c); [| discriminate E1].
      rewrite prefix_nil in E2. discriminate E2.
    + exfalso. cbn [String.prefix] in E1, E2.
      destruct (ascii_dec c0 c); [| discriminate E2].
      rewrite prefix_nil in E1. discriminate E1.
    + apply IH.
Qed.

(** Joining what was split gives the string back. *)
Lemma concat_splitLoop c0 cur r :
  String.concat (String c0 "") (splitLoop (String c0 "") 0 cur r) = cur +:+ r.
Proof.
  revert cur. induction r as [| c r IH]; intros cur.
  - cbn [splitLoop String.concat]. rewrite sapp_nil_r. reflexivity.
  - cbn [splitLoop String.length Nat.sub].
    destruct (String.prefix (String c0 "") (String c r)) eqn:E.
    + cbn [String.prefix] in E. destruct (ascii_dec c0 c) as [<- | _];
        [| discriminate E].
      destruct (splitLoop (String c0 "") 0 "" r) as [| p ps] eqn:Es;
        [exfalso; exact (splitLoop_nonempty _ _ _ _ Es) |].
      rewrite concat_cons, <- Es, IH, sapp_nil_l. reflexivity.
    + rewrite IH, sapp_assoc. reflexivity.
Qed.

(** A string without the separator is one piece. *)
Lemma Split_one c0 s :
  allChars (fun c => negb (Ascii.eqb c c0)) s = true -> Split s (String c0 "") = [s].
Proof.
  intros H. unfold Split.
  pose proof (splitLoop_pass c0 "" s "" "" H) as E.
  rewrite sapp_nil_r, sapp_nil_l in E. exact E.
Qed.

(** The pieces hold the characters of the string that are not the
    separator. *)
Lemma splitLoop_pieces (q : ascii -> bool) c0 cur s :
  allChars q cur = true ->
  allChars (fun c => Ascii.eqb c c0 || q c) s = true ->
  Forall (fun piece => allChars q piece = true) (splitLoop (String c0 "") 0 cur s).
Proof.
  revert cur. induction s as [| c s IH]; intros cur Hcur Hs.
  - repeat constructor. exact Hcur.
  - cbn [allChars] in Hs. apply andb_prop in Hs as [Hc Hs].
    cbn [splitLoop String.length Nat.sub].
    destruct (String.prefix (String c0 "") (String c s)) eqn:E.
    + constructor; [exact Hcur | apply IH; [reflexivity | exact Hs]].
    + apply IH; [| exact Hs]. rewrite allChars_app, Hcur. cbn [allChars andb].
      destruct (Ascii.eqb_spec c c0) as [-> | _];
        [rewrite prefix_same in E; discriminate E |].
      cbn [orb] in Hc. rewrite Hc. reflexivity.
Qed.

(** *** [filepath.Clean] and [filepath.Join] on plain paths *)

Lemma cleanElems_plain rooted elems :
  forall out,
    forallb plainElem elems = true -> cleanElems rooted out elems = out ++ elems.
Proof.
  induction elems as [| e rest IH]; intros out H;
    [rewrite List.app_nil_r; reflexivity |].
  cbn [forallb] in H. apply andb_prop in H as [He Hrest].
  unfold plainElem in He. apply andb_prop in He as [He H2].
  apply andb_prop in He as [H0 H1].
  cbn [cleanElems]. apply negb_true_iff in H0, H1, H2.
  rewrite H0, H1, H2. cbn [orb].
  rewrite (IH _ Hrest), <- List.app_assoc. reflexivity.
Qed.

Lemma plainPath_head p :
  plainPath p = true -> isEmpty p = false /\ HasPrefix p "/" = false.
Proof.
  unfold plainPath, Split, HasPrefix. destruct p as [| c r]; [discriminate |].
  intros H. split; [reflexivity |].
  destruct (Ascii.eqb_spec c "/") as [-> | Hne];
    [| apply prefix_other; exact Hne].
  cbn [splitLoop String.length Nat.sub] in H. rewrite prefix_same in H.
  discriminate H.
Qed.

Lemma Clean_plain p : plainPath p = true -> Clean p = p.
Proof.
  intros H. destruct (plainPath_head p H) as [He Hr].
  unfold Clean. cbv zeta. rewrite He, Hr.
  rewrite (cleanElems_plain false (Split p "/") [] H). cbn [app].
  unfold GoStrings.Join, Split. rewrite concat_splitLoop, sapp_nil_l, He.
  reflexivity.
Qed.

Lemma plainPath_slash a b :
  plainPath (a +:+ "/" +:+ b) = plainPath a && plainPath b.
Proof.
  unfold plainPath, Split.
  change (a +:+ "/" +:+ b) with (a +:+ String "/" b).
  rewrite splitLoop_sep_app, forallb_app. reflexivity.
Qed.

(** [filepath.Join] of two plain paths puts a slash between them. *)
Lemma Join_plain a b :
  plainPath a = true -> plainPath b = true ->
  GoFilepath.Join [a; b] = a +:+ "/" +:+ b.
Proof.
  intros Ha Hb. destruct (plainPath_head a Ha) as [He _].
  cbn [GoFilepath.Join]. rewrite He. unfold GoStrings.Join.
  cbn [String.concat]. apply Clean_plain.
  rewrite plainPath_slash, Ha, Hb. reflexivity.
Qed.

Lemma Join3_plain a b c :
  plainPath a = true -> plainPath b = true -> plainPath c = true ->
  GoFilepath.Join [a; b; c] = a +:+ "/" +:+ b +:+ "/" +:+ c.
Proof.
  intros Ha Hb Hc. destruct (plainPath_head a Ha) as [He _].
  cbn [GoFilepath.Join]. rewrite He. unfold GoStrings.Join.
  cbn [String.concat]. apply Clean_plain.
  rewrite !plainPath_slash, Ha, Hb, Hc. reflexivity.
Qed.

(** *** Labels of rule files *)

Lemma TrimPrefix_app pre s : TrimPrefix (pre +:+ s) pre = s.
Proof.
  unfold TrimPrefix, HasPrefix.
  assert (Hp : String.prefix pre (pre +:+ s) = true).
  { induction pre as [| c pre IH]; [apply prefix_nil |].
    rewrite sapp_cons. cbn [String.prefix].
    destruct (ascii_dec c c) as [_ | N]; [exact IH | contradiction N; reflexivity]. }
  rewrite Hp. induction pre as [| c pre IH]; [reflexivity |].
  rewrite sapp_cons. cbn [String.length dropBytes]. apply IH.
  clear -Hp. rewrite sapp_cons in Hp. cbn [String.prefix] in Hp.
  destruct (ascii_dec c c); [exact Hp | discriminate Hp].
Qed.

(** X24. The label of a rule file on disk: for a path [rules/id.md]
    made of plain elements (none empty, "." or ".."),
    [deriveRuleNameFromPath] returns [id] with its slashes replaced by
    blanks; the case of a single element needs no treatment of its own. *)
Theorem deriveRuleNameFromPath_plain (id : string) :
  plainPath ("rules/" +:+ id +:+ ".md") = true ->
  deriveRuleNameFromPath ("rules/" +:+ id +:+ ".md") = slashesToBlanks id.
Proof.
  intros H. unfold deriveRuleNameFromPath. cbv zeta.
  rewrite (Clean_plain _ H).
  change ("rules" +:+ "/") with "rules/".
  rewrite TrimPrefix_app, TrimSuffix_app.
  assert (E : GoStrings.Join (Split id "/") " " = slashesToBlanks id).
  { unfold GoStrings.Join, Split. rewrite splitLoop_slash. apply sapp_nil_l. }
  destruct (Split id "/") as [| x [| y rest]] eqn:Es.
  - exfalso. exact (Split_nonempty _ _ Es).
  - cbn [length Nat.eqb]. rewrite <- E. reflexivity.
  - cbn [length Nat.eqb]. exact E.
Qed.

Lemma deriveRuleNameFromPath_plain_witness :
  deriveRuleNameFromPath ("rules/" +:+ "php/8/general" +:+ ".md") = "php 8 general".
Proof. apply (deriveRuleNameFromPath_plain "php/8/general"). reflexivity. Defined.

(** *** Resolution *)

Lemma hasMeta_app a b : hasMeta (a +:+ b) = hasMeta a || hasMeta b.
Proof.
  induction a as [| c a IH]; [reflexivity |].
  rewrite sapp_cons. cbn [hasMeta]. rewrite IH, !orb_assoc. reflexivity.
Qed.

Lemma digit_char c :
  isDigit c = true ->
  negb (Ascii.eqb c "/") = true /\ negb (Ascii.eqb c ".") = true
  /\ (byteOf c =? 42) || (byteOf c =? 63) || (byteOf c =? 91) || (byteOf c =? 92)
     = false.
Proof.
  destruct c as [[] [] [] [] [] [] [] []]; vm_compute; intros H;
    try discriminate H; repeat split.
Qed.

Lemma digits_hasMeta s : allChars isDigit s = true -> hasMeta s = false.
Proof.
  induction s as [| c s IH]; [reflexivity |].
  cbn [allChars hasMeta]. intros H. apply andb_prop in H as [Hc Hs].
  destruct (digit_char c Hc) as (_ & _ & ->). exact (IH Hs).
Qed.

Lemma digits_noSlash s :
  allChars isDigit s = true ->
  allChars (fun c => negb (Ascii.eqb c "/")) s = true.
Proof.
  apply allChars_impl. intros c Hc. apply (digit_char c Hc).
Qed.

Lemma digits_plainElem s :
  allChars isDigit s = true -> s <> "" -> plainElem s = true.
Proof.
  destruct s as [| c s]; [intros _ H; contradiction H; reflexivity |].
  cbn [allChars]. intros H _. apply andb_prop in H as [Hc _].
  destruct (digit_char c Hc) as (_ & Hd & _). apply negb_true_iff in Hd.
  unfold plainElem. cbn [isEmpty negb String.eqb andb]. rewrite Hd. reflexivity.
Qed.

Lemma digits_plainPath s :
  allChars isDigit s = true -> s <> "" -> plainPath s = true.
Proof.
  intros H Hne. unfold plainPath.
  rewrite (Split_one "/" s (digits_noSlash s H)). cbn [forallb].
  rewrite (digits_plainElem s H Hne). reflexivity.
Qed.

(** [major.minor] is one plain element. *)
Lemma version_plainPath M m :
  allChars isDigit M = true -> allChars isDigit m = true -> M <> "" ->
  plainPath (M +:+ "." +:+ m) = true /\ hasMeta (M +:+ "." +:+ m) = false.
Proof.
  intros HM Hm Hne. split.
  - unfold plainPath. rewrite (Split_one "/").
    + cbn [forallb]. rewrite andb_true_r.
      destruct M as [| c M]; [contradiction Hne; reflexivity |].
      cbn [allChars] in HM. apply andb_prop in HM as [Hc _].
      destruct (digit_char c Hc) as (_ & Hd & _). apply negb_true_iff in Hd.
      rewrite sapp_cons. unfold plainElem.
      cbn [isEmpty negb String.eqb andb]. rewrite Hd. reflexivity.
    + rewrite !allChars_app, (digits_noSlash M HM), (digits_noSlash m Hm).
      reflexivity.
  - rewrite !hasMeta_app, (digits_hasMeta M HM), (digits_hasMeta m Hm).
    reflexivity.
Qed.

(** The major and the minor part of a normalized version hold digits
    only. *)
Lemma version_parts_digits version :
  allChars isDigit (majorOf (normalizeVersion version)) = true
  /\ allChars isDigit (minorOf (normalizeVersion version)) = true.
Proof.
  assert (Hn : allChars isDigitOrDot (normalizeVersion version) = true).
  { unfold normalizeVersion.
    destruct (isEmpty (TrimSpace version)); [reflexivity | apply digitsAndDots_chars]. }
  assert (Hp : Forall (fun piece => allChars isDigit piece = true)
                 (Split (normalizeVersion version) ".")).
  { apply splitLoop_pieces; [reflexivity |].
    eapply allChars_impl; [| exact Hn]. intros c Hc. unfold isDigitOrDot in Hc.
    unfold isDigit. rewrite orb_comm. exact Hc. }
  unfold majorOf, minorOf, at0, at1. cbv zeta.
  destruct (Split (normalizeVersion version) ".") as [| x [| y rest]];
    [split; reflexivity | |].
  - apply Forall_cons_iff in Hp as [Hx _]. split; [exact Hx | reflexivity].
  - apply Forall_cons_iff in Hp as [Hx Hp].
    apply Forall_cons_iff in Hp as [Hy _]. split; [exact Hx | exact Hy].
Qed.

Section Resolve.
Variable os : OS.
Variable name : string.
Hypothesis name_plain : plainPath name = true.
Hypothesis name_meta : hasMeta name = false.

Lemma baseDir_plain : GoFilepath.Join ["rules"; name] = "rules/" +:+ name.
Proof. apply (Join_plain "rules" name eq_refl name_plain). Qed.

Lemma base_plainPath : plainPath ("rules/" +:+ name) = true.
Proof.
  change ("rules/" +:+ name) with ("rules" +:+ "/" +:+ name).
  rewrite plainPath_slash, name_plain. reflexivity.
Qed.

Lemma base_hasMeta : hasMeta ("rules/" +:+ name) = false.
Proof. rewrite hasMeta_app, name_meta. reflexivity. Qed.

(** What [addAllMarkdownInDir] does for a directory below the base
    directory whose name is plain and has no meta characters. *)
Lemma addAllMarkdownInDir_probe files sub :
  plainPath sub = true -> hasMeta sub = false ->
  addAllMarkdownInDir os files (GoFilepath.Join ["rules/" +:+ name; sub])
  = files ++ probe os ("rules/" +:+ name +:+ "/" +:+ sub).
Proof.
  intros Hs Hm. rewrite (Join_plain _ sub base_plainPath Hs).
  assert (Hd : plainPath (("rules/" +:+ name) +:+ "/" +:+ sub) = true)
    by (rewrite plainPath_slash, base_plainPath, Hs; reflexivity).
  unfold addAllMarkdownInDir, probe.
  rewrite (Join_plain _ "general.md" Hd eq_refl). rewrite !sapp_assoc.
  destruct (osStatIsDir os ("rules/" +:+ name +:+ "/" +:+ sub));
    [| rewrite List.app_nil_r; reflexivity].
  cbn [negb andb]. unfold Glob.
  replace (hasMeta ("rules/" +:+ name +:+ "/" +:+ sub +:+ "/" +:+ "general.md"))
    with false.
  2: { rewrite !hasMeta_app, name_meta, Hm. reflexivity. }
  change ("/" +:+ "general.md") with "/general.md".
  destruct (osLstat os _); [reflexivity | rewrite List.app_nil_r; reflexivity].
Qed.
End Resolve.

Lemma addRulesFor_resolved os files name version :
  plainPath name = true -> hasMeta name = false ->
  CmdFiles.addRulesFor os files name version = files ++ generalOf os name version.
Proof.
  intros Hp Hm. unfold generalOf, CmdFiles.addRulesFor. cbv zeta.
  destruct (isEmpty version); [rewrite List.app_nil_r; reflexivity |].
  destruct (version_parts_digits version) as [HM Hmin].
  set (norm := normalizeVersion version) in *.
  assert (Hbase : plainPath ("rules/" +:+ name) = true)
    by (apply base_plainPath; exact Hp).
  rewrite (baseDir_plain name Hp), (Join_plain _ "general.md" Hbase eq_refl).
  rewrite sapp_assoc. change ("/" +:+ "general.md") with "/general.md".
  destruct (isEmpty norm) eqn:En.
  { apply isEmpty_true in En. rewrite En. reflexivity. }
  destruct (isEmpty (majorOf norm)) eqn:EM; cbn [negb andb].
  { rewrite !List.app_nil_r. reflexivity. }
  assert (HMne : majorOf norm <> "") by (apply isEmpty_false; exact EM).
  destruct (isEmpty (minorOf norm)) eqn:Em; cbn [negb].
  - rewrite (addAllMarkdownInDir_probe os name Hp Hm _ _
               (digits_plainPath _ HM HMne) (digits_hasMeta _ HM)).
    rewrite <- List.app_assoc. reflexivity.
  - destruct (version_plainPath _ _ HM Hmin HMne) as [Hvp Hvm].
    rewrite (addAllMarkdownInDir_probe os name Hp Hm _ _ Hvp Hvm).
    rewrite (addAllMarkdownInDir_probe os name Hp Hm _ _
               (digits_plainPath _ HM HMne) (digits_hasMeta _ HM)).
    rewrite <- !List.app_assoc. reflexivity.
Qed.

Lemma addAgentFor_resolved agents label name version :
  plainPath name = true ->
  CmdFiles.addAgentFor agents label name version
  = agents ++ agentOf label name version.
Proof.
  intros Hp. unfold agentOf, CmdFiles.addAgentFor, ruleDir. cbv zeta.
  destruct (isEmpty version); [rewrite List.app_nil_r; reflexivity |].
  destruct (version_parts_digits version) as [HM Hmin].
  set (norm := normalizeVersion version) in *.
  assert (Hbase : plainPath ("rules/" +:+ name) = true)
    by (apply base_plainPath; exact Hp).
  rewrite (baseDir_plain name Hp).
  destruct (isEmpty (majorOf norm)) eqn:EM; cbn [negb andb].
  { rewrite (Join_plain _ "agent.md" Hbase eq_refl), sapp_assoc. reflexivity. }
  assert (HMne : majorOf norm <> "") by (apply isEmpty_false; exact EM).
  destruct (isEmpty (minorOf norm)) eqn:Em; cbn [negb].
  - rewrite (Join3_plain _ _ "agent.md" Hbase (digits_plainPath _ HM HMne) eq_refl).
    rewrite !sapp_assoc. reflexivity.
  - destruct (version_plainPath _ _ HM Hmin HMne) as [Hvp _].
    rewrite (Join3_plain _ _ "agent.md" Hbase Hvp eq_refl).
    rewrite !sapp_assoc. reflexivity.
Qed.

(** X25. Resolution over rule files on disk, for a technology whose
    name is a plain path without meta characters and whose version is not
    empty.  [addRulesFor] always appends [rules/name/general.md], whether
    it exists or not, then the [general.md] of [rules/name/major.minor]
    and of [rules/name/major], each only when the directory and the file
    exist; [addAgentFor] appends exactly one agent file, the [agent.md]
    of the finest of these directories that the version names, whether it
    exists or not. *)
Theorem files_resolution (os : OS) (files : list string)
    (agents : list agentFile) (label name version : string) :
  plainPath name = true ->
  hasMeta name = false ->
  version <> "" ->
  let major := majorOf (normalizeVersion version) in
  let minor := minorOf (normalizeVersion version) in
  CmdFiles.addRulesFor os files name version
  = files ++ ["rules/" +:+ name +:+ "/general.md"]
      ++ (if negb (isEmpty major) && negb (isEmpty minor)
          then probe os ("rules/" +:+ name +:+ "/" +:+ major +:+ "." +:+ minor)
          else [])
      ++ (if negb (isEmpty major)
          then probe os ("rules/" +:+ name +:+ "/" +:+ major) else [])
  /\ CmdFiles.addAgentFor agents label name version
     = agents ++ [CmdFiles.mkAgent label (ruleDir name major minor +:+ "/agent.md")].
Proof.
  intros Hp Hm Hv. cbv zeta. apply isEmpty_false in Hv.
  rewrite (addRulesFor_resolved os files name version Hp Hm).
  rewrite (addAgentFor_resolved agents label name version Hp).
  unfold generalOf, agentOf. rewrite Hv. split; reflexivity.
Qed.

(** PHP "^5.3" over [baseOnly], where only the base rules are on disk. *)
Lemma files_resolution_witness :
  CmdFiles.addRulesFor baseOnly [] "php" "^5.3" = ["rules/php/general.md"]
  /\ CmdFiles.addAgentFor [] "PHP" "php" "^5.3"
     = [CmdFiles.mkAgent "PHP" "rules/php/5.3/agent.md"].
Proof.
  destruct (files_resolution baseOnly [] [] "PHP" "php" "^5.3" eq_refl eq_refl)
    as [-> ->]; [discriminate |].
  split; reflexivity.
Defined.

(** X26. Auto mode over rule files on disk: the general files are, for
    PHP, Laravel, Nuxt, Vue and Nuxt UI in this order, the base file of
    every technology with a version followed by the versioned files found
    on disk, and the agent files are one per technology with a version;
    so some general file is selected exactly when some agent file is,
    which is when the stack is not empty, whatever is on disk. *)
Theorem files_auto_mode (os : OS) (stack : DetectedStack) :
  buildGeneralFilesFromDetection os stack
  = generalOf os "php" (PHP stack) ++ generalOf os "laravel" (Laravel stack)
      ++ generalOf os "nuxt" (Nuxt stack) ++ generalOf os "vue" (Vue stack)
      ++ generalOf os "nuxt_ui" (NuxtUI stack)
  /\ buildAgentFilesFromDetection stack
     = agentOf "PHP" "php" (PHP stack) ++ agentOf "Laravel" "laravel" (Laravel stack)
         ++ agentOf "Nuxt" "nuxt" (Nuxt stack) ++ agentOf "Vue" "vue" (Vue stack)
         ++ agentOf "Nuxt UI" "nuxt_ui" (NuxtUI stack)
  /\ (buildGeneralFilesFromDetection os stack = [] <-> stack = emptyStack)
  /\ (buildAgentFilesFromDetection stack = [] <-> stack = emptyStack).
Proof.
  assert (EG : buildGeneralFilesFromDetection os stack
               = generalOf os "php" (PHP stack)
                   ++ generalOf os "laravel" (Laravel stack)
                   ++ generalOf os "nuxt" (Nuxt stack)
                   ++ generalOf os "vue" (Vue stack)
                   ++ generalOf os "nuxt_ui" (NuxtUI stack)).
  { unfold buildGeneralFilesFromDetection. cbv zeta.
    rewrite !addRulesFor_resolved by reflexivity.
    cbn [app]. rewrite <- !List.app_assoc. reflexivity. }
  assert (EA : buildAgentFilesFromDetection stack
               = agentOf "PHP" "php" (PHP stack)
                   ++ agentOf "Laravel" "laravel" (Laravel stack)
                   ++ agentOf "Nuxt" "nuxt" (Nuxt stack)
                   ++ agentOf "Vue" "vue" (Vue stack)
                   ++ agentOf "Nuxt UI" "nuxt_ui" (NuxtUI stack)).
  { unfold buildAgentFilesFromDetection. cbv zeta.
    rewrite !addAgentFor_resolved by reflexivity.
    cbn [app]. rewrite <- !List.app_assoc. reflexivity. }
  split; [exact EG |]. split; [exact EA |].
  rewrite EG, EA. unfold generalOf, agentOf.
  destruct stack as [php lar nuxt vue ui]. cbn [PHP Laravel Nuxt Vue NuxtUI].
  split; (split; [| intros [= -> -> -> -> ->]; reflexivity]);
    destruct php, lar, nuxt, vue, ui; cbn [isEmpty app];
    try reflexivity; discriminate.
Qed.

End CmdFilesFacts.

(** ** The [generate] command, and [validate] after it *)

Module CmdGenerateFacts.
Import GoStrings GoStringsFacts Detect Cmd CmdFacts CmdFlags CmdMoreFacts
  RulesList RulesListFacts CmdValidate CmdValidateFacts CmdGenerate.





(** *** What a run writes *)






End CmdGenerateFacts.
